(** * Model artifact manager of snownlp-train: a shallow embedding

  The development follows [snownlp_model_utils.py] (artifact validation,
  atomic replacement with permanent backups, restore) and the model
  catalogue, the temporary replacement used for evaluation and the ranking
  of compared models in [SnowNLP训练测试工具.py].

  Python code that touches the file system is embedded in a state and
  exception monad over an explicit file-system state; exceptions keep the
  state reached when they were raised, as in Python. *)

From Stdlib Require Import ZArith QArith Ascii String Sorted.
From stdpp Require Import gmap strings list fin_maps.

Set Warnings "-register-all".
Local Open Scope string_scope.
Local Open Scope list_scope.

(** ** Python values and exceptions *)

Module Py.

(** What [marshal.loads] can return.  A dictionary carries its items; the
    keys of a Python dictionary are pairwise distinct. *)
Inductive pyval : Type :=
| PyNone
| PyBool (b : bool)
| PyInt (z : Z)
| PyFloat (bits : Z)
| PyStr (s : string)
| PyBytes (b : list Byte.byte)
| PyTuple (l : list pyval)
| PyList (l : list pyval)
| PyDict (items : list (pyval * pyval)).

(** [isinstance(v, dict)] *)
Definition is_dict (v : pyval) : bool :=
  match v with PyDict _ => true | _ => false end.

(** [k == s] for a string literal [s]: only a [str] equals a [str]. *)
Definition key_is (s : string) (k : pyval) : bool :=
  match k with PyStr s' => bool_decide (s = s') | _ => false end.

(** [s in d] *)
Definition dict_contains (s : string) (items : list (pyval * pyval)) : bool :=
  existsb (fun kv => key_is s (fst kv)) items.

(** [d.get(s)], with [None] of Python for a missing key *)
Definition dict_get (s : string) (items : list (pyval * pyval)) : pyval :=
  match find (fun kv => key_is s (fst kv)) items with
  | Some kv => snd kv
  | None => PyNone
  end.

(** Exception classes that occur in the embedded code. *)
Inductive exn_class : Type :=
| FileNotFoundError | IsADirectoryError | PermissionError | SameFileError
| EOFError | ValueError | TypeError | KeyError | RuntimeError.

(** An exception object: its class and [str(e)]. *)
Record exn : Type := Exn { exn_cls : exn_class; exn_str : string }.

(** Result of running a Python block. *)
Inductive outcome (A : Type) : Type :=
| Ret (a : A)
| Raise (e : exn).
Arguments Ret {A} a.
Arguments Raise {A} e.

(** Truth value of an [Optional[str]]: [None] and the empty string are
    false. *)
Definition truthy (o : option string) : bool :=
  match o with
  | None => false
  | Some s => negb (bool_decide (s = ""))
  end.

End Py.
Export Py.

(** ** The file system *)

Module Os.

Abbreviation bytes := (list Byte.byte).

(** A catalogue entry is a JSON object; the values that occur are strings,
    numbers and lists of strings. *)
Inductive jval : Type :=
| JStr (s : string)
| JNum (q : Q)
| JStrs (l : list string).

(** A file holds bytes, or the JSON text of a catalogue document (an
    object of objects), which is kept in parsed form. *)
Inductive node : Type :=
| Blob (b : bytes)
| Doc (d : gmap string (gmap string jval))
| Dir.

(** [nodes]: what exists at each path.  [denied]: the paths at which an
    attempt to create, overwrite, rename onto, rename away or unlink
    raises [PermissionError] and changes nothing.  Paths are names:
    distinct strings are distinct files, and parent directories are not
    tracked. *)
Record fs : Type := Fs {
  nodes : gmap string node;
  denied : gset string
}.

Definition set_nodes (f : gmap string node -> gmap string node) (σ : fs) : fs :=
  {| nodes := f (nodes σ); denied := denied σ |}.

(** The state and exception monad. *)
Definition M (A : Type) : Type := fs -> outcome A * fs.

Definition ret {A} (a : A) : M A := fun σ => (Ret a, σ).
Definition raise {A} (e : exn) : M A := fun σ => (Raise e, σ).
Definition bind {A B} (m : M A) (k : A -> M B) : M B :=
  fun σ => match m σ with
           | (Ret a, σ') => k a σ'
           | (Raise e, σ') => (Raise e, σ')
           end.
(** [try: m except Exception as e: h e] *)
Definition try_except {A} (m : M A) (h : exn -> M A) : M A :=
  fun σ => match m σ with
           | (Ret a, σ') => (Ret a, σ')
           | (Raise e, σ') => h e σ'
           end.

Declare Scope py_scope.
Delimit Scope py_scope with py.
Notation "x <- m ;; k" := (bind m (fun x => k))
  (at level 100, m at next level, right associativity) : py_scope.
Notation "m ;;; k" := (bind m (fun _ => k))
  (at level 100, right associativity) : py_scope.

(** *** Paths *)

Definition starts_with_slash (s : string) : bool :=
  match s with String c _ => bool_decide (c = "/"%char) | _ => false end.

Fixpoint ends_with_slash (s : string) : bool :=
  match s with
  | "" => false
  | String c "" => bool_decide (c = "/"%char)
  | String _ s' => ends_with_slash s'
  end.

(** [os.path.join(a, b)] of posixpath, two arguments *)
Definition os_path_join (a b : string) : string :=
  if starts_with_slash b then b
  else if bool_decide (a = "") || ends_with_slash a then a +:+ b
  else a +:+ "/" +:+ b.

Fixpoint has_slash (p : string) : bool :=
match p with
| "" => false
| String c p' => bool_decide (c = "/"%char) || has_slash p'
end.

(** [os.path.basename(p)]: what follows the last slash *)
Fixpoint os_path_basename (p : string) : string :=
match p with
| "" => ""
| String c p' =>
    if bool_decide (c = "/"%char) || has_slash p' then os_path_basename p'
    else p
end.

(** *** Queries *)

Definition exists_in (σ : fs) (p : string) : bool :=
  bool_decide (is_Some (nodes σ !! p)).

Definition isdir_in (σ : fs) (p : string) : bool :=
  match nodes σ !! p with Some Dir => true | _ => false end.

Definition os_path_exists (p : string) : M bool :=
  fun σ => (Ret (exists_in σ p), σ).

Definition os_path_isdir (p : string) : M bool :=
  fun σ => (Ret (isdir_in σ p), σ).

(** *** Exceptions of the operating system *)

Definition file_not_found (p : string) : exn :=
  Exn FileNotFoundError ("[Errno 2] No such file or directory: '" +:+ p +:+ "'").
Definition is_a_directory (p : string) : exn :=
  Exn IsADirectoryError ("[Errno 21] Is a directory: '" +:+ p +:+ "'").
Definition permission_denied (p : string) : exn :=
  Exn PermissionError ("[Errno 13] Permission denied: '" +:+ p +:+ "'").
Definition same_file (src dst : string) : exn :=
  Exn SameFileError ("'" +:+ src +:+ "' and '" +:+ dst +:+ "' are the same file").

(** *** Operations *)

(** [shutil.copy2(src, dst)]: a directory as destination receives the file
    under the base name of the source; the same existing file as source
    and destination is refused; the source is opened first, then the
    destination. *)
Definition copy_dest (σ : fs) (src dst : string) : string :=
  if isdir_in σ dst then os_path_join dst (os_path_basename src) else dst.

Definition shutil_copy2 (src dst : string) : M unit :=
  fun σ =>
    let dst' := copy_dest σ src dst in
    match nodes σ !! src with
    | None => (Raise (file_not_found src), σ)
    | Some Dir => (Raise (is_a_directory src), σ)
    | Some n =>
        if bool_decide (src = dst') then (Raise (same_file src dst'), σ)
        else if isdir_in σ dst' then (Raise (is_a_directory dst'), σ)
        else if bool_decide (dst' ∈ denied σ) then (Raise (permission_denied dst'), σ)
        else (Ret tt, set_nodes (insert dst' n) σ)
    end.

(** [os.remove(p)] *)
Definition os_remove (p : string) : M unit :=
  fun σ =>
    match nodes σ !! p with
    | None => (Raise (file_not_found p), σ)
    | Some Dir => (Raise (is_a_directory p), σ)
    | Some _ =>
        if bool_decide (p ∈ denied σ) then (Raise (permission_denied p), σ)
        else (Ret tt, set_nodes (delete p) σ)
    end.

(** [os.replace(src, dst)] for a regular file [src]; the embedded code
    calls it only on a file it has just read.  Renaming a directory is
    outside the model and refused. *)
Definition os_replace (src dst : string) : M unit :=
  fun σ =>
    match nodes σ !! src with
    | None => (Raise (file_not_found src), σ)
    | Some Dir => (Raise (is_a_directory src), σ)
    | Some n =>
        if isdir_in σ dst then (Raise (is_a_directory dst), σ)
        else if bool_decide (src ∈ denied σ) then (Raise (permission_denied src), σ)
        else if bool_decide (dst ∈ denied σ) then (Raise (permission_denied dst), σ)
        else if bool_decide (src = dst) then (Ret tt, σ)
        else (Ret tt, set_nodes (fun m => <[dst := n]> (delete src m)) σ)
    end.

End Os.
Export Os.

(** ** snownlp_model_utils.py *)

Module ModelUtils.

Local Open Scope py_scope.

(** How [marshal.loads] fails: [EOFError], [ValueError] or [TypeError]. *)
Inductive marshal_error : Type :=
| MarshalEOF
| MarshalBadData
| MarshalBadObject.

(** The interpreter and the libraries the module calls.
    [gzip_decompress] is [None] where [gzip.decompress] raises. *)
Class Runtime : Type := {
  py_major : Z;
  snownlp_package_dir : option string;
  gzip_decompress : bytes -> option bytes;
  marshal_loads : bytes -> marshal_error + pyval;
  json_dumps : gmap string (gmap string jval) -> bytes
}.

Definition marshal_exn (e : marshal_error) : exn :=
  match e with
  | MarshalEOF => Exn EOFError "EOF read where object expected"
  | MarshalBadData => Exn ValueError "bad marshal data (unknown type code)"
  | MarshalBadObject => Exn TypeError "NULL object in marshal data for object"
  end.

Record ReplaceResult : Type := mkReplaceResult {
  success : bool;
  sentiment_dir : option string;
  replaced_files : list string;
  error : option string
}.

(** [for x in xs: body x], where the body may end with [acc.append(b)] and
    then returns [Some b]; an exception leaves the loop with the list as
    it is at that point. *)
Fixpoint for_acc {A B : Type} (body : A -> M (option B)) (xs : list A) (acc : list B)
    (σ : fs) : list B * option exn * fs :=
  match xs with
  | [] => (acc, None, σ)
  | x :: xs' =>
      match body x σ with
      | (Ret o, σ') => for_acc body xs' (acc ++ option_list o) σ'
      | (Raise e, σ') => (acc, Some e, σ')
      end
  end.

Section WithRuntime.
Context {rt : Runtime}.

(** [get_snownlp_package_dir] is the directory of the installed package, as
    the runtime reports it. *)
Definition get_snownlp_package_dir : option string := snownlp_package_dir.

Definition get_snownlp_sentiment_dir : option string :=
  match get_snownlp_package_dir with
  | None => None
  | Some pkg_dir =>
      if bool_decide (pkg_dir = "") then None
      else Some (os_path_join pkg_dir "sentiment")
  end.

(** [with open(path, "rb") as f: raw = f.read()] *)
Definition read_bytes (path : string) : M bytes :=
  fun σ =>
    match nodes σ !! path with
    | None => (Raise (file_not_found path), σ)
    | Some Dir => (Raise (is_a_directory path), σ)
    | Some (Blob b) => (Ret b, σ)
    | Some (Doc d) => (Ret (json_dumps d), σ)
    end.

(** [try: raw = gzip.decompress(raw) except Exception: pass] *)
Definition gunzip_or_raw (raw : bytes) : bytes :=
  match gzip_decompress raw with
  | Some raw' => raw'
  | None => raw
  end.

Definition _load_marshal_data (path : string) : M pyval :=
  raw <- read_bytes path ;;
  let raw := gunzip_or_raw raw in
  match marshal_loads raw with
  | inl e => raise (marshal_exn e)
  | inr data =>
      match data with
      | PyDict items =>
          if negb (dict_contains "total" items) || negb (dict_contains "d" items)
          then raise (Exn ValueError "marshal dict missing required keys")
          else if negb (is_dict (dict_get "d" items))
          then raise (Exn ValueError "marshal dict['d'] is not a dict")
          else ret data
      | _ => raise (Exn ValueError "marshal data is not a dict")
      end
  end.

Definition validate_marshal_model_file (path : string) : M (option string) :=
  try_except (_ <- _load_marshal_data path ;; ret None)
             (fun e => ret (Some (exn_str e))).

Definition BACKUP_NAMES : list string := ["sentiment.marshal.3"; "sentiment.marshal"].

Definition restore_one (sentiment_dir fname : string) : M (option string) :=
  let target := os_path_join sentiment_dir fname in
  let backup := target +:+ ".backup_gui" in
  b <- os_path_exists backup ;;
  if b then (shutil_copy2 backup target ;;; ret (Some fname)) else ret None.

Definition restore_from_backup (sentiment_dir : string) : M ReplaceResult :=
  fun σ =>
    match for_acc (restore_one sentiment_dir) BACKUP_NAMES [] σ with
    | (replaced, None, σ') =>
        if bool_decide (replaced = [])
        then (Ret (mkReplaceResult false (Some sentiment_dir) []
                     (Some "no .backup_gui files found")), σ')
        else (Ret (mkReplaceResult true (Some sentiment_dir) replaced None), σ')
    | (replaced, Some e, σ') =>
        (Ret (mkReplaceResult false (Some sentiment_dir) replaced
                (Some (exn_str e))), σ')
    end.

Definition get_effective_model_filenames (replace_legacy_py2_file : bool) : list string :=
  let targets :=
    if bool_decide (3 <= py_major)%Z then ["sentiment.marshal.3"] else ["sentiment.marshal"] in
  if replace_legacy_py2_file && negb (bool_decide ("sentiment.marshal" ∈ targets))
  then targets ++ ["sentiment.marshal"]
  else targets.

(** Lines 275-276: the permanent backup is made when the target exists and
    has no backup yet. *)
Definition make_backup (target_path backup_path : string) : M unit :=
  t <- os_path_exists target_path ;;
  b <- os_path_exists backup_path ;;
  if t && negb b then shutil_copy2 target_path backup_path else ret tt.

(** Lines 285-296: the source is staged next to the target, the staged file
    is validated, and it is renamed onto the target. *)
Definition stage_and_commit (source_model_file tmp_path target_path : string) : M unit :=
  shutil_copy2 source_model_file tmp_path ;;;
  tmp_err <- validate_marshal_model_file tmp_path ;;
  if truthy tmp_err then
    try_except (os_remove tmp_path) (fun _ => ret tt) ;;;
    raise (Exn ValueError ("new model validation failed: " +:+ default "" tmp_err))
  else
    os_replace tmp_path target_path.

(** The body of the loop over the targets in [safe_replace_snownlp_model];
    it ends with [replaced.append(fname)]. *)
Definition replace_one (source_model_file sentiment_dir fname : string)
    : M (option string) :=
  let target_path := os_path_join sentiment_dir fname in
  let backup_path := target_path +:+ ".backup_gui" in
  make_backup target_path backup_path ;;;
  let tmp_path := target_path +:+ ".tmp_new" in
  stage_and_commit source_model_file tmp_path target_path ;;;
  ret (Some fname).

(** [safe_replace_snownlp_model], called without a logger (the default). *)
Definition safe_replace_snownlp_model (source_model_file : string)
    (sentiment_dir : option string) (replace_legacy_py2_file : bool) : M ReplaceResult :=
  let sentiment_dir :=
    match sentiment_dir with
    | None => get_snownlp_sentiment_dir
    | Some d => Some d
    end in
  match sentiment_dir with
  | None => ret (mkReplaceResult false sentiment_dir [] (Some "snownlp sentiment dir not found"))
  | Some d =>
      isd <- os_path_isdir d ;;
      if bool_decide (d = "") || negb isd
      then ret (mkReplaceResult false sentiment_dir [] (Some "snownlp sentiment dir not found"))
      else
        ex <- os_path_exists source_model_file ;;
        if negb ex
        then ret (mkReplaceResult false sentiment_dir []
                    (Some ("source model file not found: " +:+ source_model_file)))
        else
          err <- validate_marshal_model_file source_model_file ;;
          if truthy err
          then ret (mkReplaceResult false sentiment_dir []
                      (Some ("invalid source model file: " +:+ default "" err)))
          else
            let targets := get_effective_model_filenames replace_legacy_py2_file in
            fun σ =>
              match for_acc (replace_one source_model_file d) targets [] σ with
              | (replaced, None, σ') =>
                  (Ret (mkReplaceResult (bool_decide (0 < length replaced))
                          sentiment_dir replaced None), σ')
              | (replaced, Some e, σ') =>
                  let '(_, σ'') :=
                    try_except (_ <- restore_from_backup d ;; ret tt)
                               (fun _ => ret tt) σ' in
                  (Ret (mkReplaceResult false sentiment_dir replaced
                          (Some (exn_str e))), σ'')
              end
  end.

End WithRuntime.

End ModelUtils.
Export ModelUtils.

(** ** The model catalogue: class [ModelManager] *)

Module Catalog.

Local Open Scope py_scope.

(** The object: [self.config_file] and [self.models], a dictionary from
    model id to entry; an entry is a dictionary of JSON values. *)
Record ModelManager : Type := mkModelManager {
  config_file : string;
  models : gmap string (gmap string jval)
}.

(** [load_models]: the document when the file holds one, the empty
    dictionary when the file is absent or cannot be read as JSON. *)
Definition load_models (config_file : string) : M (gmap string (gmap string jval)) :=
  fun σ =>
    match nodes σ !! config_file with
    | Some (Doc d) => (Ret d, σ)
    | _ => (Ret ∅, σ)
    end.

(** [ModelManager(config_file)] *)
Definition init (config_file : string) : M ModelManager :=
  ms <- load_models config_file ;;
  ret (mkModelManager config_file ms).

(** [with open(p, 'w') as f: json.dump(d, f)] *)
Definition write_doc (p : string) (d : gmap string (gmap string jval)) : M unit :=
  fun σ =>
    if isdir_in σ p then (Raise (is_a_directory p), σ)
    else if bool_decide (p ∈ denied σ) then (Raise (permission_denied p), σ)
    else (Ret tt, set_nodes (insert p (Doc d)) σ).

(** [save_models]: a failure is printed and swallowed. *)
Definition save_models (self : ModelManager) : M unit :=
  try_except (write_doc (config_file self) (models self)) (fun _ => ret tt).

(** [os.path.exists(info['path'])].  A path that is not a string is outside
    the model (Python takes an integer for a file descriptor) and is
    refused. *)
Definition entry_path_exists (σ : fs) (info : gmap string jval) : outcome bool :=
  match info !! "path" with
  | None => Raise (Exn KeyError "'path'")
  | Some (JStr p) => Ret (exists_in σ p)
  | Some _ => Raise (Exn TypeError "stat: path should be string, bytes, os.PathLike or integer")
  end.

(** [info] has a path, and the path exists. *)
Definition live (σ : fs) (info : gmap string jval) : bool :=
  match info !! "path" with
  | Some (JStr p) => exists_in σ p
  | _ => false
  end.

(** The loop of [get_model_list] over [self.models.items()]. *)
Fixpoint collect_valid (σ : fs) (items : list (string * gmap string jval))
    (valid_models : gmap string (gmap string jval))
    : outcome (gmap string (gmap string jval)) :=
  match items with
  | [] => Ret valid_models
  | (model_id, info) :: items' =>
      match entry_path_exists σ info with
      | Ret true => collect_valid σ items' (<[model_id := info]> valid_models)
      | Ret false => collect_valid σ items' valid_models
      | Raise e => Raise e
      end
  end.

(** [get_model_list]: the result and the object after the call. *)
Definition get_model_list (self : ModelManager)
    : M (gmap string (gmap string jval) * ModelManager) :=
  fun σ =>
    match collect_valid σ (map_to_list (models self)) ∅ with
    | Raise e => (Raise e, σ)
    | Ret valid_models =>
        if bool_decide (size valid_models ≠ size (models self)) then
          let self' := mkModelManager (config_file self) valid_models in
          match save_models self' σ with
          | (Ret _, σ') => (Ret (valid_models, self'), σ')
          | (Raise e, σ') => (Raise e, σ')
          end
        else (Ret (valid_models, self), σ)
    end.

(** [update_model]: [dict.update] lets the new fields win. *)
Definition update_model (self : ModelManager) (model_id : string)
    (updates : gmap string jval) : M ModelManager :=
  match models self !! model_id with
  | Some info =>
      let self' := mkModelManager (config_file self)
                     (<[model_id := updates ∪ info]> (models self)) in
      save_models self' ;;; ret self'
  | None => ret self
  end.

(** [delete_model]: the path of the removed entry; an entry without a
    ['path'] raises [KeyError] before anything is removed. *)
Definition delete_model (self : ModelManager) (model_id : string)
    : M (option jval * ModelManager) :=
  match models self !! model_id with
  | Some info =>
      match info !! "path" with
      | None => raise (Exn KeyError "'path'")
      | Some model_path =>
          let self' := mkModelManager (config_file self) (delete model_id (models self)) in
          save_models self' ;;; ret (Some model_path, self')
      end
  | None => ret (None, self)
  end.

End Catalog.

(** ** Temporary replacement for evaluation: methods of [SnowNLPTrainerGUI]

    Calls into the widgets (text output, status line, log) have no effect on
    the files and are left out. *)

Module Sandbox.

Local Open Scope py_scope.

(** [s.replace(old, new)] for a non-empty [old]: the occurrences are taken
    from the left and do not overlap.  [skip] counts the characters of an
    occurrence that remain to be dropped. *)
Fixpoint replace_go (old new : string) (skip : nat) (s : string) : string :=
  match s with
  | "" => ""
  | String c s' =>
      match skip with
      | S k => replace_go old new k s'
      | O =>
          if String.prefix old s
          then new +:+ replace_go old new (String.length old - 1) s'
          else String c (replace_go old new 0 s')
      end
  end.

Definition str_replace (old new s : string) : string := replace_go old new 0 s.

Definition SLOT_NAMES : list string := ["sentiment.marshal"; "sentiment.marshal.3"].

Section WithPackage.

(** [os.path.dirname(snownlp.__file__)] *)
Variable snownlp_dir : string.

Definition sentiment_dir : string := os_path_join snownlp_dir "sentiment".

(** One round of the loop in [backup_current_model]. *)
Definition backup_one (fname : string) : M (option string) :=
  let fpath := os_path_join sentiment_dir fname in
  e <- os_path_exists fpath ;;
  if e then
    let backup_path := fpath +:+ ".temp_backup" in
    shutil_copy2 fpath backup_path ;;;
    ret (Some backup_path)
  else ret None.

(** [backup_current_model]: the list of backups made, [None] after an
    exception. *)
Definition backup_current_model : M (option (list string)) :=
  fun σ =>
    match for_acc backup_one SLOT_NAMES [] σ with
    | (backup_files, None, σ') => (Ret (Some backup_files), σ')
    | (_, Some _, σ') => (Ret None, σ')
    end.

Definition find_target (fname : string) : M (option string) :=
  let fpath := os_path_join sentiment_dir fname in
  e <- os_path_exists fpath ;;
  ret (if e then Some fpath else None).

Definition copy_over (model_file target_file : string) : M (option unit) :=
  shutil_copy2 model_file target_file ;;; ret None.

(** [temp_replace_model]: every exception is caught and gives [False]. *)
Definition temp_replace_model (model_file : string) : M bool :=
  fun σ =>
    if negb (exists_in σ model_file) then (Ret false, σ)
    else
      match for_acc find_target SLOT_NAMES [] σ with
      | (_, Some _, σ1) => (Ret false, σ1)
      | (target_files, None, σ1) =>
          if bool_decide (target_files = []) then (Ret false, σ1)
          else
            match for_acc (copy_over model_file) target_files [] σ1 with
            | (_, None, σ2) => (Ret true, σ2)
            | (_, Some _, σ2) => (Ret false, σ2)
            end
      end.





End WithPackage.

End Sandbox.

(** ** Ranking of compared models *)

Module Ranking.

Local Open Scope py_scope.

(** An element of [results] in [compare_models_worker]. *)
Record result : Type := mkResult {
  r_id : string;
  r_name : jval;
  accuracy : Q;
  correct : nat;
  total : nat;
  created_time : jval;
  train_files : jval
}.

(** [l.sort(key=..., reverse=True)].  The sort of Python is stable and
    remains so with [reverse=True]: elements with equal keys keep their
    order.  Insertion from the right, in front of the first element whose
    key is not greater, is such a sort. *)
Fixpoint insert_desc {A : Type} (key : A -> Q) (x : A) (l : list A) : list A :=
  match l with
  | [] => [x]
  | y :: l' =>
      if Qle_bool (key y) (key x) then x :: y :: l'
      else y :: insert_desc key x l'
  end.

Definition sort_desc {A : Type} (key : A -> Q) (l : list A) : list A :=
  foldr (insert_desc key) [] l.

(** [correct / total if total > 0 else 0] *)
Definition ratio (correct total : nat) : Q :=
  if bool_decide (0 < total)%nat
  then Qmake (Z.of_nat correct) (Pos.of_nat total)
  else 0%Q.

(** The loop over the samples: a sample whose scoring raises is skipped. *)
Fixpoint evaluate (score : string -> outcome Q) (samples : list (string * Z))
    (correct total_processed : nat) : nat * nat :=
  match samples with
  | [] => (correct, total_processed)
  | (text, true_label) :: samples' =>
      match score text with
      | Ret s =>
          let pred_label := if Qle_bool s (1 # 2) then 0%Z else 1%Z in
          evaluate score samples'
            (if bool_decide (pred_label = true_label) then S correct else correct)
            (S total_processed)
      | Raise _ => evaluate score samples' correct total_processed
      end
  end.

(** The last lines of [compare_models_worker]: the ranked list and the
    recommended model. *)
Definition rank (results : list result) : list result * option result :=
  let results := sort_desc accuracy results in
  (results, head results).

Section Worker.

Variable snownlp_dir : string.
(** [SnowNLP(text).sentiments] with the files as they are. *)
Variable score : fs -> string -> outcome Q.





End Worker.

(** [model_comparison_worker] keeps a dictionary from the base name of the
    file to the result, [None] for a model that could not be put in place;
    a name met again keeps its place and takes the new value. *)
Fixpoint dict_set {V : Type} (k : string) (v : V) (d : list (string * V)) : list (string * V) :=
  match d with
  | [] => [(k, v)]
  | (k', v') :: d' =>
      if bool_decide (k = k') then (k, v) :: d' else (k', v') :: dict_set k v d'
  end.

(** [[(name, data) for name, data in results.items() if data is not None]] *)
Definition valid_results {V : Type} (results : list (string * option V)) : list (string * V) :=
  omap (fun kv => match snd kv with Some v => Some (fst kv, v) | None => None end) results.

(** The summary of [model_comparison_worker]; [acc] reads [data['accuracy']]. *)
Definition rank_named {V : Type} (acc : V -> Q) (results : list (string * option V))
    : list (string * V) * option (string * V) :=
  let valid := sort_desc (fun x => acc (snd x)) (valid_results results) in
  (valid, head valid).

End Ranking.

(** ** Vocabulary of the statements *)

Module Slot.

(** What [os.path.join(d, fname)] puts in front of a relative [fname]. *)
Definition dir_prefix (d : string) : string :=
  if bool_decide (d = "") || ends_with_slash d then d else d +:+ "/".

(** The three paths of a slot, as [safe_replace_snownlp_model] names them. *)
Definition target_path (d fname : string) : string := os_path_join d fname.
Definition backup_path (d fname : string) : string := target_path d fname +:+ ".backup_gui".
Definition tmp_path (d fname : string) : string := target_path d fname +:+ ".tmp_new".

(** The session backup of [backup_current_model]. *)
Definition temp_backup_path (d fname : string) : string := target_path d fname +:+ ".temp_backup".

End Slot.

Module History.

(** What [restore_from_backup] leaves behind. *)
Definition rollback (d : string) (σ : fs) : fs :=
  (for_acc (restore_one d) BACKUP_NAMES [] σ).2.

(** The slot [f] has kept its first content: it has no backup and holds
    [n0], or its backup holds [n0]. *)
Definition original_kept (d f : string) (n0 : node) (σ : fs) : Prop :=
  (nodes σ !! Slot.backup_path d f = None ∧ nodes σ !! Slot.target_path d f = Some n0)
  ∨ nodes σ !! Slot.backup_path d f = Some n0.

(** Successive calls [safe_replace_snownlp_model(src, d, legacy)] on the same
    directory: the results, oldest first, and the final state. *)
Fixpoint deploys {rt : Runtime} (d : string) (calls : list (string * bool)) (σ : fs)
    : list ReplaceResult * fs :=
  match calls with
  | [] => ([], σ)
  | (src, legacy) :: calls' =>
      match safe_replace_snownlp_model src (Some d) legacy σ with
      | (Ret r, σ') => let '(rs, σ'') := deploys d calls' σ' in (r :: rs, σ'')
      | (Raise _, σ') => ([], σ')
      end
  end.

End History.

(** A small runtime and small states on which the statements are run. *)

Module Demo.

(** Artifacts: a first byte [M] stands for a model dictionary. *)
Definition model_x : bytes := [Byte.x4d; Byte.x58].
Definition model_y : bytes := [Byte.x4d; Byte.x59].
Definition original : bytes := [Byte.x4d; Byte.x30].
Definition garbage : bytes := [Byte.x3f].

Definition demo_loads (b : bytes) : marshal_error + pyval :=
  match b with
  | Byte.x4d :: _ => inr (PyDict [(PyStr "total", PyInt 2); (PyStr "d", PyDict [])])
  | Byte.x5b :: _ => inr (PyList [])
  | [] => inl MarshalEOF
  | _ => inl MarshalBadData
  end.

#[global] Instance demo_runtime : Runtime := {|
  py_major := 3;
  snownlp_package_dir := Some "/site/snownlp";
  gzip_decompress := fun _ => None;
  marshal_loads := demo_loads;
  json_dumps := fun _ => [Byte.x7b; Byte.x7d]
|}.

Definition dir : string := "/site/snownlp/sentiment".
Definition slot3 : string := "/site/snownlp/sentiment/sentiment.marshal.3".
Definition slot2 : string := "/site/snownlp/sentiment/sentiment.marshal".

Definition mk_fs (l : list (string * node)) (deny : list string) : fs :=
  Fs (list_to_map l) (list_to_set deny).

(** Both slots present, no backup. *)
Definition fresh_install : fs :=
  mk_fs [(dir, Dir); (slot3, Blob original); (slot2, Blob original);
         ("/work/x.marshal", Blob model_x); ("/work/y.marshal", Blob model_y);
         ("/work/junk", Blob garbage)] [].




(** No slot file at all. *)
Definition empty_install : fs :=
  mk_fs [(dir, Dir); ("/work/x.marshal", Blob model_x); ("/work/y.marshal", Blob model_y)] [].


(** The session backup of the live slot cannot be written. *)
Definition temp_backup_blocked : fs :=
  mk_fs [(dir, Dir); (slot3, Blob original); ("/work/x.marshal", Blob model_x)]
        [slot3 +:+ ".temp_backup"].

Definition entry_of (path name : string) : gmap string jval :=
  {[ "path" := JStr path; "name" := JStr name ]}.

(** A catalogue document written by another instance after this one was
    created. *)
Definition catalogue_on_disk : gmap string (gmap string jval) :=
  {[ "1700000000" := entry_of "/work/x.marshal" "model x" ]}.

Definition no_document : fs :=
  mk_fs [("/work/x.marshal", Blob model_x)] [].

Definition document_written : fs :=
  mk_fs [("/work/x.marshal", Blob model_x); ("model_history.json", Doc catalogue_on_disk)] [].

(** A catalogue with one entry whose file is gone. *)
Definition stale_manager : Catalog.ModelManager :=
  Catalog.mkModelManager "model_history.json"
    {[ "1" := entry_of "/work/x.marshal" "model x";
       "2" := entry_of "/work/gone.marshal" "model gone" ]}.


End Demo.

(** ** Entries added to the catalogue: [ModelManager.add_model] *)

Module Adding.

Import Catalog.
Local Open Scope py_scope.

(** What [add_model] reads from the clock: [str(int(time.time()))],
    [datetime.now().strftime('%m%d_%H%M')] and
    [datetime.now().isoformat()]. *)
Record Clock : Type := mkClock {
  epoch_seconds : string;
  month_day_time : string;
  isoformat : string
}.

(** [info.get(key, d)] *)
Definition info_get (info : gmap string jval) (key : string) (d : jval) : jval :=
  default d (info !! key).

Section WithRuntime.
Context {rt : Runtime}.

(** What [os.path.getsize] reports for a directory. *)
Variable dir_size : Z.

(** [os.path.getsize(p)]; a document has the size of its text. *)
Definition os_path_getsize (p : string) : M Z :=
  fun σ =>
    match nodes σ !! p with
    | None => (Raise (file_not_found p), σ)
    | Some (Blob b) => (Ret (Z.of_nat (length b)), σ)
    | Some (Doc d) => (Ret (Z.of_nat (length (json_dumps d))), σ)
    | Some Dir => (Ret dir_size, σ)
    end.

(** The entry that [add_model] builds. *)
Definition new_entry (now : Clock) (model_path : string) (info : gmap string jval)
    (file_size : Z) : gmap string jval :=
  list_to_map
    [("path", JStr model_path);
     ("name", info_get info "name" (JStr ("模型_" +:+ month_day_time now)));
     ("created_time", info_get info "created_time" (JStr (isoformat now)));
     ("train_files", info_get info "train_files" (JStrs []));
     ("test_files", info_get info "test_files" (JStrs []));
     ("train_samples", info_get info "train_samples" (JNum 0));
     ("test_accuracy", info_get info "test_accuracy" (JNum 0));
     ("neutral_strategy", info_get info "neutral_strategy" (JStr ""));
     ("notes", info_get info "notes" (JStr ""));
     ("file_size", JNum (inject_Z file_size))].

(** [add_model]: the id and the object after the call.  A list as id is
    not hashable.  A number as id is a key that the dictionary of Python
    takes but that a document never holds; the catalogue of the embedding
    has string keys, and such an id is outside the model and refused. *)
Definition add_model (now : Clock) (self : ModelManager) (model_path : string)
    (info : gmap string jval) : M (string * ModelManager) :=
  e <- os_path_exists model_path ;;
  file_size <- (if e then os_path_getsize model_path else ret 0%Z) ;;
  match info_get info "id" (JStr (epoch_seconds now)) with
  | JStr model_id =>
      let self' :=
        mkModelManager (config_file self)
          (<[model_id := new_entry now model_path info file_size]> (models self)) in
      save_models self' ;;;
      ret (model_id, self')
  | JStrs _ => raise (Exn TypeError "unhashable type: 'list'")
  | JNum _ => raise (Exn TypeError "model id is not a string")
  end.

End WithRuntime.

End Adding.

(** ** The manual replacement: [manual_replace_worker] *)

Module Manual.

Local Open Scope py_scope.

Definition possible_files : list string :=
  ["custom_sentiment.marshal.3"; "sentiment.marshal"; "sentiment.marshal.3";
   "custom_sentiment.model"].

(** What the worker tells the user at its end. *)
Inductive report : Type :=
| NoSourceFile
| NoTargetFile
| Replaced (success_count : nat)
| ReplaceFailed
| OperationFailed (e : exn).

Section WithPackage.
Context {rt : Runtime}.
Variable dir_size : Z.

(** [os.path.dirname(snownlp.__file__)] *)
Variable snownlp_dir : string.

(** Step 1: the first candidate that exists and has more than 50000
    bytes. *)
Fixpoint find_source (fnames : list string) : M (option string) :=
  match fnames with
  | [] => ret None
  | fname :: fnames' =>
      e <- os_path_exists fname ;;
      if e then
        file_size <- Adding.os_path_getsize dir_size fname ;;
        if bool_decide (50000 < file_size)%Z then ret (Some fname)
        else find_source fnames'
      else find_source fnames'
  end.

(** Step 4, one round: the backup is made when there is none. *)
Definition backup_manual_one (target_file : string) : M (option unit) :=
  let backup_file := target_file +:+ ".backup_manual" in
  b <- os_path_exists backup_file ;;
  if negb b then shutil_copy2 target_file backup_file ;;; ret None
  else ret None.

(** Step 5, one round: a failure is reported and the loop goes on. *)
Definition replace_manual_one (source_file target_file : string) : M (option unit) :=
  try_except
    (shutil_copy2 source_file target_file ;;;
     _ <- Adding.os_path_getsize dir_size target_file ;;
     ret (Some tt))
    (fun _ => ret None).

Definition manual_replace_worker : M report :=
  fun σ =>
    match find_source possible_files σ with
    | (Raise e, σ1) => (Ret (OperationFailed e), σ1)
    | (Ret None, σ1) => (Ret NoSourceFile, σ1)
    | (Ret (Some source_file), σ1) =>
        match for_acc (Sandbox.find_target snownlp_dir) Sandbox.SLOT_NAMES [] σ1 with
        | (_, Some e, σ2) => (Ret (OperationFailed e), σ2)
        | (target_files, None, σ2) =>
            if bool_decide (target_files = []) then (Ret NoTargetFile, σ2)
            else
              match for_acc backup_manual_one target_files [] σ2 with
              | (_, Some e, σ3) => (Ret (OperationFailed e), σ3)
              | (_, None, σ3) =>
                  match for_acc (replace_manual_one source_file) target_files [] σ3 with
                  | (replaced, _, σ4) =>
                      let success_count := length replaced in
                      (Ret (if bool_decide (0 < success_count)%nat
                            then Replaced success_count else ReplaceFailed), σ4)
                  end
              end
        end
    end.

End WithPackage.

End Manual.

(** ** The basic test: [run_basic_test] *)

Module BasicTest.

(** The three labels of the test cases: positive, negative, neutral. *)
Inductive label : Type := Positive | Negative | Neutral.

Definition label_eqb (a b : label) : bool :=
  match a, b with
  | Positive, Positive | Negative, Negative | Neutral, Neutral => true
  | _, _ => false
  end.

Definition test_cases : list (string * label) :=
  [
   ("这个产品质量非常好，强烈推荐大家购买！", Positive);
   ("服务态度超棒，物流也很快，非常满意", Positive);
   ("性价比很高，用了一段时间效果很不错", Positive);
   ("包装精美，质量上乘，值得信赖的品牌", Positive);
   ("体验很棒，功能强大，使用简单方便", Positive);
   ("质量太差了，完全不值这个价格", Negative);
   ("服务态度恶劣，客服回复很慢很敷衍", Negative);
   ("物流超级慢，包装也很粗糙", Negative);
   ("用了几天就坏了，太失望了", Negative);
   ("功能有很多问题，操作也不方便", Negative);
   ("还可以吧，凑合能用", Neutral);
   ("价格合理，质量一般般", Neutral);
   ("没什么特别的，普通产品", Neutral);
   ("收到了，暂时还没用", Neutral);
   ("和描述基本一致", Neutral);
   ("价格有点贵，但是质量确实不错", Positive);
   ("功能很好，就是界面有点丑", Positive);
   ("质量还行，但是客服态度不太好", Neutral);
   ("物流很快，但是包装有点简陋", Positive);
   ("总体满意，就是有点小瑕疵", Positive)
  ].

(** The doubles [0.6] and [0.4], as the rationals they are. *)
Definition above : Q := 5404319552844595 # 9007199254740992.
Definition below : Q := 3602879701896397 # 9007199254740992.

(** The label predicted from a score. *)
Definition predict (score : Q) : label :=
  if negb (Qle_bool score above) then Positive
  else if negb (Qle_bool below score) then Negative
  else Neutral.

(** The loop over the test cases; [score] is [SnowNLP(text).sentiments],
    and a case whose scoring raises is reported and skipped. *)
Fixpoint run_cases (score : string -> outcome Q) (cases : list (string * label))
    (correct total : nat) : nat * nat :=
  match cases with
  | [] => (correct, total)
  | (text, expected) :: cases' =>
      match score text with
      | Ret s =>
          let predicted := predict s in
          if negb (label_eqb expected Neutral) then
            run_cases score cases'
              (if label_eqb predicted expected then S correct else correct)
              (S total)
          else run_cases score cases' correct total
      | Raise _ => run_cases score cases' correct total
      end
  end.

(** [run_basic_test]: the accuracy returned. *)
Definition run_basic_test (score : string -> outcome Q) : Q :=
  let '(correct, total) := run_cases score test_cases 0 0 in
  Ranking.ratio correct total.

End BasicTest.

(** ** More vocabulary *)

Module Text.

(** [old] occurs in [s]. *)
Fixpoint occurs (old s : string) : bool :=
  String.prefix old s
  || match s with
     | "" => false
     | String _ s' => occurs old s'
     end.

End Text.

(** More states and objects on which the statements are run. *)

Module Scenes.

(** A file of 50001 bytes that unmarshals to a model dictionary. *)
Definition large_model : bytes := List.repeat Byte.x4d (Z.to_nat 50001).

(** A working directory after training: the first candidate is small, the
    last one is large; the slot of Python 3 is in place. *)
Definition after_training : fs :=
  Demo.mk_fs [(Demo.dir, Dir); (Demo.slot3, Blob Demo.original);
              ("custom_sentiment.marshal.3", Blob Demo.model_x);
              ("custom_sentiment.model", Blob large_model)] [].

(** The same with a manual backup from an earlier replacement. *)
Definition replaced_before : fs :=
  Demo.mk_fs [(Demo.dir, Dir); (Demo.slot3, Blob Demo.model_y);
              (Demo.slot3 +:+ ".backup_manual", Blob Demo.original);
              ("custom_sentiment.model", Blob large_model)] [].

Definition clock : Adding.Clock :=
  Adding.mkClock "1700000000" "1114_2213" "2023-11-14T22:13:20".

Definition a_second_later : Adding.Clock :=
  Adding.mkClock "1700000000" "1114_2213" "2023-11-14T22:13:20.800000".

(** A catalogue with an entry that has lost its ['path']. *)
Definition broken_manager : Catalog.ModelManager :=
  Catalog.mkModelManager "model_history.json"
    {[ "1" := Demo.entry_of "/work/x.marshal" "model x";
       "9" := {[ "name" := JStr "no path" ]} ]}.




Definition samples : list (string * Z) := [("good", 1%Z); ("bad", 0%Z); ("fine", 1%Z)].

End Scenes.

(** * Properties *)

(** ** Validation *)

Section Validation.
Context {rt : Runtime}.

Lemma read_bytes_state path σ : snd (read_bytes path σ) = σ.
Proof. unfold read_bytes. by repeat case_match. Qed.

Lemma load_marshal_state path σ : snd (_load_marshal_data path σ) = σ.
Proof.
  unfold _load_marshal_data, Os.bind, read_bytes, Os.raise, Os.ret.
  by repeat case_match; simplify_eq/=.
Qed.

(** Validation never raises and never writes. *)
Lemma validate_total path σ :
  ∃ r, validate_marshal_model_file path σ = (Ret r, σ).
Proof.
  unfold validate_marshal_model_file, try_except, Os.bind.
  pose proof (load_marshal_state path σ) as Hs.
  destruct (_load_marshal_data path σ) as [[v|e] σ']; simpl in Hs; subst σ'.
  - by exists None.
  - by exists (Some (exn_str e)).
Qed.

Lemma validate_state path σ : snd (validate_marshal_model_file path σ) = σ.
Proof. destruct (validate_total path σ) as [r ->]. done. Qed.

(** The verdict depends on the node at the path only. *)
Lemma validate_local path σ σ' :
  nodes σ !! path = nodes σ' !! path →
  fst (validate_marshal_model_file path σ) = fst (validate_marshal_model_file path σ').
Proof.
  intros Heq.
  unfold validate_marshal_model_file, try_except, Os.bind, _load_marshal_data,
    Os.bind, read_bytes, Os.raise, Os.ret.
  rewrite Heq.
  destruct (nodes σ' !! path) as [[b|d|]|]; simpl; try done;
    repeat case_match; simplify_eq/=; congruence.
Qed.

(** Every reason reported is a non-empty string, so [if err:] and
    [if err is not None:] agree on the results of validation. *)
Lemma validate_reason_nonempty path σ reason :
  fst (validate_marshal_model_file path σ) = Ret (Some reason) → reason ≠ "".
Proof.
  unfold validate_marshal_model_file, try_except, Os.bind, _load_marshal_data,
    Os.bind, read_bytes, Os.raise, Os.ret, marshal_exn, file_not_found, is_a_directory.
  intros H. repeat case_match; simplify_eq/=; done.
Qed.

Lemma validate_truthy path σ r :
  fst (validate_marshal_model_file path σ) = Ret r →
  truthy r = match r with Some _ => true | None => false end.
Proof.
  intros H. destruct r as [s|]; [|done].
  apply validate_reason_nonempty in H. unfold truthy.
  by rewrite bool_decide_eq_false_2.
Qed.


End Validation.

(** ** Paths *)

Section Paths.

Lemma string_app_assoc (a b c : string) : (a +:+ b) +:+ c = a +:+ (b +:+ c).
Proof.
  induction a as [|x a IH]; [done|].
  change (String x ((a +:+ b) +:+ c) = String x (a +:+ (b +:+ c))). by f_equal.
Qed.

Lemma string_app_nonempty (a : string) c b : a +:+ String c b ≠ "".
Proof. by destruct a. Qed.

Lemma ends_with_slash_app (a : string) c b :
  ends_with_slash (a +:+ String c b) = ends_with_slash (String c b).
Proof.
  induction a as [|x a IH]; [done|].
  change (String x a +:+ String c b) with (String x (a +:+ String c b)).
  destruct (a +:+ String c b) eqn:E.
  - by apply string_app_nonempty in E.
  - rewrite <- IH. done.
Qed.

Lemma basename_no_slash p : has_slash (os_path_basename p) = false.
Proof.
  induction p as [|c p IH]; [done|]. simpl.
  destruct (bool_decide (c = "/"%char) || has_slash p) eqn:E; [done|].
  simpl. done.
Qed.

Lemma starts_with_slash_has s : has_slash s = false → starts_with_slash s = false.
Proof. destruct s as [|c s]; simpl; [done|]. by intros [? ?]%orb_false_iff. Qed.

Lemma join_relative d f :
  starts_with_slash f = false → os_path_join d f = Slot.dir_prefix d +:+ f.
Proof.
  intros Hf. unfold os_path_join, Slot.dir_prefix. rewrite Hf.
  destruct (bool_decide (d = "") || ends_with_slash d); [done|].
  by rewrite string_app_assoc.
Qed.

(** Copying into a directory [a] whose name ends in a character other than
    a slash. *)
Lemma join_into_dir (a : string) c r src :
  ends_with_slash (String c r) = false →
  os_path_join (a +:+ String c r) (os_path_basename src)
  = a +:+ (String c r +:+ String "/" (os_path_basename src)).
Proof.
  intros He. unfold os_path_join.
  rewrite (starts_with_slash_has _ (basename_no_slash src)).
  rewrite ends_with_slash_app, He.
  rewrite (bool_decide_eq_false_2 _ (string_app_nonempty a c r)). simpl.
  by rewrite string_app_assoc.
Qed.

Lemma app_ne (pre a b : string) : a ≠ b → pre +:+ a ≠ pre +:+ b.
Proof. intros Hne Heq. by apply (inj (String.append pre)) in Heq. Qed.

End Paths.

(** ** The operations of the file system *)

Section Operations.

Lemma copy_dest_cases σ src dst :
  copy_dest σ src dst = dst
  ∨ (isdir_in σ dst = true ∧ copy_dest σ src dst = os_path_join dst (os_path_basename src)).
Proof. unfold copy_dest. destruct (isdir_in σ dst); auto. Qed.

Lemma copy_dest_file σ src dst : isdir_in σ dst = false → copy_dest σ src dst = dst.
Proof. unfold copy_dest. by intros ->. Qed.

(** A copy either raises and changes nothing, or writes the node of the
    source at the destination. *)
Lemma shutil_copy2_cases src dst σ :
  (∃ e, shutil_copy2 src dst σ = (Raise e, σ))
  ∨ (∃ n, nodes σ !! src = Some n ∧ n ≠ Dir
          ∧ src ≠ copy_dest σ src dst
          ∧ isdir_in σ (copy_dest σ src dst) = false
          ∧ (copy_dest σ src dst ∉ denied σ)
          ∧ shutil_copy2 src dst σ
            = (Ret tt, set_nodes (insert (copy_dest σ src dst) n) σ)).
Proof.
  unfold shutil_copy2.
  destruct (nodes σ !! src) as [n|] eqn:Hn; [|left; eauto].
  destruct (bool_decide (src = copy_dest σ src dst)) eqn:E1.
  { left. destruct n; eauto. }
  destruct (isdir_in σ (copy_dest σ src dst)) eqn:E2.
  { left. destruct n; eauto. }
  destruct (bool_decide (copy_dest σ src dst ∈ denied σ)) eqn:E3.
  { left. destruct n; eauto. }
  apply bool_decide_eq_false in E1, E3.
  destruct n; [right; eexists; by repeat split ..|left; eauto].
Qed.

Lemma os_remove_cases p σ :
  (∃ e, os_remove p σ = (Raise e, σ))
  ∨ (is_Some (nodes σ !! p) ∧ (p ∉ denied σ)
     ∧ os_remove p σ = (Ret tt, set_nodes (delete p) σ)).
Proof.
  unfold os_remove.
  destruct (nodes σ !! p) as [n|] eqn:Hn; [|left; eauto].
  destruct (bool_decide (p ∈ denied σ)) eqn:E.
  { left. destruct n; eauto. }
  apply bool_decide_eq_false in E.
  destruct n; eauto 10.
Qed.

Lemma os_replace_cases src dst σ :
  (∃ e, os_replace src dst σ = (Raise e, σ))
  ∨ (∃ n, nodes σ !! src = Some n ∧ n ≠ Dir
          ∧ isdir_in σ dst = false ∧ (src ∉ denied σ) ∧ (dst ∉ denied σ)
          ∧ os_replace src dst σ
            = (Ret tt, if bool_decide (src = dst) then σ
                       else set_nodes (fun m => <[dst := n]> (delete src m)) σ)).
Proof.
  unfold os_replace.
  destruct (nodes σ !! src) as [n|] eqn:Hn; [|left; eauto].
  destruct (isdir_in σ dst) eqn:E1; [left; destruct n; eauto|].
  destruct (bool_decide (src ∈ denied σ)) eqn:E2; [left; destruct n; eauto|].
  destruct (bool_decide (dst ∈ denied σ)) eqn:E3; [left; destruct n; eauto|].
  apply bool_decide_eq_false in E2, E3.
  destruct n; [right; eexists; repeat split; try done;
               by destruct (bool_decide (src = dst)) ..|left; eauto].
Qed.

Lemma exists_in_Some σ p n : nodes σ !! p = Some n → exists_in σ p = true.
Proof. intros H. unfold exists_in. apply bool_decide_eq_true. eauto. Qed.

Lemma exists_in_None σ p : nodes σ !! p = None → exists_in σ p = false.
Proof.
  intros H. unfold exists_in. apply bool_decide_eq_false. rewrite H.
  by intros [? ?].
Qed.

Lemma exists_in_true σ p : exists_in σ p = true → ∃ n, nodes σ !! p = Some n.
Proof. unfold exists_in. intros [n Hn]%bool_decide_eq_true. eauto. Qed.

Lemma exists_in_false σ p : exists_in σ p = false → nodes σ !! p = None.
Proof.
  unfold exists_in. intros H%bool_decide_eq_false.
  destruct (nodes σ !! p) eqn:E; [|done]. destruct H. eauto.
Qed.

Lemma isdir_in_None σ p : nodes σ !! p = None → isdir_in σ p = false.
Proof. unfold isdir_in. by intros ->. Qed.


(** Induction over the rounds of a loop. *)
Lemma for_acc_ind {A B} (P : list B → fs → Prop) (body : A → M (option B)) xs :
  (∀ x acc σ o σ', x ∈ xs → P acc σ → body x σ = (Ret o, σ') → P (acc ++ option_list o) σ') →
  (∀ x acc σ e σ', x ∈ xs → P acc σ → body x σ = (Raise e, σ') → P acc σ') →
  ∀ acc σ, P acc σ → P (for_acc body xs acc σ).1.1 (for_acc body xs acc σ).2.
Proof.
  intros Hret Hraise. induction xs as [|x xs IH]; intros acc σ HP; [done|].
  simpl. destruct (body x σ) as [[o|e] σ'] eqn:Hb.
  - apply IH.
    + intros; eapply Hret; eauto. by right.
    + intros; eapply Hraise; eauto. by right.
    + eapply Hret; eauto. by left.
  - simpl. eapply Hraise; eauto. by left.
Qed.

End Operations.

(** ** Ranking *)

Section RankingProps.
Import Ranking.
Context {A : Type} (key : A → Q).

Lemma insert_desc_perm x l : insert_desc key x l ≡ₚ x :: l.
Proof.
  induction l as [|y l IH]; simpl; [done|].
  destruct (Qle_bool (key y) (key x)); [done|].
  rewrite IH. apply Permutation_swap.
Qed.

Lemma sort_desc_perm l : sort_desc key l ≡ₚ l.
Proof.
  induction l as [|x l IH]; simpl; [done|].
  rewrite insert_desc_perm. by rewrite IH.
Qed.

Lemma insert_desc_sorted x l :
  StronglySorted (fun a b => (key b <= key a)%Q) l →
  StronglySorted (fun a b => (key b <= key a)%Q) (insert_desc key x l).
Proof.
  induction 1 as [|y l Hs IH Hall]; simpl.
  - repeat constructor.
  - destruct (Qle_bool (key y) (key x)) eqn:E.
    + apply Qle_bool_iff in E. constructor; [by constructor|].
      constructor; [done|].
      eapply Forall_impl; [exact Hall|]. simpl. intros z Hz. by apply (Qle_trans _ (key y)).
    + assert (key x <= key y)%Q as Hxy.
      { destruct (Qlt_le_dec (key x) (key y)) as [Hlt|Hle].
        - by apply Qlt_le_weak.
        - apply Qle_bool_iff in Hle. congruence. }
      constructor; [done|].
      rewrite insert_desc_perm. by constructor.
Qed.

Lemma sort_desc_sorted l :
  StronglySorted (fun a b => (key b <= key a)%Q) (sort_desc key l).
Proof.
  induction l as [|x l IH]; simpl; [constructor|]. by apply insert_desc_sorted.
Qed.

(** Insertion keeps the order among the elements of each key. *)
Lemma insert_desc_stable q x l :
  List.filter (fun a => Qeq_bool (key a) q) (insert_desc key x l)
  = List.filter (fun a => Qeq_bool (key a) q) (x :: l).
Proof.
  induction l as [|y l IH]; [done|].
  simpl insert_desc. destruct (Qle_bool (key y) (key x)) eqn:E; [done|].
  simpl in *. rewrite IH.
  destruct (Qeq_bool (key x) q) eqn:Ex, (Qeq_bool (key y) q) eqn:Ey; try done.
  apply Qeq_bool_iff in Ex, Ey.
  assert (Qle_bool (key y) (key x) = true); [|congruence].
  apply Qle_bool_iff. rewrite Ex, Ey. apply Qle_refl.
Qed.

Lemma sort_desc_stable q l :
  List.filter (fun a => Qeq_bool (key a) q) (sort_desc key l)
  = List.filter (fun a => Qeq_bool (key a) q) l.
Proof.
  induction l as [|x l IH]; [done|].
  simpl sort_desc. rewrite insert_desc_stable. simpl. by rewrite IH.
Qed.

(** The head of the sorted list has the greatest key. *)
Lemma sort_desc_head_max l b :
  head (sort_desc key l) = Some b → ∀ a, a ∈ l → (key a <= key b)%Q.
Proof.
  intros Hh a Ha. rewrite <- (sort_desc_perm l) in Ha.
  pose proof (sort_desc_sorted l) as Hs.
  destruct (sort_desc key l) as [|b' s]; simplify_eq/=.
  apply StronglySorted_inv in Hs as [_ Hall].
  apply elem_of_cons in Ha as [->|Ha]; [apply Qle_refl|].
  by eapply Forall_forall in Hall.
Qed.

Lemma sort_desc_three (a b c : A) :
  (key a == key b)%Q → (key c < key b)%Q → sort_desc key [a; b; c] = [a; b; c].
Proof.
  intros Hab Hcb.
  assert (Qle_bool (key c) (key b) = true) as H1.
  { apply Qle_bool_iff. by apply Qlt_le_weak. }
  assert (Qle_bool (key b) (key a) = true) as H2.
  { apply Qle_bool_iff. rewrite Hab. apply Qle_refl. }
  unfold sort_desc. simpl. rewrite H1. simpl. by rewrite H2.
Qed.

End RankingProps.

Section RankingClaim.
Import Ranking.

(** C5.  The summary of a comparison ranks the collected results by a stable
    sort in descending order of accuracy: the ranked list is a permutation
    of the results, accuracies never increase along it, results of equal
    accuracy keep the order in which they were collected, and the model
    reported as best is the first of the ranked list, which no result
    beats.  Three results with accuracies 0.8, 0.8 and 0.6, collected in
    this order, are ranked in this order, the first one recommended.  The
    same holds for the summary of [model_comparison_worker]. *)
Theorem rank_stable_descending :
  (∀ results : list result,
     (rank results).1 ≡ₚ results
     ∧ StronglySorted (fun a b => (accuracy b <= accuracy a)%Q) (rank results).1
     ∧ (∀ q, List.filter (fun r => Qeq_bool (accuracy r) q) (rank results).1
             = List.filter (fun r => Qeq_bool (accuracy r) q) results)
     ∧ (rank results).2 = head (rank results).1
     ∧ (∀ best, (rank results).2 = Some best →
          ∀ r, r ∈ results → (accuracy r <= accuracy best)%Q))
  ∧ (∀ a b c : result,
       (accuracy a == 8 # 10)%Q → (accuracy b == 8 # 10)%Q → (accuracy c == 6 # 10)%Q →
       rank [a; b; c] = ([a; b; c], Some a))
  ∧ (∀ (V : Type) (acc : V → Q) (results : list (string * option V)),
       (rank_named acc results).1 ≡ₚ valid_results results
       ∧ StronglySorted (fun a b => (acc b.2 <= acc a.2)%Q) (rank_named acc results).1
       ∧ (∀ q, List.filter (fun r => Qeq_bool (acc r.2) q) (rank_named acc results).1
               = List.filter (fun r => Qeq_bool (acc r.2) q) (valid_results results))
       ∧ (rank_named acc results).2 = head (rank_named acc results).1).
Proof.
  split; [|split].
  - intros results. unfold rank. simpl.
    split; [apply sort_desc_perm|].
    split; [apply sort_desc_sorted|].
    split; [intros q; apply sort_desc_stable|].
    split; [done|].
    intros best Hb. by apply sort_desc_head_max.
  - intros a b c Ha Hb Hc. unfold rank.
    rewrite sort_desc_three; [done|by rewrite Ha, Hb|by rewrite Hb, Hc].
  - intros V acc results. unfold rank_named. simpl.
    split; [apply sort_desc_perm|].
    split; [apply (sort_desc_sorted (fun x : string * V => acc x.2))|].
    split; [intros q; apply (sort_desc_stable (fun x : string * V => acc x.2))|done].
Qed.

(** The three models of the example, with 8 of 10, 4 of 5 and 6 of 10
    samples right. *)
Lemma rank_stable_descending_witness :
  let a := mkResult "A" (JStr "A") (ratio 8 10) 8 10 (JStr "") (JStrs []) in
  let b := mkResult "B" (JStr "B") (ratio 4 5) 4 5 (JStr "") (JStrs []) in
  let c := mkResult "C" (JStr "C") (ratio 6 10) 6 10 (JStr "") (JStrs []) in
  rank [a; b; c] = ([a; b; c], Some a).
Proof.
  intros a b c.
  apply (proj1 (proj2 rank_stable_descending) a b c); reflexivity.
Defined.

End RankingClaim.

(** ** The catalogue *)

Section CatalogProps.
Import Catalog.

Lemma save_models_cases self σ :
  ∃ σ', save_models self σ = (Ret tt, σ')
        ∧ denied σ' = denied σ
        ∧ (∀ p, p ≠ config_file self → nodes σ' !! p = nodes σ !! p)
        ∧ (isdir_in σ (config_file self) = false → config_file self ∉ denied σ →
           nodes σ' !! config_file self = Some (Doc (models self))).
Proof.
  unfold save_models, try_except, write_doc, Os.ret.
  destruct (isdir_in σ (config_file self)) eqn:Ed.
  { exists σ. by repeat split. }
  destruct (bool_decide (config_file self ∈ denied σ)) eqn:Ep.
  { exists σ. apply bool_decide_eq_true in Ep. by repeat split. }
  eexists. split; [done|]. simpl. split; [done|]. split.
  - intros p Hp. by rewrite lookup_insert_ne.
  - intros _ _. by rewrite lookup_insert_eq.
Qed.

Lemma collect_valid_lookup σ items acc :
  (∀ k e, (k, e) ∈ items → ∃ p, e !! "path" = Some (JStr p)) →
  NoDup items.*1 →
  ∃ v, collect_valid σ items acc = Ret v
       ∧ ∀ k, v !! k = match (list_to_map items : gmap string (gmap string jval)) !! k with
                       | Some e => if live σ e then Some e else acc !! k
                       | None => acc !! k
                       end.
Proof.
  revert acc. induction items as [|[k0 e0] items IH]; intros acc Hwf Hnd.
  { exists acc. split; [done|]. intros k. simpl. by rewrite lookup_empty. }
  rewrite fmap_cons in Hnd. apply NoDup_cons in Hnd as [Hk0 Hnd]. simpl in Hk0.
  assert ((list_to_map items : gmap string (gmap string jval)) !! k0 = None) as Hnone.
  { by apply not_elem_of_list_to_map_1. }
  destruct (Hwf k0 e0) as [p Hp]; [by left|].
  assert (∀ k e, (k, e) ∈ items → ∃ p, e !! "path" = Some (JStr p)) as Hwf'.
  { intros k e Hin. apply (Hwf k e). by right. }
  simpl. unfold entry_path_exists. rewrite Hp.
  destruct (exists_in σ p) eqn:Ex.
  - destruct (IH (<[k0:=e0]> acc) Hwf' Hnd) as (v & Hv & Hl).
    exists v. split; [done|]. intros k. rewrite Hl.
    destruct (decide (k = k0)) as [->|Hne].
    + rewrite Hnone, !lookup_insert_eq. unfold live. by rewrite Hp, Ex.
    + by rewrite !lookup_insert_ne.
  - destruct (IH acc Hwf' Hnd) as (v & Hv & Hl).
    exists v. split; [done|]. intros k. rewrite Hl.
    destruct (decide (k = k0)) as [->|Hne].
    + rewrite Hnone, lookup_insert_eq. unfold live. by rewrite Hp, Ex.
    + by rewrite lookup_insert_ne.
Qed.

Lemma collect_valid_filter σ (m : gmap string (gmap string jval)) :
  (∀ k e, m !! k = Some e → ∃ p, e !! "path" = Some (JStr p)) →
  collect_valid σ (map_to_list m) ∅ = Ret (filter (fun kv => live σ kv.2 = true) m).
Proof.
  intros Hwf.
  destruct (collect_valid_lookup σ (map_to_list m) ∅) as (v & Hv & Hl).
  - intros k e Hin. apply (Hwf k). by apply elem_of_map_to_list.
  - apply NoDup_fst_map_to_list.
  - rewrite Hv. f_equal. apply map_eq. intros k.
    rewrite Hl, list_to_map_to_list, lookup_empty.
    destruct (m !! k) as [e|] eqn:Hm.
    + destruct (live σ e) eqn:El.
      * symmetry. by apply map_lookup_filter_Some.
      * symmetry. apply map_lookup_filter_None. right.
        intros e' He'. simplify_eq/=. congruence.
    + symmetry. apply map_lookup_filter_None. by left.
Qed.

Lemma filter_size_same (P : string * gmap string jval → Prop) `{∀ x, Decision (P x)}
    (m : gmap string (gmap string jval)) :
  size (filter P m) = size m ↔ filter P m = m.
Proof.
  split; [|by intros ->].
  intros Hs. apply map_subseteq_size_eq; [apply map_filter_subseteq|lia].
Qed.

(** C10.  [update_model] with an id that the catalogue does not hold changes
    nothing: the object is the same, no file is written and nothing is
    raised. *)
Theorem update_model_unknown_id_noop self model_id updates σ :
  models self !! model_id = None →
  update_model self model_id updates σ = (Ret self, σ).
Proof. intros H. unfold update_model. by rewrite H. Qed.

(** C6, amended.  [get_model_list] filters the dictionary held by the object,
    which was read from the document when the object was created: for a
    dictionary whose entries have a string at ['path'], it returns exactly
    the entries whose path exists; the object holds the result afterwards.
    When nothing was filtered out nothing is written.  When an entry was
    filtered out the document is saved: if its path is not a directory and
    can be written it holds the filtered dictionary afterwards, and no other
    file changes. *)
Theorem get_model_list_filters_memory self σ :
  (∀ k e, models self !! k = Some e → ∃ p, e !! "path" = Some (JStr p)) →
  ∃ valid self' σ',
    get_model_list self σ = (Ret (valid, self'), σ')
    ∧ (∀ k e, valid !! k = Some e ↔
              models self !! k = Some e
              ∧ ∃ p, e !! "path" = Some (JStr p) ∧ is_Some (nodes σ !! p))
    ∧ config_file self' = config_file self
    ∧ models self' = valid
    ∧ denied σ' = denied σ
    ∧ (∀ p, p ≠ config_file self → nodes σ' !! p = nodes σ !! p)
    ∧ (valid = models self → σ' = σ)
    ∧ (valid ≠ models self →
       isdir_in σ (config_file self) = false → config_file self ∉ denied σ →
       nodes σ' !! config_file self = Some (Doc valid)).
Proof.
  intros Hwf. set (valid := filter (fun kv => live σ kv.2 = true) (models self)).
  assert (∀ k e, valid !! k = Some e ↔
            models self !! k = Some e
            ∧ ∃ p, e !! "path" = Some (JStr p) ∧ is_Some (nodes σ !! p)) as Hvalid.
  { intros k e. unfold valid. rewrite map_lookup_filter_Some. simpl.
    split.
    - intros [Hm Hl]. split; [done|]. unfold live in Hl.
      destruct (e !! "path") as [[p| |]|]; try done.
      exists p. split; [done|]. by apply bool_decide_eq_true in Hl.
    - intros [Hm (p & Hp & Hex)]. split; [done|]. unfold live. rewrite Hp.
      by apply bool_decide_eq_true. }
  unfold get_model_list. rewrite (collect_valid_filter σ _ Hwf). fold valid.
  destruct (bool_decide (size valid ≠ size (models self))) eqn:Es.
  - apply bool_decide_eq_true in Es.
    destruct (save_models_cases (mkModelManager (config_file self) valid) σ)
      as (σ' & Hsave & Hden & Hother & Hdoc).
    rewrite Hsave. exists valid, (mkModelManager (config_file self) valid), σ'.
    split_and!; try done. intros Heq. by rewrite Heq in Es.
  - apply bool_decide_eq_false in Es. apply dec_stable in Es.
    apply filter_size_same in Es.
    exists valid, self, σ. split_and!; try done.
Qed.

End CatalogProps.

Lemma update_model_unknown_id_noop_witness :
  Catalog.update_model Demo.stale_manager "3" {[ "name" := JStr "renamed" ]}
    Demo.document_written
  = (Ret Demo.stale_manager, Demo.document_written).
Proof. apply update_model_unknown_id_noop. vm_compute. reflexivity. Defined.

(** C6, as stated, fails: an object created before the document was written
    lists nothing, although the document holds an entry whose file
    exists. *)
Lemma get_model_list_ignores_document :
  Catalog.init "model_history.json" Demo.no_document
  = (Ret (Catalog.mkModelManager "model_history.json" ∅), Demo.no_document)
  ∧ Catalog.get_model_list (Catalog.mkModelManager "model_history.json" ∅)
      Demo.document_written
    = (Ret (∅, Catalog.mkModelManager "model_history.json" ∅), Demo.document_written)
  ∧ Catalog.load_models "model_history.json" Demo.document_written
    = (Ret Demo.catalogue_on_disk, Demo.document_written)
  ∧ Demo.catalogue_on_disk !! "1700000000" = Some (Demo.entry_of "/work/x.marshal" "model x")
  ∧ Catalog.entry_path_exists Demo.document_written
      (Demo.entry_of "/work/x.marshal" "model x")
    = Ret true.
Proof. split_and!; vm_compute; reflexivity. Qed.

(** One of two entries has lost its file: it is dropped from the list, the
    object and the document. *)
Lemma get_model_list_filters_memory_witness :
  ∃ valid self' σ',
    Catalog.get_model_list Demo.stale_manager Demo.document_written
    = (Ret (valid, self'), σ')
    ∧ valid !! "1" = Some (Demo.entry_of "/work/x.marshal" "model x")
    ∧ valid !! "2" = None
    ∧ Catalog.models self' = valid
    ∧ nodes σ' !! "model_history.json" = Some (Doc valid).
Proof.
  destruct (get_model_list_filters_memory Demo.stale_manager Demo.document_written)
    as (valid & self' & σ' & Hrun & Hvalid & _ & Hm & _ & _ & _ & Hdoc).
  { intros k e H. unfold Demo.stale_manager in H. simpl in H.
    apply lookup_insert_Some in H as [[<- <-]|[_ H]]; [by eexists|].
    apply lookup_singleton_Some in H as [<- <-]. by eexists. }
  assert (Catalog.models Demo.stale_manager !! "2"
          = Some (Demo.entry_of "/work/gone.marshal" "model gone")) as Hgone.
  { unfold Demo.stale_manager. simpl.
    rewrite lookup_insert_ne by done. by rewrite lookup_singleton_eq. }
  assert (valid !! "2" = None) as H2.
  { destruct (valid !! "2") as [e|] eqn:E; [|done].
    apply Hvalid in E as (He & p & Hp & Hex).
    rewrite Hgone in He. injection He as <-.
    unfold Demo.entry_of in Hp. rewrite lookup_insert_eq in Hp. injection Hp as <-.
    destruct Hex as [n Hn]. vm_compute in Hn. discriminate Hn. }
  exists valid, self', σ'. split_and!; try done.
  - apply Hvalid. split.
    + unfold Demo.stale_manager. simpl. by rewrite lookup_insert_eq.
    + exists "/work/x.marshal". split.
      * unfold Demo.entry_of. by rewrite lookup_insert_eq.
      * vm_compute. eauto.
  - apply Hdoc.
    + intros Heq. rewrite Heq, Hgone in H2. discriminate H2.
    + vm_compute. reflexivity.
    + unfold Demo.document_written, Demo.mk_fs. simpl. apply not_elem_of_empty.
Defined.

(** ** Slots *)

Section SlotPaths.

Lemma string_app_empty_r (a : string) : a +:+ "" = a.
Proof.
  induction a as [|x a IH]; [done|].
  change (String x (a +:+ "") = String x a). by f_equal.
Qed.

Lemma app_ne_self (a : string) c b : a +:+ String c b ≠ a.
Proof.
  intros H. rewrite <- (string_app_empty_r a) in H at 2.
  by apply (inj (String.append a)) in H.
Qed.

(** Into a directory [a]: the name of the copy. *)
Lemma join_into (a b : string) :
  a ≠ "" → ends_with_slash a = false → has_slash b = false →
  os_path_join a b = a +:+ String "/" b.
Proof.
  intros Ha He Hb. unfold os_path_join.
  rewrite (starts_with_slash_has _ Hb), He, (bool_decide_eq_false_2 _ Ha). done.
Qed.

(** Where a copy to [a +:+ String c r] can land. *)
Lemma copy_dest_suffix σ src (a : string) c r :
  ends_with_slash (String c r) = false →
  copy_dest σ src (a +:+ String c r) = a +:+ String c r
  ∨ copy_dest σ src (a +:+ String c r)
    = (a +:+ String c r) +:+ String "/" (os_path_basename src).
Proof.
  intros He. destruct (copy_dest_cases σ src (a +:+ String c r)) as [->|[_ ->]]; [by left|].
  right. apply join_into.
  - apply string_app_nonempty.
  - by rewrite ends_with_slash_app.
  - apply basename_no_slash.
Qed.

End SlotPaths.

(** Literal strings are appended by computation. *)
Ltac lit_app :=
  repeat match goal with
  | |- context [String ?c ?s +:+ ?t] =>
      let r := eval cbv beta iota delta [String.append] in (String c s +:+ t) in
      change (String c s +:+ t) with r
  | H : context [String ?c ?s +:+ ?t] |- _ =>
      let r := eval cbv beta iota delta [String.append] in (String c s +:+ t) in
      change (String c s +:+ t) with r in H
  end.

(** Two paths under the same directory differ when what follows the
    directory differs. *)
Ltac path_norm :=
  unfold Slot.backup_path, Slot.tmp_path, Slot.temp_backup_path, Slot.target_path in *;
  rewrite ?join_relative in * by done;
  rewrite ?string_app_assoc in *;
  lit_app.

Ltac path_ne :=
  path_norm;
  first [ apply app_ne_self
        | apply not_eq_sym; apply app_ne_self
        | apply app_ne; let H := fresh in intros H; discriminate H ].

Section SlotPathsTest.

Example path_ne_backup d : Slot.backup_path d "sentiment.marshal" ≠ Slot.target_path d "sentiment.marshal.3".
Proof. path_ne. Qed.

Example path_ne_into d x :
  Slot.tmp_path d "sentiment.marshal" +:+ String "/" x ≠ Slot.backup_path d "sentiment.marshal".
Proof. path_ne. Qed.

Example path_ne_self d x :
  Slot.target_path d "sentiment.marshal" +:+ String "/" x ≠ Slot.target_path d "sentiment.marshal".
Proof. path_ne. Qed.

End SlotPathsTest.

(** ** Replacement *)

Section Deploy.
Context {rt : Runtime}.

(** A verdict [None] belongs to the node, wherever it lies. *)
Lemma validate_ok_transfer p σ p' σ' :
  nodes σ !! p = nodes σ' !! p' →
  fst (validate_marshal_model_file p σ) = Ret None →
  fst (validate_marshal_model_file p' σ') = Ret None.
Proof.
  unfold validate_marshal_model_file, try_except, Os.bind, _load_marshal_data,
    Os.bind, read_bytes, Os.raise, Os.ret.
  intros <-.
  destruct (nodes σ !! p) as [[b|dd|]|]; simpl; try done;
    repeat case_match; simplify_eq/=; congruence.
Qed.

Lemma validate_ok_file p σ :
  fst (validate_marshal_model_file p σ) = Ret None →
  ∃ n, nodes σ !! p = Some n ∧ n ≠ Dir.
Proof.
  unfold validate_marshal_model_file, try_except, Os.bind, _load_marshal_data,
    Os.bind, read_bytes, Os.raise, Os.ret.
  destruct (nodes σ !! p) as [[b|dd|]|]; simpl; try done; eauto.
Qed.

(** The backup step: it raises and changes nothing, or it has nothing to do,
    or it writes the node of the target at the backup path. *)
Lemma make_backup_cases T B σ :
  (∃ e, make_backup T B σ = (Raise e, σ))
  ∨ (make_backup T B σ = (Ret tt, σ)
     ∧ (nodes σ !! T = None ∨ is_Some (nodes σ !! B)))
  ∨ (∃ nt, nodes σ !! B = None ∧ nodes σ !! T = Some nt ∧ nt ≠ Dir
           ∧ make_backup T B σ = (Ret tt, set_nodes (insert B nt) σ)).
Proof.
  unfold make_backup, Os.bind, os_path_exists, Os.ret.
  destruct (exists_in σ T) eqn:Et; simpl.
  - destruct (exists_in σ B) eqn:Eb; simpl.
    + right; left. split; [done|]. right. apply exists_in_true in Eb as [n ->]. eauto.
    + apply exists_in_false in Eb.
      destruct (shutil_copy2_cases T B σ) as [[e He]|(nt & Hn & Hd & _ & _ & _ & Hc)].
      * left. eauto.
      * right; right. exists nt. rewrite Hc.
        rewrite (copy_dest_file σ T B (isdir_in_None _ _ Eb)). done.
  - right; left. split; [done|]. left. by apply exists_in_false.
Qed.

(** Staging and commit.  A failure leaves everything but the staging path,
    and a file put into a directory found there, as it was.  A success
    means that the source is a file other than the staging path, that the
    target is neither a directory nor refused, and that the target holds the
    node of the source while the staging path is free. *)
Lemma stage_and_commit_cases src T σ :
  let P := T +:+ ".tmp_new" in
  (∃ e σ', stage_and_commit src P T σ = (Raise e, σ')
           ∧ denied σ' = denied σ
           ∧ nodes σ' !! src = nodes σ !! src
           ∧ ∀ p, p ≠ P → p ≠ P +:+ String "/" (os_path_basename src) →
                  nodes σ' !! p = nodes σ !! p)
  ∨ (∃ n, nodes σ !! src = Some n ∧ n ≠ Dir ∧ src ≠ P
          ∧ isdir_in σ T = false ∧ (T ∉ denied σ) ∧ (P ∉ denied σ)
          ∧ fst (validate_marshal_model_file src σ) = Ret None
          ∧ stage_and_commit src P T σ
            = (Ret tt, set_nodes (fun m => <[T := n]> (delete P m)) σ)).
Proof.
  intros P. unfold stage_and_commit, Os.bind.
  destruct (shutil_copy2_cases src P σ)
    as [[e He]|(n & Hn & Hd & Hne & Hdir & Hden & Hc)].
  { left. rewrite He. exists e, σ. by split_and!. }
  rewrite Hc. set (dP := copy_dest σ src P) in *.
  set (σ2 := set_nodes (insert dP n) σ).
  assert (dP = P ∨ dP = P +:+ String "/" (os_path_basename src)) as HdP.
  { unfold dP, P. change ".tmp_new" with (String "." "tmp_new").
    by apply copy_dest_suffix. }
  assert (∀ p, p ≠ P → p ≠ P +:+ String "/" (os_path_basename src) →
               nodes σ2 !! p = nodes σ !! p) as Hσ2.
  { intros p H1 H2. simpl. apply lookup_insert_ne.
    destruct HdP as [-> | ->]; congruence. }
  assert (nodes σ2 !! src = nodes σ !! src) as Hsrc2.
  { simpl. by rewrite lookup_insert_ne. }
  assert (src ≠ P) as HsrcP.
  { destruct (copy_dest_cases σ src P) as [HP|[HPdir _]]; [by rewrite <- HP|].
    intros ->. unfold isdir_in in HPdir. rewrite Hn in HPdir. by destruct n. }
  destruct (validate_total P σ2) as [verdict Hv]. rewrite Hv.
  rewrite (validate_truthy P σ2 verdict) by (by rewrite Hv).
  destruct verdict as [reason|].
  { left. unfold try_except, Os.ret, Os.raise.
    destruct (os_remove_cases P σ2) as [[e He]|(_ & _ & Hr)].
    - rewrite He. do 2 eexists. split; [done|]. by split_and!.
    - rewrite Hr. do 2 eexists. split; [done|]. split; [done|]. split.
      + simpl. rewrite lookup_delete_ne by done. by rewrite lookup_insert_ne.
      + intros p H1 H2. simpl. rewrite lookup_delete_ne by done.
        by apply Hσ2. }
  assert (fst (validate_marshal_model_file P σ2) = Ret None) as Hok by (by rewrite Hv).
  destruct (validate_ok_file P σ2 Hok) as (n' & Hn' & Hd').
  destruct (copy_dest_cases σ src P) as [HP|[HPdir HPeq]].
  - fold dP in HP.
    assert (n' = n) as ->.
    { simpl in Hn'. rewrite HP, lookup_insert_eq in Hn'. by simplify_eq. }
    destruct (os_replace_cases P T σ2) as [[e He]|(n'' & Hn'' & _ & HTdir & HPden & HTden & Hr)].
    + left. rewrite He. exists e, σ2. by split_and!.
    + assert (n'' = n) as -> by congruence.
      assert (P ≠ T) as HPT by apply app_ne_self.
      rewrite (bool_decide_eq_false_2 _ HPT) in Hr.
      right. exists n. split_and!; try done.
      * rewrite <- HTdir. unfold isdir_in, σ2. simpl.
        rewrite HP, lookup_insert_ne by done. done.
      * apply (validate_ok_transfer P σ2); [|done].
        simpl. by rewrite HP, lookup_insert_eq.
      * rewrite Hr. f_equal. unfold σ2, set_nodes. simpl. f_equal.
        rewrite HP. by rewrite delete_insert_eq.
  - (* the staging path is a directory: the staged file cannot be read *)
    exfalso. fold dP in HPeq.
    assert (dP ≠ P) as Hneq.
    { rewrite HPeq. rewrite join_into.
      - apply app_ne_self.
      - apply string_app_nonempty.
      - unfold P. change ".tmp_new" with (String "." "tmp_new").
        by rewrite ends_with_slash_app.
      - apply basename_no_slash. }
    simpl in Hn'. rewrite lookup_insert_ne in Hn' by done.
    unfold isdir_in in HPdir. rewrite Hn' in HPdir. by destruct n'.
Qed.

(** One round of the loop over the targets. *)
Lemma replace_one_cases src d f σ :
  let T := Slot.target_path d f in
  let B := Slot.backup_path d f in
  let P := Slot.tmp_path d f in
  (∃ e σ', replace_one src d f σ = (Raise e, σ')
           ∧ denied σ' = denied σ
           ∧ nodes σ' !! T = nodes σ !! T
           ∧ (nodes σ' !! B = nodes σ !! B
              ∨ (nodes σ !! B = None ∧ is_Some (nodes σ !! T)
                 ∧ nodes σ' !! B = nodes σ !! T))
           ∧ (is_Some (nodes σ !! src) → nodes σ' !! src = nodes σ !! src)
           ∧ ∀ p, p ≠ B → p ≠ P → p ≠ P +:+ String "/" (os_path_basename src) →
                  nodes σ' !! p = nodes σ !! p)
  ∨ (∃ n σ', replace_one src d f σ = (Ret (Some f), σ')
             ∧ denied σ' = denied σ
             ∧ n ≠ Dir
             ∧ (T ∉ denied σ)
             ∧ nodes σ' !! T = Some n
             ∧ nodes σ' !! P = None
             ∧ nodes σ' !! B = match nodes σ !! B with
                               | Some b => Some b
                               | None => nodes σ !! T
                               end
             ∧ (∀ p, p ≠ T → p ≠ B → p ≠ P → nodes σ' !! p = nodes σ !! p)
             ∧ fst (validate_marshal_model_file T σ') = Ret None
             ∧ (is_Some (nodes σ !! src) →
                nodes σ !! src = Some n ∧ nodes σ' !! src = Some n)
             ∧ (nodes σ !! B = None → nodes σ !! T ≠ Some Dir)).
Proof.
  intros T B P. unfold replace_one, Os.bind, Os.ret.
  fold (Slot.target_path d f). fold T.
  change (T +:+ ".backup_gui") with B. change (T +:+ ".tmp_new") with P.
  assert (B ≠ T) as HBT by apply app_ne_self.
  assert (P ≠ T) as HPT by apply app_ne_self.
  assert (B ≠ P) as HBP by (unfold B, P, Slot.backup_path, Slot.tmp_path; by apply app_ne).
  assert (B ≠ P +:+ String "/" (os_path_basename src)) as HBP'.
  { unfold B, P, Slot.backup_path, Slot.tmp_path. rewrite string_app_assoc.
    by apply app_ne. }
  assert (T ≠ P +:+ String "/" (os_path_basename src)) as HTP'.
  { unfold P, Slot.tmp_path. rewrite string_app_assoc.
    apply not_eq_sym, app_ne_self. }
  destruct (make_backup_cases T B σ)
    as [[e He]|[[Hb Hwhy]|(nt & HB & HT & Hnt & Hb)]]; rewrite ?He, ?Hb.
  - left. exists e, σ. split_and!; auto.
  - destruct (stage_and_commit_cases src T σ)
      as [(e & σ' & Hs & Hden & Hsrc & Hoth)
         |(n & Hn & Hd & Hne & Hdir & HTd & HPd & Hval & Hs)];
      change (T +:+ ".tmp_new") with P in *; simpl; rewrite Hs.
    + left. exists e, σ'. split_and!; auto.
    + right. exists n. eexists. split; [done|]. simpl. split_and!; auto.
      * by rewrite lookup_insert_eq.
      * rewrite lookup_insert_ne by done. by rewrite lookup_delete_eq.
      * rewrite lookup_insert_ne, lookup_delete_ne by done.
        destruct (nodes σ !! B) eqn:E; [done|].
        destruct Hwhy as [->|[? ?]]; done.
      * intros p H1 H2 H3. by rewrite lookup_insert_ne, lookup_delete_ne.
      * apply (validate_ok_transfer src σ); [|done].
        simpl. by rewrite lookup_insert_eq.
      * intros _. split; [done|].
        destruct (decide (src = T)) as [->|HsT]; [by rewrite lookup_insert_eq|].
        by rewrite lookup_insert_ne, lookup_delete_ne.
      * intros HB HT. destruct Hwhy as [?|[? ?]]; congruence.
  - set (σ1 := set_nodes (insert B nt) σ).
    destruct (stage_and_commit_cases src T σ1)
      as [(e & σ' & Hs & Hden & Hsrc & Hoth)
         |(n & Hn & Hd & Hne & Hdir & HTd & HPd & Hval & Hs)];
      change (T +:+ ".tmp_new") with P in *; simpl; rewrite Hs.
    + left. exists e, σ'. split_and!; auto.
      * rewrite Hoth by auto. simpl. by rewrite lookup_insert_ne.
      * right. split_and!; eauto. rewrite Hoth by auto.
        simpl. by rewrite lookup_insert_eq.
      * intros [x Hx]. rewrite Hsrc. simpl.
        rewrite lookup_insert_ne by (intros ->; congruence). done.
      * intros p H1 H2 H3. rewrite Hoth by auto. simpl. by rewrite lookup_insert_ne.
    + assert (is_Some (nodes σ !! src) → src ≠ B) as HsB.
      { intros [x Hx] ->. congruence. }
      right. exists n. eexists. split; [done|]. simpl. split_and!; auto.
      * by rewrite lookup_insert_eq.
      * rewrite lookup_insert_ne by done. by rewrite lookup_delete_eq.
      * rewrite lookup_insert_ne, lookup_delete_ne, lookup_insert_eq by done.
        by rewrite HB.
      * intros p H1 H2 H3.
        by rewrite lookup_insert_ne, lookup_delete_ne, lookup_insert_ne.
      * apply (validate_ok_transfer src σ1); [|done].
        simpl. by rewrite !lookup_insert_eq.
      * intros Hsome. specialize (HsB Hsome). simpl in Hn.
        rewrite lookup_insert_ne in Hn by done. split; [done|].
        destruct (decide (src = T)) as [->|HsT]; [by rewrite lookup_insert_eq|].
        by rewrite lookup_insert_ne, lookup_delete_ne, lookup_insert_ne.
      * intros _ HTd'. congruence.
Qed.

Lemma backup_names_inv f :
  f ∈ BACKUP_NAMES → f = "sentiment.marshal.3" ∨ f = "sentiment.marshal".
Proof.
  unfold BACKUP_NAMES. intros H.
  apply elem_of_cons in H as [->|H]; [by left|].
  apply list_elem_of_singleton in H as ->. by right.
Qed.

Lemma target_shape d f :
  f ∈ BACKUP_NAMES →
  ∃ c r, Slot.target_path d f = Slot.dir_prefix d +:+ String c r
         ∧ ends_with_slash (String c r) = false.
Proof.
  intros [-> | ->]%backup_names_inv; unfold Slot.target_path;
    rewrite join_relative by done; by do 2 eexists.
Qed.

(** One round of the loop of [restore_from_backup]. *)
Lemma restore_one_cases d f σ :
  f ∈ BACKUP_NAMES →
  let T := Slot.target_path d f in
  let B := Slot.backup_path d f in
  (nodes σ !! B = None ∧ restore_one d f σ = (Ret None, σ))
  ∨ (∃ e, is_Some (nodes σ !! B) ∧ restore_one d f σ = (Raise e, σ))
  ∨ (∃ n, nodes σ !! B = Some n ∧ n ≠ Dir
          ∧ isdir_in σ T = false ∧ (T ∉ denied σ)
          ∧ restore_one d f σ = (Ret (Some f), set_nodes (insert T n) σ))
  ∨ (∃ n, nodes σ !! B = Some n ∧ n ≠ Dir
          ∧ isdir_in σ T = true
          ∧ restore_one d f σ
            = (Ret (Some f),
               set_nodes (insert (T +:+ String "/" (os_path_basename B)) n) σ)).
Proof.
  intros Hf T B. unfold restore_one, Os.bind, os_path_exists, Os.ret.
  fold (Slot.target_path d f). fold T. change (T +:+ ".backup_gui") with B.
  destruct (exists_in σ B) eqn:Eb.
  - apply exists_in_true in Eb as [n Hn].
    destruct (shutil_copy2_cases B T σ) as [[e He]|(n' & Hn' & Hd & Hne & Hdir & Hden & Hc)].
    + right; left. exists e. rewrite He. eauto.
    + assert (n' = n) as -> by congruence. rewrite Hc.
      destruct (copy_dest_cases σ B T) as [HT|[HTdir HT]]; rewrite HT in *.
      * right; right; left. exists n. by split_and!.
      * right; right; right. exists n. split_and!; try done.
        assert (os_path_join T (os_path_basename B)
                = T +:+ String "/" (os_path_basename B)) as ->; [|done].
        destruct (target_shape d f Hf) as (c & r & HTs & He). fold T in HTs.
        rewrite HTs. apply join_into; [| |apply basename_no_slash].
        -- apply string_app_nonempty.
        -- by rewrite ends_with_slash_app.
  - left. split; [by apply exists_in_false|done].
Qed.


(** Paths of different slots, and the places where a copy into a directory
    would land, are different paths. *)
Lemma cross_slot d f g x :
  f ∈ BACKUP_NAMES → g ∈ BACKUP_NAMES → f ≠ g →
  Slot.target_path d f ≠ Slot.target_path d g
  ∧ Slot.target_path d f ≠ Slot.backup_path d g
  ∧ Slot.target_path d f ≠ Slot.tmp_path d g
  ∧ Slot.target_path d f ≠ Slot.tmp_path d g +:+ String "/" x
  ∧ Slot.target_path d f ≠ Slot.target_path d g +:+ String "/" x
  ∧ Slot.backup_path d f ≠ Slot.target_path d g
  ∧ Slot.backup_path d f ≠ Slot.backup_path d g
  ∧ Slot.backup_path d f ≠ Slot.tmp_path d g
  ∧ Slot.backup_path d f ≠ Slot.tmp_path d g +:+ String "/" x
  ∧ Slot.backup_path d f ≠ Slot.target_path d g +:+ String "/" x.
Proof.
  intros [-> | ->]%backup_names_inv [-> | ->]%backup_names_inv Hne; try done;
    split_and!; path_ne.
Qed.

Lemma same_slot d f x :
  f ∈ BACKUP_NAMES →
  Slot.target_path d f ≠ Slot.target_path d f +:+ String "/" x
  ∧ Slot.backup_path d f ≠ Slot.target_path d f +:+ String "/" x
  ∧ Slot.backup_path d f ≠ Slot.target_path d f.
Proof.
  intros [-> | ->]%backup_names_inv; split_and!; path_ne.
Qed.

(** A round for one slot leaves the other slot alone. *)
Lemma replace_one_other src d f g σ :
  f ∈ BACKUP_NAMES → g ∈ BACKUP_NAMES → f ≠ g →
  nodes (replace_one src d g σ).2 !! Slot.target_path d f = nodes σ !! Slot.target_path d f
  ∧ nodes (replace_one src d g σ).2 !! Slot.backup_path d f = nodes σ !! Slot.backup_path d f.
Proof.
  intros Hf Hg Hne.
  destruct (cross_slot d f g (os_path_basename src) Hf Hg Hne)
    as (H1 & H2 & H3 & H4 & H5 & H6 & H7 & H8 & H9 & H10).
  destruct (replace_one_cases src d g σ)
    as [(e & σ' & Hr & _ & _ & _ & Hoth)|(n & σ' & Hr & _ & _ & _ & _ & _ & _ & Hoth & _)];
    rewrite Hr; simpl; split; apply Hoth; done.
Qed.

Lemma restore_one_other d f g σ :
  f ∈ BACKUP_NAMES → g ∈ BACKUP_NAMES → f ≠ g →
  nodes (restore_one d g σ).2 !! Slot.target_path d f = nodes σ !! Slot.target_path d f
  ∧ nodes (restore_one d g σ).2 !! Slot.backup_path d f = nodes σ !! Slot.backup_path d f.
Proof.
  intros Hf Hg Hne.
  destruct (cross_slot d f g (os_path_basename (Slot.backup_path d g)) Hf Hg Hne)
    as (H1 & H2 & H3 & H4 & H5 & H6 & H7 & H8 & H9 & H10).
  destruct (restore_one_cases d g σ Hg)
    as [[_ Hr]|[(e & _ & Hr)|[(n & _ & _ & _ & _ & Hr)|(n & _ & _ & _ & Hr)]]];
    rewrite Hr; simpl; split; try done; by rewrite lookup_insert_ne.
Qed.

(** A round of the restore keeps the backup of its slot. *)
Lemma restore_one_backup d f σ :
  f ∈ BACKUP_NAMES →
  nodes (restore_one d f σ).2 !! Slot.backup_path d f = nodes σ !! Slot.backup_path d f.
Proof.
  intros Hf.
  destruct (same_slot d f (os_path_basename (Slot.backup_path d f)) Hf) as (H1 & H2 & H3).
  destruct (restore_one_cases d f σ Hf)
    as [[_ Hr]|[(e & _ & Hr)|[(n & _ & _ & _ & _ & Hr)|(n & _ & _ & _ & Hr)]]];
    rewrite Hr; simpl; try done; by rewrite lookup_insert_ne.
Qed.

Lemma targets_cases legacy :
  get_effective_model_filenames legacy = ["sentiment.marshal.3"]
  ∨ get_effective_model_filenames legacy = ["sentiment.marshal.3"; "sentiment.marshal"]
  ∨ get_effective_model_filenames legacy = ["sentiment.marshal"].
Proof.
  unfold get_effective_model_filenames.
  destruct (bool_decide (3 ≤ py_major)%Z), legacy; simpl; auto.
Qed.

Lemma targets_backup_names legacy f :
  f ∈ get_effective_model_filenames legacy → f ∈ BACKUP_NAMES.
Proof.
  unfold BACKUP_NAMES.
  destruct (targets_cases legacy) as [-> |[-> | ->]]; intros H;
    repeat (apply elem_of_cons in H as [->|H]; [repeat constructor|]);
    by apply elem_of_nil in H.
Qed.

Lemma restore_from_backup_state d σ :
  ∃ r, restore_from_backup d σ = (Ret r, History.rollback d σ).
Proof.
  unfold restore_from_backup, History.rollback.
  destruct (for_acc (restore_one d) BACKUP_NAMES [] σ) as [[replaced [e|]] σ'];
    simpl; [eauto|].
  destruct (bool_decide (replaced = [])); eauto.
Qed.

(** The call either stops at a check, with nothing written, or runs the
    loop over the targets, and the restore after an exception. *)
Lemma safe_replace_cases src d legacy σ :
  (∃ msg, safe_replace_snownlp_model src (Some d) legacy σ
          = (Ret (mkReplaceResult false (Some d) [] (Some msg)), σ)
          ∧ (msg = "snownlp sentiment dir not found"
             ∨ (nodes σ !! src = None ∧ msg = "source model file not found: " +:+ src)
             ∨ (∃ reason, validate_marshal_model_file src σ = (Ret (Some reason), σ)
                          ∧ msg = "invalid source model file: " +:+ reason)))
  ∨ (d ≠ "" ∧ isdir_in σ d = true ∧ is_Some (nodes σ !! src)
     ∧ validate_marshal_model_file src σ = (Ret None, σ)
     ∧ safe_replace_snownlp_model src (Some d) legacy σ
       = match for_acc (replace_one src d) (get_effective_model_filenames legacy) [] σ with
         | (replaced, None, σ') =>
             (Ret (mkReplaceResult (bool_decide (0 < length replaced))
                     (Some d) replaced None), σ')
         | (replaced, Some e, σ') =>
             (Ret (mkReplaceResult false (Some d) replaced (Some (exn_str e))),
              History.rollback d σ')
         end).
Proof.
  unfold safe_replace_snownlp_model, Os.bind, os_path_isdir, os_path_exists, Os.ret.
  destruct (decide (d = "")) as [->|Hd].
  { left. eexists. split; [|by left]. done. }
  rewrite (bool_decide_eq_false_2 _ Hd). simpl.
  destruct (isdir_in σ d) eqn:Edir; simpl; [|left; eexists; split; [done|by left]].
  destruct (exists_in σ src) eqn:Esrc; simpl.
  2:{ left. eexists. split; [done|]. right; left. split; [|done]. by apply exists_in_false. }
  destruct (validate_total src σ) as [verdict Hv]. rewrite Hv.
  rewrite (validate_truthy src σ verdict) by (by rewrite Hv).
  destruct verdict as [reason|].
  { left. eexists. split; [done|]. right; right. eauto. }
  right. split_and!; try done.
  { apply exists_in_true in Esrc as [n ->]. eauto. }
  destruct (for_acc (replace_one src d) (get_effective_model_filenames legacy) [] σ)
    as [[replaced [e|]] σ']; [|done].
  unfold try_except.
  destruct (restore_from_backup_state d σ') as [r ->]. done.
Qed.



End Deploy.



(** ** Restore *)

Section Restore.

Local Abbreviation T := Slot.target_path.
Local Abbreviation B := Slot.backup_path.

(** What one round of the restore does to its own slot. *)
Lemma restore_one_step d f σ r σ' :
  f ∈ BACKUP_NAMES →
  restore_one d f σ = (r, σ') →
  denied σ' = denied σ
  ∧ nodes σ' !! B d f = nodes σ !! B d f
  ∧ match r with
    | Ret None => nodes σ !! B d f = None ∧ σ' = σ
    | Ret (Some g) =>
        g = f ∧ ∃ n, nodes σ !! B d f = Some n
                     ∧ (isdir_in σ (T d f) = false → nodes σ' !! T d f = Some n)
    | Raise _ => is_Some (nodes σ !! B d f) ∧ σ' = σ
    end.
Proof.
  intros Hf Hr.
  pose proof (restore_one_backup d f σ Hf) as Hb. rewrite Hr in Hb. simpl in Hb.
  destruct (restore_one_cases d f σ Hf)
    as [[Hn Hr']|[(e & Hn & Hr')|[(n & Hn & _ & Hdir & _ & Hr')|(n & Hn & _ & Hdir & Hr')]]];
    rewrite Hr' in Hr; simplify_eq; simpl in *; split_and!; try done.
  - exists n. split; [done|]. intros _. by rewrite lookup_insert_eq.
  - exists n. split; [done|]. congruence.
Qed.

Lemma restore_one_step_other d f g σ r σ' :
  f ∈ BACKUP_NAMES → g ∈ BACKUP_NAMES → f ≠ g →
  restore_one d g σ = (r, σ') →
  nodes σ' !! T d f = nodes σ !! T d f
  ∧ nodes σ' !! B d f = nodes σ !! B d f.
Proof.
  intros Hf Hg Hne Hr.
  pose proof (restore_one_other d f g σ Hf Hg Hne) as H. by rewrite Hr in H.
Qed.

Lemma isdir_in_agree σ σ' p :
  nodes σ' !! p = nodes σ !! p → isdir_in σ' p = isdir_in σ p.
Proof. unfold isdir_in. by intros ->. Qed.


Lemma restore_unroll d σ :
  for_acc (restore_one d) BACKUP_NAMES [] σ
  = match restore_one d "sentiment.marshal.3" σ with
    | (Ret o1, σ1) =>
        match restore_one d "sentiment.marshal" σ1 with
        | (Ret o2, σ2) => (option_list o1 ++ option_list o2, None, σ2)
        | (Raise e, σ2) => (option_list o1, Some e, σ2)
        end
    | (Raise e, σ1) => ([], Some e, σ1)
    end.
Proof.
  unfold BACKUP_NAMES. simpl.
  destruct (restore_one d "sentiment.marshal.3" σ) as [[o1|e1] σ1]; [|done].
  by destruct (restore_one d "sentiment.marshal" σ1) as [[o2|e2] σ2].
Qed.

Lemma m3_name : "sentiment.marshal.3" ∈ BACKUP_NAMES.
Proof. unfold BACKUP_NAMES. by left. Qed.

Lemma m2_name : "sentiment.marshal" ∈ BACKUP_NAMES.
Proof. unfold BACKUP_NAMES. right. by left. Qed.

(** The restore never writes a backup and never changes what is refused. *)
Lemma rollback_keeps d f σ :
  f ∈ BACKUP_NAMES →
  denied (History.rollback d σ) = denied σ
  ∧ nodes (History.rollback d σ) !! B d f = nodes σ !! B d f
  ∧ (nodes σ !! B d f = None →
     nodes (History.rollback d σ) !! T d f = nodes σ !! T d f).
Proof.
  intros Hf. unfold History.rollback. rewrite restore_unroll.
  destruct (restore_one d "sentiment.marshal.3" σ) as [r1 σ1] eqn:E1.
  destruct (restore_one_step d _ σ r1 σ1 m3_name E1) as (Hd1 & Hb1 & Hm1).
  destruct r1 as [o1|e1]; simpl.
  2:{ destruct Hm1 as [_ ->]. done. }
  destruct (restore_one d "sentiment.marshal" σ1) as [r2 σ2] eqn:E2.
  destruct (restore_one_step d _ σ1 r2 σ2 m2_name E2) as (Hd2 & Hb2 & Hm2).
  assert (denied σ2 = denied σ) as Hden by congruence.
  assert ((r2, σ2).2 = σ2) as Hproj by done.
  assert (nodes σ2 !! B d f = nodes σ !! B d f
          ∧ (nodes σ !! B d f = None → nodes σ2 !! T d f = nodes σ !! T d f)) as [HB HT].
  { apply backup_names_inv in Hf as [-> | ->].
    - destruct (restore_one_step_other d "sentiment.marshal.3" "sentiment.marshal"
                  σ1 r2 σ2 m3_name m2_name) as [Ht2 Hb2']; [done|done|].
      split; [congruence|]. intros Hnone. rewrite Ht2.
      destruct o1 as [g|]; [|by destruct Hm1 as [_ ->]].
      destruct Hm1 as (_ & n & Hn & _). congruence.
    - destruct (restore_one_step_other d "sentiment.marshal" "sentiment.marshal.3"
                  σ (Ret o1) σ1 m2_name m3_name) as [Ht1 Hb1']; [done|exact E1|].
      split; [congruence|]. intros Hnone. rewrite <- Ht1.
      rewrite Hb1' in *.
      destruct r2 as [[g|]|e2].
      + destruct Hm2 as (_ & n & Hn & _). congruence.
      + by destruct Hm2 as [_ ->].
      + by destruct Hm2 as [_ ->]. }
  destruct r2; simpl; by split_and!.
Qed.



End Restore.

(** ** Rollback after a failed round *)

Section Rollback.
Context {rt : Runtime}.

Local Abbreviation T := Slot.target_path.
Local Abbreviation B := Slot.backup_path.

Lemma for_acc_one {A C} (body : A → M (option C)) a σ :
  for_acc body [a] [] σ
  = match body a σ with
    | (Ret o, σ1) => (option_list o, None, σ1)
    | (Raise e, σ1) => ([], Some e, σ1)
    end.
Proof. simpl. by destruct (body a σ) as [[o|e] σ1]. Qed.

Lemma for_acc_two {A C} (body : A → M (option C)) a b σ :
  for_acc body [a; b] [] σ
  = match body a σ with
    | (Ret o1, σ1) =>
        match body b σ1 with
        | (Ret o2, σ2) => (option_list o1 ++ option_list o2, None, σ2)
        | (Raise e, σ2) => (option_list o1, Some e, σ2)
        end
    | (Raise e, σ1) => ([], Some e, σ1)
    end.
Proof.
  simpl. destruct (body a σ) as [[o1|e1] σ1]; [|done].
  by destruct (body b σ1) as [[o2|e2] σ2].
Qed.

(** The call runs the loop when the directory, the source and its validation
    are in order. *)
Lemma safe_replace_run src d legacy σ :
  d ≠ "" → isdir_in σ d = true → is_Some (nodes σ !! src) →
  validate_marshal_model_file src σ = (Ret None, σ) →
  safe_replace_snownlp_model src (Some d) legacy σ
  = match for_acc (replace_one src d) (get_effective_model_filenames legacy) [] σ with
    | (replaced, None, σ') =>
        (Ret (mkReplaceResult (bool_decide (0 < length replaced))
                (Some d) replaced None), σ')
    | (replaced, Some e, σ') =>
        (Ret (mkReplaceResult false (Some d) replaced (Some (exn_str e))),
         History.rollback d σ')
    end.
Proof.
  intros Hd Hdir [n Hn] Hv.
  unfold safe_replace_snownlp_model, Os.bind, os_path_isdir, os_path_exists, Os.ret.
  rewrite (bool_decide_eq_false_2 _ Hd), Hdir. simpl.
  rewrite (exists_in_Some _ _ _ Hn). simpl. rewrite Hv. simpl.
  destruct (for_acc _ _ _ _) as [[replaced [e|]] σ']; [|done].
  unfold try_except. by destruct (restore_from_backup_state d σ') as [r ->].
Qed.



End Rollback.



(** ** The permanent backup *)

Section PermanentBackup.
Context {rt : Runtime}.

Local Abbreviation T := Slot.target_path.
Local Abbreviation B := Slot.backup_path.

Lemma replace_one_result src d g σ o σ' :
  replace_one src d g σ = (Ret o, σ') → o = Some g.
Proof.
  intros H.
  destruct (replace_one_cases src d g σ) as [(e & σ1 & Hr & _)|(n & σ1 & Hr & _)];
    rewrite Hr in H; by simplify_eq.
Qed.

(** A round keeps an existing backup of any slot. *)
Lemma replace_one_keeps_backup src d f g σ b :
  f ∈ BACKUP_NAMES → g ∈ BACKUP_NAMES →
  nodes σ !! B d f = Some b →
  nodes (replace_one src d g σ).2 !! B d f = Some b.
Proof.
  intros Hf Hg Hb. destruct (decide (f = g)) as [<-|Hne].
  - destruct (replace_one_cases src d f σ)
      as [(e & σ1 & Hr & _ & _ & HB & _)|(n & σ1 & Hr & _ & _ & _ & _ & _ & HB & _)];
      rewrite Hr; simpl.
    + destruct HB as [->|[Hnone _]]; congruence.
    + by rewrite HB, Hb.
  - destruct (replace_one_other src d f g σ Hf Hg Hne) as [_ ->]. done.
Qed.

(** A round keeps the first content of any slot, and a slot it commits has
    its backup. *)
Lemma replace_one_keeps_original src d f g n0 σ r σ' :
  f ∈ BACKUP_NAMES → g ∈ BACKUP_NAMES →
  History.original_kept d f n0 σ →
  replace_one src d g σ = (r, σ') →
  History.original_kept d f n0 σ'
  ∧ (∀ o, r = Ret o → f ∈ option_list o → nodes σ' !! B d f = Some n0).
Proof.
  intros Hf Hg Hkept Hrun. destruct (decide (f = g)) as [<-|Hne].
  - destruct (replace_one_cases src d f σ)
      as [(e & σ1 & Hr & _ & HT & HB & _)|(n & σ1 & Hr & _ & _ & _ & _ & _ & HB & _)];
      rewrite Hr in Hrun; simplify_eq.
    + split; [|done].
      destruct Hkept as [[Hnone Hn0]|Hb].
      * destruct HB as [HB|(_ & _ & HB)].
        -- left. split; congruence.
        -- right. congruence.
      * right. destruct HB as [HB|(Hnone & _)]; congruence.
    + assert (nodes σ' !! B d f = Some n0) as Hb'.
      { rewrite HB. destruct Hkept as [[-> Hn0]| ->]; done. }
      split; [by right|done].
  - destruct (replace_one_other src d f g σ Hf Hg Hne) as [HT HB].
    rewrite Hrun in HT, HB. simpl in HT, HB.
    split.
    + unfold History.original_kept. by rewrite HT, HB.
    + intros o -> Hin. apply replace_one_result in Hrun as ->.
      simpl in Hin. apply list_elem_of_singleton in Hin. done.
Qed.

(** A call keeps the first content of any slot, and a slot it lists as
    replaced has its backup. *)
Lemma deploy_keeps_original src d legacy f n0 σ r σ' :
  f ∈ BACKUP_NAMES →
  History.original_kept d f n0 σ →
  safe_replace_snownlp_model src (Some d) legacy σ = (Ret r, σ') →
  History.original_kept d f n0 σ'
  ∧ (f ∈ replaced_files r → nodes σ' !! B d f = Some n0).
Proof.
  intros Hf Hkept Hrun.
  destruct (safe_replace_cases src d legacy σ)
    as [(msg & Hr & _)|(_ & _ & _ & _ & Hr)]; rewrite Hr in Hrun.
  { simplify_eq. simpl. split; [done|]. by intros ?%elem_of_nil. }
  pose proof (for_acc_ind
    (fun acc σ => History.original_kept d f n0 σ ∧ (f ∈ acc → nodes σ !! B d f = Some n0))
    (replace_one src d) (get_effective_model_filenames legacy)) as Hind.
  simpl in Hind.
  destruct (Hind) with (acc := @nil string) (σ := σ) as [Hk Hacc].
  - intros g acc σa o σb Hg [Hka Hin] Hstep.
    apply targets_backup_names in Hg.
    destruct (replace_one_keeps_original src d f g n0 σa (Ret o) σb Hf Hg Hka Hstep)
      as [Hkb Hnew].
    split; [done|]. intros [Hold|Hnow]%elem_of_app.
    + pose proof (replace_one_keeps_backup src d f g σa n0 Hf Hg (Hin Hold)) as H.
      by rewrite Hstep in H.
    + by apply (Hnew o).
  - intros g acc σa e σb Hg [Hka Hin] Hstep.
    apply targets_backup_names in Hg.
    destruct (replace_one_keeps_original src d f g n0 σa (Raise e) σb Hf Hg Hka Hstep)
      as [Hkb _].
    split; [done|]. intros Hold.
    pose proof (replace_one_keeps_backup src d f g σa n0 Hf Hg (Hin Hold)) as H.
    by rewrite Hstep in H.
  - split; [done|]. by intros ?%elem_of_nil.
  - destruct (for_acc (replace_one src d) (get_effective_model_filenames legacy) [] σ)
      as [[replaced [e|]] σ1]; simpl in *; simplify_eq; simpl; [|done].
    destruct (rollback_keeps d f σ1 Hf) as (_ & HB & HT).
    split.
    + destruct Hk as [[Hnone Hn0]|Hb]; [left|right].
      * split; [congruence|]. rewrite HT; done.
      * congruence.
    + intros Hin. rewrite HB. auto.
Qed.

Lemma targets_nodup legacy : NoDup (get_effective_model_filenames legacy).
Proof.
  destruct (targets_cases legacy) as [-> |[-> | ->]]; try apply NoDup_singleton.
  apply NoDup_cons. split; [|apply NoDup_singleton].
  intros H%list_elem_of_singleton. discriminate H.
Qed.

(** The loop makes no backup for a slot that does not exist. *)
Lemma loop_makes_no_backup src d f targets :
  f ∈ BACKUP_NAMES → NoDup targets → (∀ g, g ∈ targets → g ∈ BACKUP_NAMES) →
  ∀ acc σ, (f ∈ targets → nodes σ !! T d f = None) →
    nodes (for_acc (replace_one src d) targets acc σ).2 !! B d f = nodes σ !! B d f.
Proof.
  intros Hf Hnd Hsub. induction targets as [|g targets IH]; intros acc σ Habsent; [done|].
  apply NoDup_cons in Hnd as [Hg Hnd].
  simpl. destruct (replace_one src d g σ) as [[o|e] σ1] eqn:Hstep.
  - rewrite IH; [| done | intros; apply Hsub; by right |].
    + destruct (decide (f = g)) as [<-|Hne].
      * destruct (replace_one_cases src d f σ)
          as [(e & σ2 & Hr & _)|(n & σ2 & Hr & _ & _ & _ & _ & _ & HB & _)];
          rewrite Hr in Hstep; simplify_eq.
        rewrite HB, Habsent by (by left). by destruct (nodes σ !! B d f).
      * destruct (replace_one_other src d f g σ Hf) as [_ HB];
          [apply Hsub; by left|done|]. by rewrite Hstep in HB.
    + intros Hin. destruct (decide (f = g)) as [<-|Hne]; [done|].
      destruct (replace_one_other src d f g σ Hf) as [HT _];
        [apply Hsub; by left|done|]. rewrite Hstep in HT. simpl in HT.
      rewrite HT. apply Habsent. by right.
  - simpl. destruct (decide (f = g)) as [<-|Hne].
    + destruct (replace_one_cases src d f σ)
        as [(e' & σ2 & Hr & _ & _ & HB & _)|(n & σ2 & Hr & _)];
        rewrite Hr in Hstep; simplify_eq.
      destruct HB as [HB|(_ & [x Hx] & _)]; [done|].
      rewrite Habsent in Hx by (by left). done.
    + destruct (replace_one_other src d f g σ Hf) as [_ HB];
        [apply Hsub; by left|done|]. by rewrite Hstep in HB.
Qed.

(** A call makes no backup for a slot that does not exist before it. *)
Lemma deploy_makes_no_backup src d legacy f σ r σ' :
  f ∈ BACKUP_NAMES → nodes σ !! T d f = None →
  safe_replace_snownlp_model src (Some d) legacy σ = (Ret r, σ') →
  nodes σ' !! B d f = nodes σ !! B d f.
Proof.
  intros Hf Habsent Hrun.
  destruct (safe_replace_cases src d legacy σ)
    as [(msg & Hr & _)|(_ & _ & _ & _ & Hr)]; rewrite Hr in Hrun.
  { by simplify_eq. }
  pose proof (loop_makes_no_backup src d f (get_effective_model_filenames legacy) Hf
                (targets_nodup legacy) (targets_backup_names legacy) [] σ
                (fun _ => Habsent)) as Hloop.
  destruct (for_acc (replace_one src d) (get_effective_model_filenames legacy) [] σ)
    as [[replaced [e|]] σ1]; simpl in *; simplify_eq; [|done].
  destruct (rollback_keeps d f σ1 Hf) as (_ & HB & _). congruence.
Qed.

(** The call never raises. *)
Lemma safe_replace_returns src d legacy σ :
  ∃ r σ', safe_replace_snownlp_model src (Some d) legacy σ = (Ret r, σ').
Proof.
  destruct (safe_replace_cases src d legacy σ)
    as [(msg & Hr & _)|(_ & _ & _ & _ & Hr)]; rewrite Hr; [eauto|].
  destruct (for_acc (replace_one src d) (get_effective_model_filenames legacy) [] σ)
    as [[replaced [e|]] σ1]; eauto.
Qed.

(** A call keeps an existing backup. *)
Lemma deploy_keeps_backup src d legacy f b σ r σ' :
  f ∈ BACKUP_NAMES →
  nodes σ !! B d f = Some b →
  safe_replace_snownlp_model src (Some d) legacy σ = (Ret r, σ') →
  nodes σ' !! B d f = Some b.
Proof.
  intros Hf Hb Hrun.
  destruct (safe_replace_cases src d legacy σ)
    as [(msg & Hr & _)|(_ & _ & _ & _ & Hr)]; rewrite Hr in Hrun.
  { by simplify_eq. }
  pose proof (for_acc_ind (fun (_ : list string) σ => nodes σ !! B d f = Some b)
    (replace_one src d) (get_effective_model_filenames legacy)) as Hind.
  simpl in Hind.
  assert (nodes (for_acc (replace_one src d) (get_effective_model_filenames legacy) [] σ).2
            !! B d f = Some b) as Hloop.
  { apply Hind; [| |done].
    - intros g acc σa o σb Hg Ha Hstep. apply targets_backup_names in Hg.
      pose proof (replace_one_keeps_backup src d f g σa b Hf Hg Ha) as H.
      by rewrite Hstep in H.
    - intros g acc σa e σb Hg Ha Hstep. apply targets_backup_names in Hg.
      pose proof (replace_one_keeps_backup src d f g σa b Hf Hg Ha) as H.
      by rewrite Hstep in H. }
  destruct (for_acc (replace_one src d) (get_effective_model_filenames legacy) [] σ)
    as [[replaced [e|]] σ1]; simpl in *; simplify_eq; [|done].
  destruct (rollback_keeps d f σ1 Hf) as (_ & HB & _). congruence.
Qed.

Lemma deploys_keep_backup d f calls σ b :
  f ∈ BACKUP_NAMES →
  nodes σ !! B d f = Some b →
  nodes (History.deploys d calls σ).2 !! B d f = Some b.
Proof.
  intros Hf. revert σ. induction calls as [|[src legacy] calls IH]; intros σ Hb; [done|].
  simpl. destruct (safe_replace_returns src d legacy σ) as (r & σ1 & Hrun). rewrite Hrun.
  pose proof (deploy_keeps_backup src d legacy f b σ r σ1 Hf Hb Hrun) as Hb1.
  specialize (IH σ1 Hb1). by destruct (History.deploys d calls σ1).
Qed.

Lemma deploys_keep_original d f calls σ n0 :
  f ∈ BACKUP_NAMES →
  History.original_kept d f n0 σ →
  History.original_kept d f n0 (History.deploys d calls σ).2
  ∧ ((∃ r, r ∈ (History.deploys d calls σ).1 ∧ f ∈ replaced_files r) →
     nodes (History.deploys d calls σ).2 !! B d f = Some n0).
Proof.
  intros Hf. revert σ. induction calls as [|[src legacy] calls IH]; intros σ Hk.
  { simpl. split; [done|]. intros (r & Hr%elem_of_nil & _). done. }
  simpl. destruct (safe_replace_returns src d legacy σ) as (r & σ1 & Hrun).
  rewrite Hrun.
  destruct (deploy_keeps_original src d legacy f n0 σ r σ1 Hf Hk Hrun) as [Hk1 Hin1].
  destruct (IH σ1 Hk1) as [Hk2 Hin2].
  pose proof (deploys_keep_backup d f calls σ1 n0 Hf) as Hkeep.
  destruct (History.deploys d calls σ1) as [rs σ2]. simpl in *.
  split; [done|]. intros (r' & [->|Hr']%elem_of_cons & Hf'); eauto.
Qed.

(** C3, amended.  For each of the two slot names: a call makes the backup
    only from a target that exists and has no backup, so a backup that
    appears holds what the target held before the call, and no backup is
    made for a slot that does not exist; an existing backup keeps its
    content through any number of calls; and when the slot exists and has no
    backup before the first of any number of successive calls, then after
    them either the slot still has no backup and holds its first content, or
    the backup holds the first content of the slot, and the latter is the
    case as soon as one of the calls lists the slot as replaced. *)
Theorem backup_holds_first_content d f :
  f ∈ BACKUP_NAMES →
  (∀ src legacy σ r σ' b,
     safe_replace_snownlp_model src (Some d) legacy σ = (Ret r, σ') →
     nodes σ !! B d f = None → nodes σ' !! B d f = Some b →
     nodes σ !! T d f = Some b)
  ∧ (∀ calls σ b,
       nodes σ !! B d f = Some b →
       nodes (History.deploys d calls σ).2 !! B d f = Some b)
  ∧ (∀ calls σ n0,
       nodes σ !! T d f = Some n0 → nodes σ !! B d f = None →
       ((nodes (History.deploys d calls σ).2 !! B d f = None
         ∧ nodes (History.deploys d calls σ).2 !! T d f = Some n0)
        ∨ nodes (History.deploys d calls σ).2 !! B d f = Some n0)
       ∧ ((∃ r, r ∈ (History.deploys d calls σ).1 ∧ f ∈ replaced_files r) →
          nodes (History.deploys d calls σ).2 !! B d f = Some n0)).
Proof.
  intros Hf. split_and!.
  - intros src legacy σ r σ' b Hrun Hnone Hb.
    destruct (nodes σ !! T d f) as [n0|] eqn:HT.
    + destruct (deploy_keeps_original src d legacy f n0 σ r σ' Hf) as [[[Hn _]|Hb'] _];
        [by left|done|congruence..].
    + pose proof (deploy_makes_no_backup src d legacy f σ r σ' Hf HT Hrun). congruence.
  - intros calls σ b Hb. by apply deploys_keep_backup.
  - intros calls σ n0 HT HB.
    destruct (deploys_keep_original d f calls σ n0 Hf) as [Hk Hin]; [by left|].
    split; [exact Hk|exact Hin].
Qed.

End PermanentBackup.

(** C3, as stated, fails: the slot does not exist before the first of two
    successive calls; the first call makes no backup, and the backup made by
    the second call holds the artifact of the first. *)
Lemma backup_of_missing_slot_is_first_artifact :
  nodes Demo.empty_install !! Slot.target_path Demo.dir "sentiment.marshal.3" = None
  ∧ nodes (History.deploys Demo.dir [("/work/x.marshal", false)] Demo.empty_install).2
      !! Slot.backup_path Demo.dir "sentiment.marshal.3" = None
  ∧ map success
      (History.deploys Demo.dir [("/work/x.marshal", false); ("/work/y.marshal", false)]
         Demo.empty_install).1 = [true; true]
  ∧ nodes (History.deploys Demo.dir [("/work/x.marshal", false); ("/work/y.marshal", false)]
             Demo.empty_install).2
      !! Slot.backup_path Demo.dir "sentiment.marshal.3" = Some (Blob Demo.model_x)
  ∧ nodes (History.deploys Demo.dir [("/work/x.marshal", false); ("/work/y.marshal", false)]
             Demo.empty_install).2
      !! Slot.target_path Demo.dir "sentiment.marshal.3" = Some (Blob Demo.model_y).
Proof. split_and!; vm_compute; reflexivity. Qed.

(** Two successive calls on an installation whose slot exists: the backup
    holds the content from before the first call. *)
Lemma backup_holds_first_content_witness :
  nodes (History.deploys Demo.dir [("/work/x.marshal", false); ("/work/y.marshal", false)]
           Demo.fresh_install).2
    !! Slot.backup_path Demo.dir "sentiment.marshal.3" = Some (Blob Demo.original).
Proof.
  apply (proj2 (proj2 (backup_holds_first_content Demo.dir "sentiment.marshal.3" m3_name))
           [("/work/x.marshal", false); ("/work/y.marshal", false)]
           Demo.fresh_install (Blob Demo.original)).
  - vm_compute. reflexivity.
  - vm_compute. reflexivity.
  - exists (mkReplaceResult true (Some Demo.dir) ["sentiment.marshal.3"] None).
    split; [|by left]. vm_compute. by left.
Defined.


(** ** A slot that does not exist yet *)

Section MissingSlot.
Context {rt : Runtime}.

Local Abbreviation T := Slot.target_path.
Local Abbreviation B := Slot.backup_path.
Local Abbreviation P := Slot.tmp_path.

(** The round for a missing slot commits the source when staging and
    renaming are possible. *)
Lemma replace_one_missing_slot src d f σ nsrc :
  nodes σ !! src = Some nsrc →
  validate_marshal_model_file src σ = (Ret None, σ) →
  nodes σ !! T d f = None →
  src ≠ P d f → isdir_in σ (P d f) = false →
  P d f ∉ denied σ → T d f ∉ denied σ →
  replace_one src d f σ
  = (Ret (Some f), set_nodes (fun m => <[T d f := nsrc]> (delete (P d f) m)) σ).
Proof.
  intros Hsrc Hv HT HsP HPdir HPden HTden.
  assert (nsrc ≠ Dir) as Hnd.
  { destruct (validate_ok_file src σ) as (n & Hn & Hd); [by rewrite Hv|]. congruence. }
  unfold replace_one, make_backup, stage_and_commit, Os.bind, os_path_exists, Os.ret.
  fold (T d f). change (T d f +:+ ".tmp_new") with (P d f).
  rewrite (exists_in_None _ _ HT). simpl.
  unfold shutil_copy2. rewrite (copy_dest_file _ _ _ HPdir), Hsrc, HPdir.
  rewrite (bool_decide_eq_false_2 _ HsP), (bool_decide_eq_false_2 _ HPden).
  set (σ2 := set_nodes (insert (P d f) nsrc) σ).
  assert ((validate_marshal_model_file (P d f) σ2).1 = Ret None) as Hv2.
  { apply (validate_ok_transfer src σ); [|by rewrite Hv].
    simpl. by rewrite lookup_insert_eq. }
  destruct (validate_total (P d f) σ2) as [verdict Hverdict].
  rewrite Hverdict in Hv2. simpl in Hv2. simplify_eq.
  assert (P d f ≠ T d f) as HPT by apply app_ne_self.
  assert (isdir_in σ2 (T d f) = false) as HTdir.
  { apply isdir_in_None. simpl. by rewrite lookup_insert_ne. }
  destruct nsrc; try done; rewrite Hverdict; simpl; unfold os_replace;
    simpl; rewrite lookup_insert_eq, HTdir,
      (bool_decide_eq_false_2 _ HPden), (bool_decide_eq_false_2 _ HTden),
      (bool_decide_eq_false_2 _ HPT); simpl;
    unfold set_nodes; simpl; by rewrite delete_insert_eq.
Qed.

(** Rounds keep the source, and a committed missing slot holds it. *)
Lemma loop_commits_source src d f nsrc targets :
  f ∈ BACKUP_NAMES → (∀ g, g ∈ targets → g ∈ BACKUP_NAMES) →
  ∀ acc σ,
    nodes σ !! src = Some nsrc →
    (f ∈ acc → nodes σ !! T d f = Some nsrc) →
    let res := for_acc (replace_one src d) targets acc σ in
    nodes res.2 !! src = Some nsrc
    ∧ (f ∈ res.1.1 → nodes res.2 !! T d f = Some nsrc).
Proof.
  intros Hf Hsub acc σ Hsrc Hacc.
  apply (for_acc_ind
    (fun acc σ => nodes σ !! src = Some nsrc
                  ∧ (f ∈ acc → nodes σ !! T d f = Some nsrc))
    (replace_one src d) targets); [| |done].
  - intros g acc' σa o σb Hg [Hs Ha] Hstep. apply Hsub in Hg.
    destruct (replace_one_cases src d g σa)
      as [(e & σ1 & Hr & _)|(n & σ1 & Hr & _ & _ & _ & HTn & _ & _ & _ & _ & Hsrc' & _)];
      rewrite Hr in Hstep; simplify_eq.
    destruct Hsrc' as [Hn Hs']; [eauto|].
    assert (n = nsrc) as -> by congruence.
    split; [done|]. simpl. intros [Hold|Hnow]%elem_of_app.
    + destruct (decide (f = g)) as [<-|Hne]; [done|].
      destruct (replace_one_other src d f g σa Hf Hg Hne) as [HT _].
      rewrite Hr in HT. simpl in HT. rewrite HT. auto.
    + apply list_elem_of_singleton in Hnow as ->. done.
  - intros g acc' σa e σb Hg [Hs Ha] Hstep. apply Hsub in Hg.
    destruct (replace_one_cases src d g σa)
      as [(e' & σ1 & Hr & _ & HTsame & _ & Hsrc' & _)|(n & σ1 & Hr & _)];
      rewrite Hr in Hstep; simplify_eq.
    split; [rewrite Hsrc'; eauto|].
    intros Hold. destruct (decide (f = g)) as [<-|Hne].
    + rewrite HTsame. auto.
    + destruct (replace_one_other src d f g σa Hf Hg Hne) as [HT _].
      rewrite Hr in HT. simpl in HT. rewrite HT. auto.
Qed.

(** C9.  A slot that does not exist before the call, with a source that
    exists and is valid.  The round of the loop for this slot stages the
    source next to the target and renames it onto the target, which then
    holds the content of the source and validates, provided the staging path
    is not the source, is not a directory and can be written, and the target
    can be written.  Whatever the call returns, it has not made a backup for
    the slot: the backup path is as before.  When the call lists the slot as
    replaced and the slot has no backup, the slot holds the content of the
    source, and a restore from backup afterwards leaves it there.  With a
    single target the call then succeeds and lists the slot. *)
Theorem missing_slot_created_without_backup src d f σ nsrc :
  f ∈ BACKUP_NAMES →
  nodes σ !! src = Some nsrc →
  validate_marshal_model_file src σ = (Ret None, σ) →
  nodes σ !! T d f = None →
  (∀ σa, nodes σa !! src = Some nsrc → nodes σa !! T d f = None →
         src ≠ P d f → isdir_in σa (P d f) = false →
         P d f ∉ denied σa → T d f ∉ denied σa →
         ∃ σb, replace_one src d f σa = (Ret (Some f), σb)
               ∧ nodes σb !! T d f = Some nsrc
               ∧ (validate_marshal_model_file (T d f) σb).1 = Ret None
               ∧ nodes σb !! P d f = None
               ∧ nodes σb !! B d f = nodes σa !! B d f)
  ∧ (∀ legacy r σ',
       safe_replace_snownlp_model src (Some d) legacy σ = (Ret r, σ') →
       nodes σ' !! B d f = nodes σ !! B d f
       ∧ (f ∈ replaced_files r → nodes σ !! B d f = None →
          nodes σ' !! T d f = Some nsrc
          ∧ nodes (restore_from_backup d σ').2 !! T d f = Some nsrc))
  ∧ (∀ legacy,
       d ≠ "" → isdir_in σ d = true →
       get_effective_model_filenames legacy = [f] →
       src ≠ P d f → isdir_in σ (P d f) = false →
       P d f ∉ denied σ → T d f ∉ denied σ →
       ∃ σ', safe_replace_snownlp_model src (Some d) legacy σ
             = (Ret (mkReplaceResult true (Some d) [f] None), σ')
             ∧ nodes σ' !! T d f = Some nsrc
             ∧ nodes σ' !! B d f = nodes σ !! B d f).
Proof.
  intros Hf Hsrc Hv HT.
  assert (∀ σa, nodes σa !! src = Some nsrc →
            validate_marshal_model_file src σa = (Ret None, σa)) as Hvalid.
  { intros σa Hsa. destruct (validate_total src σa) as [verdict Hverdict].
    assert ((validate_marshal_model_file src σa).1 = Ret None) as H.
    { apply (validate_ok_transfer src σ); [congruence|by rewrite Hv]. }
    rewrite Hverdict in H. simpl in H. by simplify_eq. }
  assert (B d f ≠ T d f) as HBT by apply app_ne_self.
  assert (B d f ≠ P d f) as HBP
    by (unfold Slot.backup_path, Slot.tmp_path; by apply app_ne).
  split_and!.
  - intros σa Hsa HTa HsP HPdir HPden HTden.
    rewrite (replace_one_missing_slot src d f σa nsrc) by auto.
    eexists. split; [done|]. simpl. split_and!.
    + by rewrite lookup_insert_eq.
    + apply (validate_ok_transfer src σ); [|by rewrite Hv].
      simpl. by rewrite lookup_insert_eq.
    + rewrite lookup_insert_ne by apply not_eq_sym, app_ne_self.
      by rewrite lookup_delete_eq.
    + by rewrite lookup_insert_ne, lookup_delete_ne.
  - intros legacy r σ' Hrun.
    pose proof (deploy_makes_no_backup src d legacy f σ r σ' Hf HT Hrun) as HB.
    split; [done|]. intros Hin HBnone.
    assert (nodes σ' !! T d f = Some nsrc) as HT'.
    { destruct (safe_replace_cases src d legacy σ)
        as [(msg & Hr & _)|(_ & _ & _ & _ & Hr)]; rewrite Hr in Hrun.
      { simplify_eq. simpl in Hin. by apply elem_of_nil in Hin. }
      destruct (loop_commits_source src d f nsrc (get_effective_model_filenames legacy)
                  Hf (targets_backup_names legacy) [] σ Hsrc) as [_ Hcommit].
      { by intros ?%elem_of_nil. }
      pose proof (loop_makes_no_backup src d f (get_effective_model_filenames legacy) Hf
                    (targets_nodup legacy) (targets_backup_names legacy) [] σ
                    (fun _ => HT)) as Hloop.
      destruct (for_acc (replace_one src d) (get_effective_model_filenames legacy) [] σ)
        as [[replaced [e|]] σ1]; simpl in *; simplify_eq; simpl in *; [|auto].
      destruct (rollback_keeps d f σ1 Hf) as (_ & _ & HTkeep).
      rewrite HTkeep by congruence. auto. }
    split; [done|].
    destruct (restore_from_backup_state d σ') as [r' ->]. simpl.
    destruct (rollback_keeps d f σ' Hf) as (_ & _ & HTkeep).
    rewrite HTkeep by congruence. done.
  - intros legacy Hd Hdir Htargets HsP HPdir HPden HTden.
    rewrite (safe_replace_run src d legacy σ) by eauto.
    rewrite Htargets, for_acc_one.
    rewrite (replace_one_missing_slot src d f σ nsrc) by auto.
    eexists. split; [done|]. simpl. split.
    + by rewrite lookup_insert_eq.
    + by rewrite lookup_insert_ne, lookup_delete_ne.
Qed.

End MissingSlot.

(** An installation without slot files: the call creates the slot of
    Python 3 from the source and makes no backup. *)
Lemma missing_slot_created_without_backup_witness :
  ∃ σ',
    safe_replace_snownlp_model "/work/x.marshal" (Some Demo.dir) false Demo.empty_install
    = (Ret (mkReplaceResult true (Some Demo.dir) ["sentiment.marshal.3"] None), σ')
    ∧ nodes σ' !! Slot.target_path Demo.dir "sentiment.marshal.3" = Some (Blob Demo.model_x)
    ∧ nodes σ' !! Slot.backup_path Demo.dir "sentiment.marshal.3" = None.
Proof.
  destruct (missing_slot_created_without_backup "/work/x.marshal" Demo.dir
              "sentiment.marshal.3" Demo.empty_install (Blob Demo.model_x) m3_name)
    as (_ & _ & Hcall).
  - vm_compute. reflexivity.
  - vm_compute. reflexivity.
  - vm_compute. reflexivity.
  - destruct (Hcall false) as (σ' & Hrun & HT & HB).
    + done.
    + vm_compute. reflexivity.
    + vm_compute. reflexivity.
    + done.
    + vm_compute. reflexivity.
    + unfold Demo.empty_install, Demo.mk_fs. simpl. apply not_elem_of_empty.
    + unfold Demo.empty_install, Demo.mk_fs. simpl. apply not_elem_of_empty.
    + exists σ'. split; [exact Hrun|]. split; [exact HT|].
      rewrite HB. vm_compute. reflexivity.
Defined.
(** ** Evaluation sessions *)


Section Session.
Import Sandbox.
Variable pkg : string.

Local Abbreviation S := (Slot.target_path (sentiment_dir pkg)).
Local Abbreviation K := (Slot.temp_backup_path (sentiment_dir pkg)).

Lemma slot_names_inv f :
  f ∈ SLOT_NAMES → f = "sentiment.marshal" ∨ f = "sentiment.marshal.3".
Proof.
  unfold SLOT_NAMES. intros H.
  apply elem_of_cons in H as [->|H]; [by left|].
  apply list_elem_of_singleton in H as ->. by right.
Qed.

Lemma session_paths :
  S "sentiment.marshal" ≠ S "sentiment.marshal.3"
  ∧ K "sentiment.marshal" ≠ K "sentiment.marshal.3"
  ∧ (∀ f g, f ∈ SLOT_NAMES → g ∈ SLOT_NAMES → K f ≠ S g).
Proof.
  split_and!; [path_ne|path_ne|].
  intros f g [-> | ->]%slot_names_inv [-> | ->]%slot_names_inv; path_ne.
Qed.

Lemma backup_one_absent f σ :
  nodes σ !! S f = None → backup_one pkg f σ = (Ret None, σ).
Proof.
  intros H. unfold backup_one, Os.bind, os_path_exists, Os.ret.
  fold (S f). by rewrite (exists_in_None _ _ H).
Qed.

Lemma backup_one_ok f σ n :
  nodes σ !! S f = Some n → n ≠ Dir →
  isdir_in σ (K f) = false → K f ∉ denied σ →
  backup_one pkg f σ = (Ret (Some (K f)), set_nodes (insert (K f) n) σ).
Proof.
  intros Hn Hd Hdir Hden. unfold backup_one, Os.bind, os_path_exists, Os.ret.
  fold (S f). change (S f +:+ ".temp_backup") with (K f).
  rewrite (exists_in_Some _ _ _ Hn). unfold shutil_copy2.
  rewrite (copy_dest_file _ _ _ Hdir), Hn, Hdir.
  assert (S f ≠ K f) as Hne by apply not_eq_sym, app_ne_self.
  rewrite (bool_decide_eq_false_2 _ Hne), (bool_decide_eq_false_2 _ Hden).
  by destruct n.
Qed.


Lemma find_target_run f σ :
  find_target pkg f σ = (Ret (if exists_in σ (S f) then Some (S f) else None), σ).
Proof. unfold find_target, Os.bind, os_path_exists, Os.ret. by fold (S f). Qed.



(** The backups that [backup_current_model] lists. *)
Local Abbreviation backed σ :=
  ((if exists_in σ (S "sentiment.marshal") then [K "sentiment.marshal"] else [])
   ++ (if exists_in σ (S "sentiment.marshal.3") then [K "sentiment.marshal.3"] else []))%list.

(** The backup step, for slots that are files and whose backup paths can be
    written. *)
Lemma backup_phase σ :
  (∀ f, f ∈ SLOT_NAMES → nodes σ !! S f ≠ Some Dir) →
  (∀ f, f ∈ SLOT_NAMES → is_Some (nodes σ !! S f) →
        isdir_in σ (K f) = false ∧ K f ∉ denied σ) →
  ∃ σb,
    backup_current_model pkg σ = (Ret (Some (backed σ)), σb)
    ∧ denied σb = denied σ
    ∧ (∀ p, p ≠ K "sentiment.marshal" → p ≠ K "sentiment.marshal.3" →
            nodes σb !! p = nodes σ !! p)
    ∧ (∀ f n, f ∈ SLOT_NAMES → nodes σ !! S f = Some n → nodes σb !! K f = Some n)
    ∧ (∀ f, f ∈ SLOT_NAMES → nodes σ !! S f = None → nodes σb !! K f = nodes σ !! K f).
Proof.
  intros Hfile Hk.
  destruct session_paths as (HS & HK & HKS).
  assert ("sentiment.marshal" ∈ SLOT_NAMES) as Hm by (unfold SLOT_NAMES; by left).
  assert ("sentiment.marshal.3" ∈ SLOT_NAMES) as Hm3
    by (unfold SLOT_NAMES; right; by left).
  unfold backup_current_model.
  change (for_acc (backup_one pkg) SLOT_NAMES [] σ)
    with (for_acc (backup_one pkg) ["sentiment.marshal"; "sentiment.marshal.3"] [] σ).
  rewrite for_acc_two.
  destruct (nodes σ !! S "sentiment.marshal") as [nm|] eqn:Em,
    (nodes σ !! S "sentiment.marshal.3") as [n3|] eqn:E3.
  - destruct (Hk _ Hm) as [Hd1 Hden1]; [eauto|].
    destruct (Hk _ Hm3) as [Hd3 Hden3]; [eauto|].
    rewrite (backup_one_ok _ σ nm); [|done|intros ->; exact (Hfile _ Hm Em)|done|done].
    rewrite (backup_one_ok _ _ n3).
    + rewrite (exists_in_Some _ _ _ Em), (exists_in_Some _ _ _ E3).
      eexists. split; [done|]. simpl. split_and!; try done.
      * intros p H1 H2. by rewrite !lookup_insert_ne.
      * intros f n [-> | ->]%slot_names_inv Hn.
        -- rewrite lookup_insert_ne by done. rewrite lookup_insert_eq. congruence.
        -- rewrite lookup_insert_eq. congruence.
      * intros f [-> | ->]%slot_names_inv Hn; congruence.
    + simpl. rewrite lookup_insert_ne; [done|]. by apply HKS.
    + intros ->. exact (Hfile _ Hm3 E3).
    + unfold isdir_in in *. simpl. by rewrite lookup_insert_ne.
    + done.
  - destruct (Hk _ Hm) as [Hd1 Hden1]; [eauto|].
    rewrite (backup_one_ok _ σ nm); [|done|intros ->; exact (Hfile _ Hm Em)|done|done].
    rewrite backup_one_absent.
    2:{ simpl. rewrite lookup_insert_ne; [done|]. by apply HKS. }
    rewrite (exists_in_Some _ _ _ Em), (exists_in_None _ _ E3).
    eexists. split; [done|]. simpl. split_and!; try done.
    + intros p H1 H2. by rewrite !lookup_insert_ne.
    + intros f n [-> | ->]%slot_names_inv Hn.
      * rewrite lookup_insert_eq. congruence.
      * congruence.
    + intros f [-> | ->]%slot_names_inv Hn; [congruence|].
      by rewrite lookup_insert_ne.
  - destruct (Hk _ Hm3) as [Hd3 Hden3]; [eauto|].
    rewrite backup_one_absent by done.
    rewrite (backup_one_ok _ σ n3); [|done|intros ->; exact (Hfile _ Hm3 E3)|done|done].
    rewrite (exists_in_None _ _ Em), (exists_in_Some _ _ _ E3).
    eexists. split; [done|]. simpl. split_and!; try done.
    + intros p H1 H2. by rewrite !lookup_insert_ne.
    + intros f n [-> | ->]%slot_names_inv Hn.
      * congruence.
      * rewrite lookup_insert_eq. congruence.
    + intros f [-> | ->]%slot_names_inv Hn; [|congruence].
      by rewrite lookup_insert_ne.
  - rewrite !backup_one_absent by done.
    rewrite (exists_in_None _ _ Em), (exists_in_None _ _ E3).
    exists σ. split_and!; try done.
    intros f n [-> | ->]%slot_names_inv Hn; congruence.
Qed.





End Session.



(** ** Outcomes of a replacement *)

Section DeployOutcome.
Context {rt : Runtime}.

Local Abbreviation T := Slot.target_path.
Local Abbreviation B := Slot.backup_path.
Local Abbreviation P := Slot.tmp_path.

(** Staging and renaming go through when the staging path and the target
    can be written. *)
Lemma stage_and_commit_run src Tp σ nsrc :
  let Pp := Tp +:+ ".tmp_new" in
  nodes σ !! src = Some nsrc →
  fst (validate_marshal_model_file src σ) = Ret None →
  src ≠ Pp → isdir_in σ Pp = false → Pp ∉ denied σ →
  isdir_in σ Tp = false → Tp ∉ denied σ →
  stage_and_commit src Pp Tp σ
  = (Ret tt, set_nodes (fun m => <[Tp := nsrc]> (delete Pp m)) σ).
Proof.
  intros Pp Hsrc Hv HsP HPdir HPden HTdir HTden.
  assert (nsrc ≠ Dir) as Hnd.
  { destruct (validate_ok_file src σ Hv) as (n & Hn & Hd). congruence. }
  unfold stage_and_commit, Os.bind, Os.ret.
  unfold shutil_copy2. rewrite (copy_dest_file _ _ _ HPdir), Hsrc, HPdir.
  rewrite (bool_decide_eq_false_2 _ HsP), (bool_decide_eq_false_2 _ HPden).
  set (σ2 := set_nodes (insert Pp nsrc) σ).
  assert ((validate_marshal_model_file Pp σ2).1 = Ret None) as Hv2.
  { apply (validate_ok_transfer src σ); [|done].
    simpl. by rewrite lookup_insert_eq. }
  destruct (validate_total Pp σ2) as [verdict Hverdict].
  rewrite Hverdict in Hv2. simpl in Hv2. simplify_eq.
  assert (Pp ≠ Tp) as HPT by apply app_ne_self.
  assert (isdir_in σ2 Tp = false) as HTdir2.
  { rewrite (isdir_in_agree σ σ2); [done|]. simpl. by rewrite lookup_insert_ne. }
  destruct nsrc; try done; rewrite Hverdict; simpl; unfold os_replace;
    simpl; rewrite lookup_insert_eq, HTdir2,
      (bool_decide_eq_false_2 _ HPden), (bool_decide_eq_false_2 _ HTden),
      (bool_decide_eq_false_2 _ HPT); simpl;
    unfold set_nodes; simpl; by rewrite delete_insert_eq.
Qed.

(** A round goes through when the paths of its slot can be written. *)
Lemma replace_one_succeeds src d f σ nsrc :
  nodes σ !! src = Some nsrc →
  fst (validate_marshal_model_file src σ) = Ret None →
  src ≠ P d f → isdir_in σ (P d f) = false → P d f ∉ denied σ →
  isdir_in σ (T d f) = false → T d f ∉ denied σ →
  B d f ∉ denied σ →
  ∃ σ', replace_one src d f σ = (Ret (Some f), σ').
Proof.
  intros Hsrc Hv HsP HPdir HPden HTdir HTden HBden.
  assert (T d f ≠ B d f) as HTB by apply not_eq_sym, app_ne_self.
  assert (P d f ≠ B d f) as HPB.
  { unfold Slot.tmp_path, Slot.backup_path. intros H.
    apply (inj (String.append _)) in H. discriminate H. }
  unfold replace_one, Os.bind at 1.
  fold (T d f). change (T d f +:+ ".backup_gui") with (B d f).
  change (T d f +:+ ".tmp_new") with (P d f).
  assert (∃ σ1, make_backup (T d f) (B d f) σ = (Ret tt, σ1)
                ∧ denied σ1 = denied σ
                ∧ nodes σ1 !! src = Some nsrc
                ∧ ∀ p, p ≠ B d f → nodes σ1 !! p = nodes σ !! p)
    as (σ1 & -> & Hd1 & Hs1 & Ho1).
  { destruct (make_backup_cases (T d f) (B d f) σ)
      as [[e He]|[[Hm _]|(nt & HB & HT & Hnt & Hm)]].
    - exfalso. revert He.
      unfold make_backup, Os.bind, os_path_exists, Os.ret.
      destruct (exists_in σ (T d f)) eqn:ET; [|done].
      destruct (exists_in σ (B d f)) eqn:EB; [done|]. simpl.
      apply exists_in_true in ET as [t Ht]. apply exists_in_false in EB.
      unfold shutil_copy2.
      rewrite (copy_dest_file _ _ _ (isdir_in_None _ _ EB)), Ht, (isdir_in_None _ _ EB).
      rewrite (bool_decide_eq_false_2 _ HTB), (bool_decide_eq_false_2 _ HBden).
      unfold isdir_in in HTdir. rewrite Ht in HTdir. by destruct t.
    - exists σ. by rewrite Hm.
    - eexists. split; [exact Hm|]. split; [done|]. split.
      + simpl. rewrite lookup_insert_ne; [done|]. congruence.
      + intros p Hp. simpl. by rewrite lookup_insert_ne. }
  pose proof (stage_and_commit_run src (T d f) σ1 nsrc) as Hrun. cbv zeta in Hrun.
  change (T d f +:+ ".tmp_new") with (P d f) in Hrun.
  unfold Os.bind. rewrite Hrun.
  - unfold Os.ret. eauto.
  - done.
  - apply (validate_ok_transfer src σ); [congruence|done].
  - done.
  - rewrite (isdir_in_agree σ σ1); [done|]. by apply Ho1.
  - by rewrite Hd1.
  - rewrite (isdir_in_agree σ σ1); [done|]. by apply Ho1.
  - by rewrite Hd1.
Qed.

(** A round that returns has committed the source. *)
Lemma round_done src d f σ o σ1 nsrc :
  nodes σ !! src = Some nsrc →
  replace_one src d f σ = (Ret o, σ1) →
  o = Some f
  ∧ denied σ1 = denied σ
  ∧ nodes σ1 !! src = Some nsrc
  ∧ nodes σ1 !! T d f = Some nsrc
  ∧ nodes σ1 !! P d f = None
  ∧ fst (validate_marshal_model_file (T d f) σ1) = Ret None
  ∧ nodes σ1 !! B d f = match nodes σ !! B d f with
                        | Some b => Some b
                        | None => nodes σ !! T d f
                        end
  ∧ ∀ p, p ≠ T d f → p ≠ B d f → p ≠ P d f → nodes σ1 !! p = nodes σ !! p.
Proof.
  intros Hsrc Hrun.
  destruct (replace_one_cases src d f σ)
    as [(e & σa & Hr & _)|(n & σa & Hr & Hden & Hn & _ & HT & HP & HB & Hframe & Hv & Hs & _)];
    rewrite Hr in Hrun; simplify_eq.
  destruct Hs as [Hs1 Hs2]; [eauto|].
  assert (n = nsrc) as -> by congruence.
  split_and!; done.
Qed.

Lemma slot_paths_apart d :
  let f := "sentiment.marshal.3" in
  let g := "sentiment.marshal" in
  T d f ≠ T d g ∧ T d f ≠ B d g ∧ T d f ≠ P d g
  ∧ B d f ≠ T d g ∧ B d f ≠ B d g ∧ B d f ≠ P d g
  ∧ P d f ≠ T d g ∧ P d f ≠ B d g ∧ P d f ≠ P d g.
Proof. cbv zeta. split_and!; path_ne. Qed.



(** With a valid source, a call succeeds when, for every target, the
    staging path is not the source, the target and the staging path are no
    directories, and the target, its backup path and the staging path can
    be written. *)
Theorem deploy_succeeds_when_writable src d legacy σ nsrc :
  d ≠ "" → isdir_in σ d = true →
  nodes σ !! src = Some nsrc →
  validate_marshal_model_file src σ = (Ret None, σ) →
  (∀ f, f ∈ get_effective_model_filenames legacy →
        src ≠ P d f
        ∧ isdir_in σ (T d f) = false ∧ isdir_in σ (P d f) = false
        ∧ (T d f ∉ denied σ) ∧ (B d f ∉ denied σ) ∧ (P d f ∉ denied σ)) →
  ∃ σ',
    safe_replace_snownlp_model src (Some d) legacy σ
    = (Ret (mkReplaceResult true (Some d) (get_effective_model_filenames legacy) None), σ').
Proof.
  intros Hd Hdir Hsrc Hv Hw.
  rewrite (safe_replace_run src d legacy σ Hd Hdir); [|eauto|done].
  assert (fst (validate_marshal_model_file src σ) = Ret None) as Hv1 by (by rewrite Hv).
  destruct (slot_paths_apart d) as (TT & TB & TP & BT & BB & BP & PT & PB & PP).
  assert (∀ f, f ∈ get_effective_model_filenames legacy →
            ∃ σ1, replace_one src d f σ = (Ret (Some f), σ1)) as Hfirst.
  { intros f Hf. destruct (Hw f Hf) as (? & ? & ? & ? & ? & ?).
    by apply (replace_one_succeeds src d f σ nsrc). }
  destruct (targets_cases legacy) as [Ht|[Ht|Ht]]; rewrite Ht in *.
  - rewrite for_acc_one.
    destruct (Hfirst "sentiment.marshal.3") as [σ1 ->]; [by left|].
    simpl. eauto.
  - rewrite for_acc_two.
    destruct (Hfirst "sentiment.marshal.3") as [σ1 E1]; [by left|]. rewrite E1.
    destruct (round_done _ _ _ _ _ _ _ Hsrc E1) as (_ & Hd1 & Hs1 & _ & _ & _ & _ & Hfr).
    destruct (Hw "sentiment.marshal") as (HsP & HTd & HPd & HTw & HBw & HPw);
      [right; by left|].
    destruct (replace_one_succeeds src d "sentiment.marshal" σ1 nsrc) as [σ2 ->];
      try done; try (by rewrite Hd1).
    + apply (validate_ok_transfer src σ); [congruence|done].
    + rewrite (isdir_in_agree σ σ1); [done|]. apply Hfr; by apply not_eq_sym.
    + rewrite (isdir_in_agree σ σ1); [done|]. apply Hfr; by apply not_eq_sym.
    + simpl. eauto.
  - rewrite for_acc_one.
    destruct (Hfirst "sentiment.marshal") as [σ1 ->]; [by left|].
    simpl. eauto.
Qed.



(** A call writes nowhere but at the paths of the two slots: the slot
    file, its backup and its staging file, and, where the staging path or
    the slot is a directory, the copy that lands inside it.  Every other
    path, the source among them, is as before. *)
Theorem deploy_touches_slot_paths_only src d legacy σ p :
  (∀ f, f ∈ BACKUP_NAMES →
        p ≠ T d f ∧ p ≠ B d f ∧ p ≠ P d f
        ∧ p ≠ P d f +:+ String "/" (os_path_basename src)
        ∧ p ≠ T d f +:+ String "/" (os_path_basename (B d f))) →
  nodes (safe_replace_snownlp_model src (Some d) legacy σ).2 !! p = nodes σ !! p.
Proof.
  intros Hp.
  assert (∀ σa, nodes (History.rollback d σa) !! p = nodes σa !! p) as Hroll.
  { intros σa. unfold History.rollback.
    apply (for_acc_ind (fun _ σb => nodes σb !! p = nodes σa !! p)
             (restore_one d) BACKUP_NAMES); [| |done].
    - intros g acc σb o σc Hg Hb Hstep. destruct (Hp g Hg) as (HT & _ & _ & _ & HTin).
      destruct (restore_one_cases d g σb Hg)
        as [[_ Hr]|[(e & _ & Hr)|[(n & _ & _ & _ & _ & Hr)|(n & _ & _ & _ & Hr)]]];
        rewrite Hr in Hstep; simplify_eq; try done;
        simpl; by rewrite lookup_insert_ne.
    - intros g acc σb e σc Hg Hb Hstep. destruct (Hp g Hg) as (HT & _ & _ & _ & HTin).
      destruct (restore_one_cases d g σb Hg)
        as [[_ Hr]|[(e' & _ & Hr)|[(n & _ & _ & _ & _ & Hr)|(n & _ & _ & _ & Hr)]]];
        rewrite Hr in Hstep; by simplify_eq. }
  assert (∀ targets, (∀ g, g ∈ targets → g ∈ BACKUP_NAMES) →
            nodes (for_acc (replace_one src d) targets [] σ).2 !! p = nodes σ !! p) as Hloop.
  { intros targets Hsub.
    apply (for_acc_ind (fun _ σb => nodes σb !! p = nodes σ !! p)
             (replace_one src d) targets); [| |done].
    - intros g acc σb o σc Hg Hb Hstep.
      destruct (Hp g (Hsub g Hg)) as (HT & HB & HP & HPin & _).
      destruct (replace_one_cases src d g σb)
        as [(e & σ1 & Hr & _)|(n & σ1 & Hr & _ & _ & _ & _ & _ & _ & Hfr & _)];
        rewrite Hr in Hstep; simplify_eq. by rewrite Hfr.
    - intros g acc σb e σc Hg Hb Hstep.
      destruct (Hp g (Hsub g Hg)) as (HT & HB & HP & HPin & _).
      destruct (replace_one_cases src d g σb)
        as [(e' & σ1 & Hr & _ & _ & _ & _ & Hfr)|(n & σ1 & Hr & _)];
        rewrite Hr in Hstep; simplify_eq. by rewrite Hfr. }
  destruct (safe_replace_cases src d legacy σ)
    as [(msg & Hr & _)|(_ & _ & _ & _ & Hr)]; rewrite Hr; [done|].
  specialize (Hloop (get_effective_model_filenames legacy) (targets_backup_names legacy)).
  destruct (for_acc (replace_one src d) (get_effective_model_filenames legacy) [] σ)
    as [[replaced [e|]] σ1]; simpl in *; [|done].
  by rewrite Hroll.
Qed.

Lemma effective_filenames_eq legacy :
  get_effective_model_filenames legacy
  = if bool_decide (3 <= py_major)%Z
    then (if legacy then ["sentiment.marshal.3"; "sentiment.marshal"]
          else ["sentiment.marshal.3"])
    else ["sentiment.marshal"].
Proof.
  unfold get_effective_model_filenames.
  destruct (bool_decide (3 <= py_major)%Z), legacy; reflexivity.
Qed.

(** The targets of a call: one or two names without repetition, first the
    slot of the running interpreter; the legacy slot is a target exactly
    when it is asked for or the interpreter is Python 2, where the flag
    changes nothing.  Every target is a name that [restore_from_backup]
    handles, so that the rollback reaches every target. *)
Theorem effective_filenames_shape legacy :
  let targets := get_effective_model_filenames legacy in
  NoDup targets
  ∧ head targets = Some (if bool_decide (3 <= py_major)%Z
                         then "sentiment.marshal.3" else "sentiment.marshal")
  ∧ ("sentiment.marshal" ∈ targets ↔ legacy = true ∨ (py_major < 3)%Z)
  ∧ ("sentiment.marshal.3" ∈ targets ↔ (3 <= py_major)%Z)
  ∧ ((py_major < 3)%Z → targets = get_effective_model_filenames (negb legacy))
  ∧ (∀ f, f ∈ targets → f ∈ BACKUP_NAMES).
Proof.
  cbv zeta. split; [apply targets_nodup|].
  split_and!; [| | | |apply targets_backup_names].
  all: rewrite !effective_filenames_eq.
  all: destruct (bool_decide (3 <= py_major)%Z) eqn:E;
    [apply bool_decide_eq_true in E|apply bool_decide_eq_false in E].
  all: destruct legacy; simpl; try done; try lia.
  all: rewrite ?elem_of_cons, ?elem_of_nil.
  all: split; intros H; try lia; try (by auto); try (by intuition discriminate).
  all: destruct H as [H|H]; [discriminate H|lia].
Qed.

End DeployOutcome.

(** ** Getting the first content back *)

Section Recover.
Context {rt : Runtime}.

Local Abbreviation T := Slot.target_path.
Local Abbreviation B := Slot.backup_path.

(** No slot and no backup is a directory. *)
Local Abbreviation plain d σ :=
  (∀ g, g ∈ BACKUP_NAMES →
        nodes σ !! T d g ≠ Some Dir ∧ nodes σ !! B d g ≠ Some Dir).









End Recover.

(** ** Restoring twice *)

Section RestoreTwice.

Local Abbreviation T := Slot.target_path.
Local Abbreviation B := Slot.backup_path.









End RestoreTwice.

(** ** More on the catalogue *)

Section CatalogMore.
Import Catalog.

Lemma manager_eta self : mkModelManager (config_file self) (models self) = self.
Proof. by destruct self. Qed.

(** What [save_models] does, in full. *)
Lemma save_models_run self σ :
  (isdir_in σ (config_file self) = false ∧ (config_file self ∉ denied σ)
   ∧ save_models self σ
     = (Ret tt, set_nodes (insert (config_file self) (Doc (models self))) σ))
  ∨ ((isdir_in σ (config_file self) = true ∨ config_file self ∈ denied σ)
     ∧ save_models self σ = (Ret tt, σ)).
Proof.
  unfold save_models, try_except, write_doc, Os.ret.
  destruct (isdir_in σ (config_file self)) eqn:Ed; [right; auto|].
  destruct (bool_decide (config_file self ∈ denied σ)) eqn:Ep.
  - apply bool_decide_eq_true in Ep. right; auto.
  - apply bool_decide_eq_false in Ep. left; auto.
Qed.

Lemma save_models_exists self σ p :
  is_Some (nodes σ !! p) → is_Some (nodes (save_models self σ).2 !! p).
Proof.
  intros Hp. destruct (save_models_run self σ) as [(_ & _ & ->)|[_ ->]]; [|done].
  simpl. destruct (decide (p = config_file self)) as [->|Hne].
  - rewrite lookup_insert_eq. eauto.
  - by rewrite lookup_insert_ne.
Qed.

(** [save_models] followed by a new [ModelManager] on the same document
    gives the catalogue back when the document can be written; when it
    cannot, the failure is swallowed and nothing is written, so that a new
    object sees the old document. *)
Theorem saved_catalogue_is_reloaded self σ :
  ∃ σ',
    save_models self σ = (Ret tt, σ')
    ∧ (isdir_in σ (config_file self) = false → config_file self ∉ denied σ →
       init (config_file self) σ' = (Ret self, σ'))
    ∧ (isdir_in σ (config_file self) = true ∨ config_file self ∈ denied σ →
       σ' = σ).
Proof.
  destruct (save_models_run self σ) as [(Hd & Hp & ->)|[Hbad ->]].
  - eexists. split; [done|]. split.
    + intros _ _. unfold init, Os.bind, load_models, Os.ret. simpl.
      rewrite lookup_insert_eq. by rewrite manager_eta.
    + intros [Hd'|Hp']; [congruence|done].
  - exists σ. split; [done|]. split; [|done].
    intros Hd Hp. destruct Hbad; [congruence|done].
Qed.

(** [delete_model] with an id of the catalogue whose entry has a path
    returns the path, removes this entry and no other, and saves the
    document; it does not touch the file of the model.  An entry without
    ['path'] raises [KeyError] and stays.  An id that the catalogue does
    not hold gives [None] and changes nothing. *)
Theorem delete_model_removes_one_entry self model_id σ :
  (models self !! model_id = None →
   delete_model self model_id σ = (Ret (None, self), σ))
  ∧ (∀ info, models self !! model_id = Some info → info !! "path" = None →
       delete_model self model_id σ = (Raise (Exn KeyError "'path'"), σ))
  ∧ (∀ info model_path,
       models self !! model_id = Some info → info !! "path" = Some model_path →
       ∃ self' σ',
         delete_model self model_id σ = (Ret (Some model_path, self'), σ')
         ∧ config_file self' = config_file self
         ∧ models self' !! model_id = None
         ∧ (∀ k, k ≠ model_id → models self' !! k = models self !! k)
         ∧ denied σ' = denied σ
         ∧ (∀ p, p ≠ config_file self → nodes σ' !! p = nodes σ !! p)
         ∧ (isdir_in σ (config_file self) = false → config_file self ∉ denied σ →
            nodes σ' !! config_file self = Some (Doc (models self')))).
Proof.
  unfold delete_model. split_and!.
  - by intros ->.
  - by intros info -> ->.
  - intros info model_path -> ->.
    set (self' := mkModelManager (config_file self) (delete model_id (models self))).
    destruct (save_models_cases self' σ) as (σ' & Hsave & Hden & Hother & Hdoc).
    exists self', σ'. unfold Os.bind. rewrite Hsave. split_and!; try done.
    + simpl. by rewrite lookup_delete_eq.
    + intros k Hk. simpl. by rewrite lookup_delete_ne.
Qed.

(** [update_model] with an id of the catalogue never raises; the fields
    given replace those of the entry, its other fields stay, no other
    entry changes, and the document is saved. *)
Theorem update_model_merges_fields self model_id updates info σ :
  models self !! model_id = Some info →
  ∃ self' σ' info',
    update_model self model_id updates σ = (Ret self', σ')
    ∧ config_file self' = config_file self
    ∧ models self' !! model_id = Some info'
    ∧ (∀ key, info' !! key = match updates !! key with
                             | Some v => Some v
                             | None => info !! key
                             end)
    ∧ (∀ k, k ≠ model_id → models self' !! k = models self !! k)
    ∧ denied σ' = denied σ
    ∧ (∀ p, p ≠ config_file self → nodes σ' !! p = nodes σ !! p)
    ∧ (isdir_in σ (config_file self) = false → config_file self ∉ denied σ →
       nodes σ' !! config_file self = Some (Doc (models self'))).
Proof.
  intros Hm. unfold update_model. rewrite Hm.
  set (self' := mkModelManager (config_file self)
                  (<[model_id := updates ∪ info]> (models self))).
  destruct (save_models_cases self' σ) as (σ' & Hsave & Hden & Hother & Hdoc).
  exists self', σ', (updates ∪ info). unfold Os.bind. rewrite Hsave.
  split_and!; try done.
  - simpl. by rewrite lookup_insert_eq.
  - intros key. rewrite lookup_union. destruct (updates !! key), (info !! key); done.
  - intros k Hk. simpl. by rewrite lookup_insert_ne.
Qed.

Lemma collect_valid_ret σ items acc v :
  collect_valid σ items acc = Ret v →
  ∀ k e, (k, e) ∈ items → ∃ p, e !! "path" = Some (JStr p).
Proof.
  revert acc. induction items as [|[k0 e0] items IH]; intros acc Hrun k e Hin.
  { by apply elem_of_nil in Hin. }
  simpl in Hrun. unfold entry_path_exists in Hrun.
  destruct (e0 !! "path") as [[p| |]|] eqn:Hp; try done.
  apply elem_of_cons in Hin as [Heq|Hin].
  - simplify_eq. eauto.
  - destruct (exists_in σ p); eapply IH; eauto.
Qed.

(** A listing that returns is stable: a second listing, by the object and
    in the state the first one leaves, returns the same entries and writes
    nothing. *)
Theorem get_model_list_twice self σ valid self' σ' :
  get_model_list self σ = (Ret (valid, self'), σ') →
  get_model_list self' σ' = (Ret (valid, self'), σ').
Proof.
  intros Hrun. unfold get_model_list in Hrun.
  destruct (collect_valid σ (map_to_list (models self)) ∅) as [v|e] eqn:Hc; [|done].
  assert (∀ k e, models self !! k = Some e → ∃ p, e !! "path" = Some (JStr p)) as Hwf.
  { intros k e Hk. apply (collect_valid_ret _ _ _ _ Hc k). by apply elem_of_map_to_list. }
  rewrite (collect_valid_filter σ _ Hwf) in Hc. simplify_eq.
  set (valid0 := filter (fun kv => live σ kv.2 = true) (models self)) in *.
  assert (models self' = valid0 ∧ valid = valid0
          ∧ ∀ p, is_Some (nodes σ !! p) → is_Some (nodes σ' !! p)) as (Hm & -> & Hex).
  { destruct (bool_decide (size valid0 ≠ size (models self))) eqn:Es.
    - pose proof (save_models_exists (mkModelManager (config_file self) valid0) σ) as Hex.
      destruct (save_models (mkModelManager (config_file self) valid0) σ) as [[[]|e] σ1];
        simplify_eq. done.
    - apply bool_decide_eq_false in Es. apply dec_stable in Es.
      apply filter_size_same in Es. simplify_eq. by split_and!. }
  assert (∀ k e, valid0 !! k = Some e → ∃ p, e !! "path" = Some (JStr p)) as Hwf0.
  { intros k e [Hk _]%map_lookup_filter_Some. eauto. }
  unfold get_model_list. rewrite Hm, (collect_valid_filter σ' _ Hwf0).
  assert (filter (fun kv => live σ' kv.2 = true) valid0 = valid0) as ->.
  { apply map_eq. intros k. destruct (valid0 !! k) as [e|] eqn:Hk.
    - apply map_lookup_filter_Some. split; [done|]. simpl.
      apply map_lookup_filter_Some in Hk as [Hk Hl]. simpl in Hl.
      unfold live in *. destruct (e !! "path") as [[p| |]|]; try done.
      apply bool_decide_eq_true. apply Hex. by apply bool_decide_eq_true in Hl.
    - apply map_lookup_filter_None. by left. }
  rewrite bool_decide_eq_false_2; [done|]. intros H. by apply H.
Qed.

Lemma collect_valid_key_error σ items acc :
  (∀ k e, (k, e) ∈ items → e !! "path" = None ∨ ∃ p, e !! "path" = Some (JStr p)) →
  (∃ k e, (k, e) ∈ items ∧ e !! "path" = None) →
  collect_valid σ items acc = Raise (Exn KeyError "'path'").
Proof.
  revert acc. induction items as [|[k0 e0] items IH]; intros acc Hall (k & e & Hin & Hnone).
  { by apply elem_of_nil in Hin. }
  simpl. unfold entry_path_exists.
  destruct (Hall k0 e0) as [H0|[p H0]]; [by left|by rewrite H0|].
  rewrite H0.
  apply elem_of_cons in Hin as [Heq|Hin]; [simplify_eq|].
  assert (∀ acc', collect_valid σ items acc' = Raise (Exn KeyError "'path'")) as Hrest.
  { intros acc'. apply IH; [|eauto]. intros k' e' Hin'. apply (Hall k'). by right. }
  destruct (exists_in σ p); apply Hrest.
Qed.

(** An entry without ['path'] makes the listing raise [KeyError]; nothing
    is written and the object keeps its entries.  The other entries have a
    string at ['path']. *)
Theorem get_model_list_raises_without_path self σ :
  (∀ k e, models self !! k = Some e →
          e !! "path" = None ∨ ∃ p, e !! "path" = Some (JStr p)) →
  (∃ k e, models self !! k = Some e ∧ e !! "path" = None) →
  get_model_list self σ = (Raise (Exn KeyError "'path'"), σ).
Proof.
  intros Hall (k & e & Hk & Hnone). unfold get_model_list.
  rewrite (collect_valid_key_error σ (map_to_list (models self)) ∅); [done| |].
  - intros k' e' Hin. apply (Hall k'). by apply elem_of_map_to_list.
  - exists k, e. split; [|done]. by apply elem_of_map_to_list.
Qed.

End CatalogMore.

(** ** Adding entries *)

Section AddingProps.
Import Catalog Adding.
Context {rt : Runtime}.
Variable dir_size : Z.

(** The id under which [add_model] files the entry. *)
Local Abbreviation id_of now info := (match info !! "id" with
                                       | Some (JStr s) => s
                                       | _ => epoch_seconds now
                                       end).

(** The keys that [add_model] writes. *)
Local Abbreviation entry_keys :=
  ["path"; "name"; "created_time"; "train_files"; "test_files"; "train_samples";
   "test_accuracy"; "neutral_strategy"; "notes"; "file_size"].

Lemma getsize_state p σ :
  (if exists_in σ p then os_path_getsize dir_size p else Os.ret 0%Z) σ
  = (Ret (match nodes σ !! p with
          | None => 0%Z
          | Some (Blob b) => Z.of_nat (length b)
          | Some (Doc d) => Z.of_nat (length (json_dumps d))
          | Some Dir => dir_size
          end), σ).
Proof.
  unfold exists_in, os_path_getsize, Os.ret.
  destruct (nodes σ !! p) as [[| |]|] eqn:E.
  - by rewrite bool_decide_eq_true_2, E by eauto.
  - by rewrite bool_decide_eq_true_2, E by eauto.
  - by rewrite bool_decide_eq_true_2, E by eauto.
  - rewrite bool_decide_eq_false_2; [done|]. by intros [? ?].
Qed.

Lemma new_entry_lookup now model_path info file_size key :
  new_entry now model_path info file_size !! key
  = if bool_decide (key = "path") then Some (JStr model_path)
    else if bool_decide (key = "file_size") then Some (JNum (inject_Z file_size))
    else if bool_decide (key = "name")
         then Some (info_get info "name" (JStr ("模型_" +:+ month_day_time now)))
    else if bool_decide (key = "created_time")
         then Some (info_get info "created_time" (JStr (isoformat now)))
    else if bool_decide (key = "train_files") then Some (info_get info key (JStrs []))
    else if bool_decide (key = "test_files") then Some (info_get info key (JStrs []))
    else if bool_decide (key = "train_samples") then Some (info_get info key (JNum 0))
    else if bool_decide (key = "test_accuracy") then Some (info_get info key (JNum 0))
    else if bool_decide (key = "neutral_strategy") then Some (info_get info key (JStr ""))
    else if bool_decide (key = "notes") then Some (info_get info key (JStr ""))
    else None.
Proof.
  unfold new_entry. cbn [list_to_map foldr fst snd uncurry].
  repeat (case_bool_decide;
          [subst key; repeat (rewrite lookup_insert_ne by done);
           by rewrite ?lookup_insert_eq|]).
  repeat (rewrite lookup_insert_ne by done). apply lookup_empty.
Qed.

(** [add_model] with a string as id, or without id, files a new entry under
    that id, or under the seconds of the clock, and returns the id.  The
    entry has the ten fields of the catalogue and no other: the path given,
    the size of the file (0 without file), and the fields of [info] or
    their defaults; a ['path'] or ['file_size'] in [info] is not used.
    An entry that was filed under the id is replaced as a whole, no other
    entry changes, and the document is saved. *)
Theorem add_model_files_entry now self model_path info σ :
  info !! "id" = None ∨ (∃ s, info !! "id" = Some (JStr s)) →
  ∃ self' σ' entry,
    add_model dir_size now self model_path info σ = (Ret (id_of now info, self'), σ')
    ∧ config_file self' = config_file self
    ∧ models self' !! id_of now info = Some entry
    ∧ (∀ k, k ≠ id_of now info → models self' !! k = models self !! k)
    ∧ entry !! "path" = Some (JStr model_path)
    ∧ entry !! "file_size"
      = Some (JNum (inject_Z (match nodes σ !! model_path with
                              | None => 0%Z
                              | Some (Blob b) => Z.of_nat (length b)
                              | Some (Doc d) => Z.of_nat (length (json_dumps d))
                              | Some Dir => dir_size
                              end)))
    ∧ (∀ key, is_Some (entry !! key) ↔ key ∈ entry_keys)
    ∧ (∀ key v, key ∈ entry_keys → key ≠ "path" → key ≠ "file_size" →
                info !! key = Some v → entry !! key = Some v)
    ∧ denied σ' = denied σ
    ∧ (∀ p, p ≠ config_file self → nodes σ' !! p = nodes σ !! p)
    ∧ (isdir_in σ (config_file self) = false → config_file self ∉ denied σ →
       nodes σ' !! config_file self = Some (Doc (models self'))).
Proof.
  intros Hid. unfold add_model, Os.bind at 1, os_path_exists.
  unfold Os.bind at 1. rewrite getsize_state.
  set (size := match nodes σ !! model_path with
               | None => 0%Z
               | Some (Blob b) => Z.of_nat (length b)
               | Some (Doc d) => Z.of_nat (length (json_dumps d))
               | Some Dir => dir_size
               end).
  set (entry := new_entry now model_path info size).
  assert (info_get info "id" (JStr (epoch_seconds now)) = JStr (id_of now info)) as ->.
  { unfold info_get. destruct Hid as [->|[s ->]]; done. }
  set (self' := mkModelManager (config_file self)
                  (<[id_of now info := entry]> (models self))).
  destruct (save_models_cases self' σ) as (σ' & Hsave & Hden & Hother & Hdoc).
  exists self', σ', entry. unfold Os.bind. rewrite Hsave. split_and!; try done.
  - simpl. by rewrite lookup_insert_eq.
  - intros k Hk. simpl. by rewrite lookup_insert_ne.
  - intros key. unfold entry. rewrite new_entry_lookup.
    rewrite !elem_of_cons, elem_of_nil.
    repeat (case_bool_decide; [subst key; split; [intros _|by eauto]; tauto|]).
    split; [by intros [? ?]|]. tauto.
  - intros key v Hin Hp Hs Hv. unfold entry. rewrite new_entry_lookup.
    rewrite !elem_of_cons, elem_of_nil in Hin.
    rewrite (bool_decide_eq_false_2 _ Hp), (bool_decide_eq_false_2 _ Hs).
    unfold info_get.
    repeat (case_bool_decide; [subst key; by rewrite Hv|]).
    tauto.
Qed.

(** What [add_model] returns and holds, in short. *)
Lemma add_model_run now self model_path info σ :
  info !! "id" = None ∨ (∃ s, info !! "id" = Some (JStr s)) →
  ∃ entry σ',
    add_model dir_size now self model_path info σ
    = (Ret (id_of now info,
            mkModelManager (config_file self) (<[id_of now info := entry]> (models self))),
       σ')
    ∧ entry !! "path" = Some (JStr model_path).
Proof.
  intros Hid. unfold add_model, Os.bind at 1, os_path_exists.
  unfold Os.bind at 1. rewrite getsize_state.
  assert (info_get info "id" (JStr (epoch_seconds now)) = JStr (id_of now info)) as ->.
  { unfold info_get. destruct Hid as [->|[s ->]]; done. }
  unfold Os.bind.
  match goal with
  | |- context [save_models ?m σ] =>
      destruct (save_models_cases m σ) as (σ' & -> & _)
  end.
  eexists _, σ'. split; [done|]. by rewrite new_entry_lookup.
Qed.

(** Adding an entry under an id that the catalogue does not hold and
    deleting it again gives the catalogue back; [delete_model] returns the
    path that was added. *)
Theorem add_then_delete_gives_catalogue_back now self model_path info σ :
  info !! "id" = None ∨ (∃ s, info !! "id" = Some (JStr s)) →
  models self !! id_of now info = None →
  ∃ self1 σ1 σ2,
    add_model dir_size now self model_path info σ = (Ret (id_of now info, self1), σ1)
    ∧ delete_model self1 (id_of now info) σ1 = (Ret (Some (JStr model_path), self), σ2).
Proof.
  intros Hid Hfresh.
  destruct (add_model_run now self model_path info σ Hid) as (entry & σ1 & Hadd & Hpath).
  destruct (save_models_cases self σ1) as (σ2 & Hsave & _).
  eexists _, σ1, σ2. split; [exact Hadd|].
  unfold delete_model. simpl. rewrite lookup_insert_eq, Hpath.
  rewrite delete_insert_eq, delete_id by done. rewrite manager_eta.
  unfold Os.bind. by rewrite Hsave.
Qed.

(** Without an id given, the id is the second of the call: of two models
    added within the same second the catalogue keeps the second one only,
    under the id that both calls return. *)
Theorem models_added_in_one_second_collide now1 now2 self p1 info1 p2 info2 σ :
  info1 !! "id" = None → info2 !! "id" = None →
  epoch_seconds now1 = epoch_seconds now2 →
  ∃ self1 σ1 self2 σ2 entry2,
    add_model dir_size now1 self p1 info1 σ = (Ret (epoch_seconds now1, self1), σ1)
    ∧ add_model dir_size now2 self1 p2 info2 σ1 = (Ret (epoch_seconds now1, self2), σ2)
    ∧ models self2 !! epoch_seconds now1 = Some entry2
    ∧ entry2 !! "path" = Some (JStr p2)
    ∧ ∀ k, k ≠ epoch_seconds now1 → models self2 !! k = models self !! k.
Proof.
  intros H1 H2 Hsame.
  destruct (add_model_run now1 self p1 info1 σ) as (e1 & σ1 & Hadd1 & _); [by left|].
  rewrite H1 in Hadd1.
  set (self1 := mkModelManager (config_file self)
                  (<[epoch_seconds now1 := e1]> (models self))) in *.
  destruct (add_model_run now2 self1 p2 info2 σ1) as (e2 & σ2 & Hadd2 & Hp2); [by left|].
  rewrite H2, <- Hsame in Hadd2.
  eexists self1, σ1, _, σ2, e2. split; [exact Hadd1|]. split; [exact Hadd2|].
  split_and!; try done.
  - simpl. by rewrite lookup_insert_eq.
  - intros k Hk. simpl. by rewrite !lookup_insert_ne.
Qed.

End AddingProps.

(** ** The path that [restore_model] writes to *)

Section StripSuffix.
Import Sandbox.

Lemma prefix_cons x a y b :
  String.prefix (String x a) (String y b)
  = if ascii_dec x y then String.prefix a b else false.
Proof. reflexivity. Qed.

Lemma prefix_true_app (a b : string) :
  String.prefix a b = true → ∃ r, b = a +:+ r.
Proof.
  revert b. induction a as [|x a IH]; intros b H.
  { by exists b. }
  destruct b as [|y b]; [done|]. simpl in H.
  destruct (ascii_dec x y) as [->|]; [|done].
  destruct (IH b H) as [r ->]. by exists r.
Qed.

(** A prefix without dot of [p] followed by a dot is a prefix of [p]. *)
Lemma prefix_before_dot (a p r : string) :
  (∀ s1 s2, a ≠ s1 +:+ String "." s2) →
  String.prefix a (p +:+ String "." r) = true → String.prefix a p = true.
Proof.
  revert p. induction a as [|x a IH]; intros p Hdot H; [by destruct p|].
  assert (x ≠ "."%char) as Hx.
  { intros ->. by apply (Hdot "" a). }
  assert (∀ s1 s2, a ≠ s1 +:+ String "." s2) as Hdot'.
  { intros s1 s2 ->. by apply (Hdot (String x s1) s2). }
  destruct p as [|y p].
  - change ("" +:+ String "." r) with (String "." r) in H. simpl in H.
    by destruct (ascii_dec x ".").
  - change (String y p +:+ String "." r) with (String y (p +:+ String "." r)) in H.
    simpl in H |- *. destruct (ascii_dec x y); [|done]. by apply IH.
Qed.

Lemma temp_backup_no_dot s1 s2 : "temp_backup" ≠ s1 +:+ String "." s2.
Proof.
  intros H.
  repeat (destruct s1 as [|? s1]; cbv beta iota delta [String.append] in H;
          [discriminate H|]; injection H as _ H).
  destruct s1; cbv beta iota delta [String.append] in H; discriminate H.
Qed.

Lemma prefix_app_true (a r : string) : String.prefix a (a +:+ r) = true.
Proof.
  induction a as [|x a IH]; [by destruct r|].
  change (String x a +:+ r) with (String x (a +:+ r)). rewrite prefix_cons.
  by destruct (ascii_dec x x).
Qed.

Lemma occurs_eq old s :
  Text.occurs old s
  = String.prefix old s || match s with
                           | "" => false
                           | String _ s' => Text.occurs old s'
                           end.
Proof. by destruct s. Qed.

Lemma occurs_false old s :
  Text.occurs old s = false → ∀ s1 s2, s ≠ s1 +:+ old +:+ s2.
Proof.
  intros H s1. revert s H. induction s1 as [|c s1 IH]; intros s H s2 ->.
  - rewrite occurs_eq in H. change ("" +:+ old +:+ s2) with (old +:+ s2) in H.
    by rewrite prefix_app_true in H.
  - rewrite occurs_eq in H.
    change (String c s1 +:+ old +:+ s2) with (String c (s1 +:+ old +:+ s2)) in H.
    apply orb_false_iff in H as [_ H]. by apply (IH _ H s2).
Qed.

(** [restore_model] takes the original of a backup to be the path of the
    backup without [.temp_backup].  For the backup of a file whose path
    holds [.temp_backup] nowhere, this is the path of the file. *)
Theorem restore_target_is_backed_up_file (p : string) :
  Text.occurs ".temp_backup" p = false →
  str_replace ".temp_backup" "" (p +:+ ".temp_backup") = p.
Proof.
  intros Hocc. pose proof (occurs_false _ _ Hocc) as Hfree. clear Hocc. revert Hfree.
  unfold str_replace. induction p as [|c p IH]; intros Hfree; [reflexivity|].
  change (String c p +:+ ".temp_backup") with (String c (p +:+ ".temp_backup")).
  assert (String.prefix ".temp_backup" (String c (p +:+ ".temp_backup")) = false) as Hno.
  { destruct (String.prefix ".temp_backup" (String c (p +:+ ".temp_backup"))) eqn:E; [|done].
    exfalso. rewrite prefix_cons in E. destruct (ascii_dec "." c) as [<-|]; [|done].
    apply (prefix_before_dot "temp_backup" p "temp_backup") in E;
      [|apply temp_backup_no_dot].
    apply prefix_true_app in E as [r ->].
    by apply (Hfree "" r). }
  cbn [replace_go]. rewrite Hno. f_equal. apply IH.
  intros s1 s2 ->. by apply (Hfree (String c s1) s2).
Qed.

End StripSuffix.

(** ** The steps of an evaluation session *)

Section SessionSteps.
Import Sandbox.
Variable pkg : string.

Local Abbreviation S := (Slot.target_path (sentiment_dir pkg)).
Local Abbreviation K := (Slot.temp_backup_path (sentiment_dir pkg)).

Lemma copy_over_run model f σ :
  nodes σ !! S f ≠ Some Dir →
  (∃ e, copy_over model (S f) σ = (Raise e, σ))
  ∨ (∃ n, nodes σ !! model = Some n ∧ n ≠ Dir ∧ model ≠ S f
          ∧ copy_over model (S f) σ = (Ret None, set_nodes (insert (S f) n) σ)).
Proof.
  intros Hfile. unfold copy_over, Os.bind, Os.ret.
  assert (isdir_in σ (S f) = false) as Hdir.
  { unfold isdir_in. destruct (nodes σ !! S f) as [[]|]; done. }
  destruct (shutil_copy2_cases model (S f) σ) as [[e He]|(n & Hn & Hd & Hne & _ & _ & Hc)].
  - left. exists e. by rewrite He.
  - right. exists n. rewrite Hc. rewrite (copy_dest_file _ _ _ Hdir) in *. done.
Qed.

(** [temp_replace_model] never raises.  Without the candidate file, or
    without any slot file, it returns [False] and changes nothing.  It
    writes slot files only and creates none.  When it returns [True], every
    slot file present holds the content of the candidate, which is a file
    and is as before.  The slots are no directories. *)
Theorem temp_replace_puts_candidate model σ :
  (∀ f, f ∈ SLOT_NAMES → nodes σ !! S f ≠ Some Dir) →
  ∃ ok σ',
    temp_replace_model pkg model σ = (Ret ok, σ')
    ∧ denied σ' = denied σ
    ∧ (∀ p, (∀ f, f ∈ SLOT_NAMES → p ≠ S f) → nodes σ' !! p = nodes σ !! p)
    ∧ (∀ f, f ∈ SLOT_NAMES → nodes σ !! S f = None → nodes σ' !! S f = None)
    ∧ (nodes σ !! model = None ∨ (∀ f, f ∈ SLOT_NAMES → nodes σ !! S f = None) →
       ok = false ∧ σ' = σ)
    ∧ (ok = true →
       ∃ n, nodes σ !! model = Some n ∧ n ≠ Dir ∧ nodes σ' !! model = Some n
            ∧ (∃ f, f ∈ SLOT_NAMES ∧ is_Some (nodes σ !! S f))
            ∧ ∀ f, f ∈ SLOT_NAMES → is_Some (nodes σ !! S f) → nodes σ' !! S f = Some n).
Proof.
  intros Hfile.
  destruct (session_paths pkg) as (HS & _ & _).
  assert ("sentiment.marshal" ∈ SLOT_NAMES) as Hm by (unfold SLOT_NAMES; by left).
  assert ("sentiment.marshal.3" ∈ SLOT_NAMES) as Hm3
    by (unfold SLOT_NAMES; right; by left).
  unfold temp_replace_model.
  destruct (exists_in σ model) eqn:Ex; cbv [negb];
    [|exists false, σ; split_and!; try done; auto].
  apply exists_in_true in Ex as [nm Hnm].
  change (for_acc (find_target pkg) SLOT_NAMES [] σ)
    with (for_acc (find_target pkg) ["sentiment.marshal"; "sentiment.marshal.3"] [] σ).
  rewrite for_acc_two, !find_target_run.
  destruct (exists_in σ (S "sentiment.marshal")) eqn:Em,
    (exists_in σ (S "sentiment.marshal.3")) eqn:E3;
    cbv [option_list option_rect app];
    rewrite ?bool_decide_eq_false_2 by done; rewrite ?bool_decide_eq_true_2 by done.
  - (* both slots exist *)
    apply exists_in_true in Em as [xm Hxm]. apply exists_in_true in E3 as [x3 Hx3].
    assert (¬ (nodes σ !! model = None
               ∨ (∀ f, f ∈ SLOT_NAMES → nodes σ !! S f = None))) as Hnot.
    { intros [?|Hall]; [congruence|]. rewrite (Hall _ Hm) in Hxm. done. }
    rewrite for_acc_two.
    destruct (copy_over_run model "sentiment.marshal" σ (Hfile _ Hm))
      as [[e He]|(n & Hn & Hnd & Hne & Hc)]; rewrite ?He, ?Hc.
    { exists false, σ. split_and!; try done; auto. }
    set (σ1 := set_nodes (insert (S "sentiment.marshal") n) σ).
    assert (nodes σ1 !! S "sentiment.marshal.3" = nodes σ !! S "sentiment.marshal.3") as H3.
    { simpl. by rewrite lookup_insert_ne. }
    destruct (copy_over_run model "sentiment.marshal.3" σ1)
      as [[e He]|(n' & Hn' & Hnd' & Hne' & Hc')]; rewrite ?He, ?Hc'.
    { rewrite H3. by apply Hfile. }
    + exists false, σ1. split_and!; try done.
      * intros p Hp. simpl. rewrite lookup_insert_ne; [done|]. apply not_eq_sym. by apply Hp.
      * intros f [-> | ->]%slot_names_inv Hnone; congruence.
    + simpl in Hn'. rewrite lookup_insert_ne in Hn' by (by apply not_eq_sym).
      assert (n' = n) as -> by congruence.
      exists true. eexists. split; [done|]. simpl. split_and!; try done.
      * intros p Hp. rewrite !lookup_insert_ne; [done|..]; apply not_eq_sym; by apply Hp.
      * intros f [-> | ->]%slot_names_inv Hnone; congruence.
      * intros _. exists n. split_and!; try done.
        -- rewrite !lookup_insert_ne; [done|..]; by apply not_eq_sym.
        -- exists "sentiment.marshal". split; [done|eauto].
        -- intros f [-> | ->]%slot_names_inv _.
           ++ rewrite lookup_insert_ne by (by apply not_eq_sym). by rewrite lookup_insert_eq.
           ++ by rewrite lookup_insert_eq.
  - (* only the legacy slot exists *)
    apply exists_in_true in Em as [xm Hxm]. apply exists_in_false in E3.
    assert (¬ (nodes σ !! model = None
               ∨ (∀ f, f ∈ SLOT_NAMES → nodes σ !! S f = None))) as Hnot.
    { intros [?|Hall]; [congruence|]. rewrite (Hall _ Hm) in Hxm. done. }
    rewrite for_acc_one.
    destruct (copy_over_run model "sentiment.marshal" σ (Hfile _ Hm))
      as [[e He]|(n & Hn & Hnd & Hne & Hc)]; rewrite ?He, ?Hc.
    { exists false, σ. split_and!; try done; auto. }
    exists true. eexists. split; [done|]. simpl. split_and!; try done.
    + intros p Hp. rewrite lookup_insert_ne; [done|]. apply not_eq_sym. by apply Hp.
    + intros f [-> | ->]%slot_names_inv Hnone; [congruence|].
      by rewrite lookup_insert_ne.
    + intros _. exists n. split_and!; try done.
      * rewrite lookup_insert_ne; [done|]. by apply not_eq_sym.
      * exists "sentiment.marshal". split; [done|eauto].
      * intros f [-> | ->]%slot_names_inv [x Hx]; [|congruence].
        by rewrite lookup_insert_eq.
  - (* only the slot of Python 3 exists *)
    apply exists_in_true in E3 as [x3 Hx3]. apply exists_in_false in Em.
    assert (¬ (nodes σ !! model = None
               ∨ (∀ f, f ∈ SLOT_NAMES → nodes σ !! S f = None))) as Hnot.
    { intros [?|Hall]; [congruence|]. rewrite (Hall _ Hm3) in Hx3. done. }
    rewrite for_acc_one.
    destruct (copy_over_run model "sentiment.marshal.3" σ (Hfile _ Hm3))
      as [[e He]|(n & Hn & Hnd & Hne & Hc)]; rewrite ?He, ?Hc.
    { exists false, σ. split_and!; try done; auto. }
    exists true. eexists. split; [done|]. simpl. split_and!; try done.
    + intros p Hp. rewrite lookup_insert_ne; [done|]. apply not_eq_sym. by apply Hp.
    + intros f [-> | ->]%slot_names_inv Hnone; [|congruence].
      by rewrite lookup_insert_ne.
    + intros _. exists n. split_and!; try done.
      * rewrite lookup_insert_ne; [done|]. by apply not_eq_sym.
      * exists "sentiment.marshal.3". split; [done|eauto].
      * intros f [-> | ->]%slot_names_inv [x Hx]; [congruence|].
        by rewrite lookup_insert_eq.
  - exists false, σ. split_and!; try done; auto.
Qed.

Lemma backup_one_denied f σ n :
  nodes σ !! S f = Some n → n ≠ Dir →
  isdir_in σ (K f) = false → K f ∈ denied σ →
  backup_one pkg f σ = (Raise (permission_denied (K f)), σ).
Proof.
  intros Hn Hd Hdir Hden. unfold backup_one, Os.bind, os_path_exists, Os.ret.
  fold (S f). change (S f +:+ ".temp_backup") with (K f).
  rewrite (exists_in_Some _ _ _ Hn). unfold shutil_copy2.
  rewrite (copy_dest_file _ _ _ Hdir), Hn, Hdir.
  assert (S f ≠ K f) as Hne by apply not_eq_sym, app_ne_self.
  rewrite (bool_decide_eq_false_2 _ Hne), (bool_decide_eq_true_2 _ Hden).
  by destruct n.
Qed.

(** [backup_current_model] never raises and writes at the two
    [.temp_backup] paths only.  It gives up, returning [None], exactly when
    the backup path of a slot file present cannot be written; otherwise it
    lists the backup of every slot file present, legacy slot first, and
    each backup holds the content of its slot.  The slots and the backup
    paths are no directories. *)
Theorem backup_current_model_outcomes σ :
  (∀ f, f ∈ SLOT_NAMES → nodes σ !! S f ≠ Some Dir) →
  (∀ f, f ∈ SLOT_NAMES → isdir_in σ (K f) = false) →
  ∃ o σ',
    backup_current_model pkg σ = (Ret o, σ')
    ∧ denied σ' = denied σ
    ∧ (∀ p, (∀ f, f ∈ SLOT_NAMES → p ≠ K f) → nodes σ' !! p = nodes σ !! p)
    ∧ (o = None ↔ ∃ f, f ∈ SLOT_NAMES ∧ is_Some (nodes σ !! S f) ∧ K f ∈ denied σ)
    ∧ (∀ l, o = Some l →
         l = (if exists_in σ (S "sentiment.marshal") then [K "sentiment.marshal"] else [])
             ++ (if exists_in σ (S "sentiment.marshal.3") then [K "sentiment.marshal.3"] else [])
         ∧ ∀ f n, f ∈ SLOT_NAMES → nodes σ !! S f = Some n → nodes σ' !! K f = Some n).
Proof.
  intros Hfile Hkd.
  assert ((∃ f, f ∈ SLOT_NAMES ∧ is_Some (nodes σ !! S f) ∧ K f ∈ denied σ)
          ∨ ¬ (∃ f, f ∈ SLOT_NAMES ∧ is_Some (nodes σ !! S f) ∧ K f ∈ denied σ))
    as [Hbad|Hgood].
  { destruct (decide (is_Some (nodes σ !! S "sentiment.marshal")
                      ∧ K "sentiment.marshal" ∈ denied σ)) as [[? ?]|N1].
    { left. exists "sentiment.marshal". split_and!; try done. unfold SLOT_NAMES. by left. }
    destruct (decide (is_Some (nodes σ !! S "sentiment.marshal.3")
                      ∧ K "sentiment.marshal.3" ∈ denied σ)) as [[? ?]|N3].
    { left. exists "sentiment.marshal.3". split_and!; try done.
      unfold SLOT_NAMES. right. by left. }
    right. intros (f & [-> | ->]%slot_names_inv & ? & ?); tauto. }
  - (* a backup path is refused *)
    destruct (session_paths pkg) as (HS & HK & HKS).
    assert ("sentiment.marshal" ∈ SLOT_NAMES) as Hm by (unfold SLOT_NAMES; by left).
    assert ("sentiment.marshal.3" ∈ SLOT_NAMES) as Hm3
      by (unfold SLOT_NAMES; right; by left).
    unfold backup_current_model.
    change (for_acc (backup_one pkg) SLOT_NAMES [] σ)
      with (for_acc (backup_one pkg) ["sentiment.marshal"; "sentiment.marshal.3"] [] σ).
    rewrite for_acc_two.
    destruct (nodes σ !! S "sentiment.marshal") as [nm|] eqn:Em.
    + destruct (decide (K "sentiment.marshal" ∈ denied σ)) as [Hdm|Hdm].
      * rewrite (backup_one_denied _ σ nm); try done;
          [|intros ->; exact (Hfile _ Hm Em)|by apply Hkd].
        exists None, σ. split_and!; try done.
      * rewrite (backup_one_ok _ _ σ nm); try done;
          [|intros ->; exact (Hfile _ Hm Em)|by apply Hkd].
        destruct Hbad as (f & [-> | ->]%slot_names_inv & [n3 E3] & Hd3); [done|].
        rewrite (backup_one_denied _ _ n3); try done.
        -- eexists None, _. split; [done|]. simpl. split_and!; try done.
           ++ intros p Hp. rewrite lookup_insert_ne; [done|]. apply not_eq_sym. by apply Hp.
           ++ split; [|done]. intros _. exists "sentiment.marshal.3". eauto.
        -- simpl. rewrite lookup_insert_ne; [done|]. by apply HKS.
        -- intros ->. exact (Hfile _ Hm3 E3).
        -- rewrite (isdir_in_agree σ); [by apply Hkd|]. simpl. by rewrite lookup_insert_ne.
    + rewrite backup_one_absent by done.
      destruct Hbad as (f & [-> | ->]%slot_names_inv & [n3 E3] & Hd3); [congruence|].
      rewrite (backup_one_denied _ _ n3); try done;
        [|intros ->; exact (Hfile _ Hm3 E3)|by apply Hkd].
      exists None, σ. split_and!; try done.
      split; [|done]. intros _. exists "sentiment.marshal.3". eauto.
  - (* every backup path needed can be written *)
    destruct (backup_phase pkg σ Hfile) as (σb & Hb & Hdb & Hbo & HbK & HbN).
    { intros f Hf Hsome. split; [by apply Hkd|]. intros Hd. apply Hgood. eauto. }
    eexists _, σb. split; [exact Hb|]. split_and!; try done.
    + intros p Hp. apply Hbo; apply Hp; unfold SLOT_NAMES; [by left|right; by left].
    + intros l Heq. simplify_eq. split; [done|]. intros f n Hf Hn. by apply HbK.
Qed.

End SessionSteps.

(** ** Scoring a model on a data set *)

Section Scoring.
Import Ranking.

(** The sample was scored, and was scored right. *)
Local Abbreviation scored score :=
  (fun s : string * Z => match score s.1 with Ret _ => true | Raise _ => false end).
Local Abbreviation hit score :=
  (fun s : string * Z =>
     match score s.1 with
     | Ret q => bool_decide ((if Qle_bool q (1 # 2) then 0%Z else 1%Z) = s.2)
     | Raise _ => false
     end).

Lemma evaluate_acc score samples c t :
  evaluate score samples c t
  = (c + length (List.filter (hit score) samples),
     t + length (List.filter (scored score) samples))%nat.
Proof.
  revert c t. induction samples as [|[text label] samples IH]; intros c t; simpl.
  { f_equal; lia. }
  destruct (score text) as [q|e]; rewrite IH; [|done].
  destruct (bool_decide _); simpl; f_equal; lia.
Qed.

Lemma filter_hit_le score samples :
  (length (List.filter (hit score) samples)
   <= length (List.filter (scored score) samples))%nat.
Proof.
  induction samples as [|[text label] samples IH]; simpl; [done|].
  destruct (score text) as [q|e]; [|done].
  destruct (bool_decide _); simpl; lia.
Qed.

Lemma ratio_unit c t : (c <= t)%nat → (0 <= ratio c t)%Q ∧ (ratio c t <= 1)%Q.
Proof.
  intros Hle. unfold ratio. destruct (bool_decide (0 < t)%nat) eqn:E.
  - apply bool_decide_eq_true in E. destruct t as [|t]; [lia|].
    unfold Qle. cbn [Qnum Qden]. rewrite <- Pos.of_nat_succ, Zpos_P_of_succ_nat. lia.
  - split; unfold Qle; simpl; lia.
Qed.

(** The accuracy of a model on a data set: [total] counts the samples that
    could be scored and [correct] those among them whose score falls on
    the side of their label, a score above one half standing for label 1;
    so [correct <= total <= len(samples)], the accuracy lies between 0
    and 1, and it is 0, not a division by zero, when no sample could be
    scored. *)
Theorem accuracy_counts_scored_samples score samples :
  let correct := (evaluate score samples 0 0).1 in
  let total := (evaluate score samples 0 0).2 in
  total = length (List.filter (scored score) samples)
  ∧ correct = length (List.filter (hit score) samples)
  ∧ (correct <= total)%nat ∧ (total <= length samples)%nat
  ∧ (0 <= ratio correct total)%Q ∧ (ratio correct total <= 1)%Q
  ∧ (total = 0%nat → ratio correct total = 0%Q).
Proof.
  cbv zeta. rewrite evaluate_acc. simpl.
  pose proof (filter_hit_le score samples) as Hle.
  split_and!; try done.
  - apply List.filter_length_le.
  - by apply ratio_unit.
  - by apply ratio_unit.
  - intros H. unfold ratio. rewrite H. done.
Qed.




End Scoring.

(** ** The basic test *)

Section BasicTestProps.
Import BasicTest Ranking.

(** The case counts, and counts as correct. *)
Local Abbreviation counted score :=
  (fun c : string * label =>
     match score c.1 with
     | Ret _ => negb (label_eqb c.2 Neutral)
     | Raise _ => false
     end).
Local Abbreviation right score :=
  (fun c : string * label =>
     match score c.1 with
     | Ret s => negb (label_eqb c.2 Neutral) && label_eqb (predict s) c.2
     | Raise _ => false
     end).

Lemma run_cases_acc score cases c t :
  run_cases score cases c t
  = (c + length (List.filter (right score) cases),
     t + length (List.filter (counted score) cases))%nat.
Proof.
  revert c t. induction cases as [|[text expected] cases IH]; intros c t; simpl.
  { f_equal; lia. }
  destruct (score text) as [s|e]; [|by rewrite IH].
  destruct (label_eqb expected Neutral); simpl; rewrite IH; [done|].
  destruct (label_eqb (predict s) expected); simpl; f_equal; lia.
Qed.

Lemma right_le_counted (score : string → outcome Q) cases :
  (length (List.filter (right score) cases)
   <= length (List.filter (counted score) cases))%nat.
Proof.
  induction cases as [|[text expected] cases IH]; simpl; [done|].
  destruct (score text) as [s|e]; [|done].
  destruct (label_eqb expected Neutral); simpl; [done|].
  destruct (label_eqb (predict s) expected); simpl; lia.
Qed.

Lemma counted_le_not_neutral (score : string → outcome Q) cases :
  (length (List.filter (counted score) cases)
   <= length (List.filter (fun c => negb (label_eqb c.2 Neutral)) cases))%nat.
Proof.
  induction cases as [|[text expected] cases IH]; simpl; [done|].
  destruct (score text) as [s|e]; destruct (label_eqb expected Neutral); simpl; lia.
Qed.

Lemma run_cases_ext score score' cases c t :
  (∀ text expected, (text, expected) ∈ cases → expected ≠ Neutral →
                    score text = score' text) →
  run_cases score cases c t = run_cases score' cases c t.
Proof.
  revert c t. induction cases as [|[text expected] cases IH]; intros c t Hsame; [done|].
  assert (∀ c t, run_cases score cases c t = run_cases score' cases c t) as Hrest.
  { intros c' t'. apply IH. intros text' e' Hin. apply Hsame. by right. }
  simpl. destruct expected.
  - rewrite <- (Hsame text Positive) by (by left || done).
    destruct (score text); simpl; by rewrite Hrest.
  - rewrite <- (Hsame text Negative) by (by left || done).
    destruct (score text); simpl; by rewrite Hrest.
  - destruct (score text), (score' text); simpl; by rewrite Hrest.
Qed.

(** The accuracy of the basic test is [correct / total] over the test
    cases that are not expected neutral and could be scored: fourteen at
    most.  It lies between 0 and 1 and is 0 when no such case could be
    scored.  The cases expected neutral are scored but not counted: two
    scorings that agree on the other cases give the same accuracy, whatever
    they do on the neutral ones. *)
Theorem basic_test_counts_decided_cases score :
  let correct := (run_cases score test_cases 0 0).1 in
  let total := (run_cases score test_cases 0 0).2 in
  run_basic_test score = ratio correct total
  ∧ total = length (List.filter (counted score) test_cases)
  ∧ correct = length (List.filter (right score) test_cases)
  ∧ (correct <= total)%nat ∧ (total <= 14)%nat
  ∧ (0 <= run_basic_test score)%Q ∧ (run_basic_test score <= 1)%Q
  ∧ (total = 0%nat → run_basic_test score = 0%Q)
  ∧ (∀ score',
       (∀ text expected, (text, expected) ∈ test_cases → expected ≠ Neutral →
                         score' text = score text) →
       run_basic_test score' = run_basic_test score).
Proof.
  cbv zeta.
  assert (run_basic_test score
          = ratio (length (List.filter (right score) test_cases))
                  (length (List.filter (counted score) test_cases))) as Hacc.
  { unfold run_basic_test. by rewrite run_cases_acc. }
  rewrite run_cases_acc. cbn [fst snd plus].
  pose proof (right_le_counted score test_cases) as Hle.
  pose proof (counted_le_not_neutral score test_cases) as Hcap.
  change (length (List.filter (fun c => negb (label_eqb c.2 Neutral)) test_cases))
    with 14%nat in Hcap.
  split_and!; try done.
  - rewrite Hacc. by apply ratio_unit.
  - rewrite Hacc. by apply ratio_unit.
  - intros H. rewrite Hacc. unfold ratio. by rewrite H.
  - intros score' Hsame. unfold run_basic_test.
    by rewrite (run_cases_ext score' score test_cases 0 0 Hsame).
Qed.

End BasicTestProps.

(** ** The comparison of catalogue models leaves the slots alone *)

Section CompareSession.
Import Sandbox Ranking.
Variable pkg : string.
Variable score : fs → string → outcome Q.

Local Abbreviation S := (Slot.target_path (sentiment_dir pkg)).
Local Abbreviation K := (Slot.temp_backup_path (sentiment_dir pkg)).




Section Invariant.

(** The state before the session, the state after its backups, and the
    document of the catalogue, which is none of the paths of the session. *)
Variables (σ σb : fs) (cfg : string).
Hypothesis Hcfg : ∀ f, f ∈ SLOT_NAMES → cfg ≠ S f ∧ cfg ≠ K f.

(** What holds of a state reached by replacements and saves. *)
Local Abbreviation inv σx :=
  (denied σx = denied σ
   ∧ (∀ f, f ∈ SLOT_NAMES → nodes σx !! K f = nodes σb !! K f)
   ∧ (∀ f, f ∈ SLOT_NAMES →
           nodes σx !! S f ≠ Some Dir
           ∧ (nodes σ !! S f = None → nodes σx !! S f = None)
           ∧ (is_Some (nodes σ !! S f) → is_Some (nodes σx !! S f)))
   ∧ (nodes σx !! S "sentiment.marshal" = nodes σ !! S "sentiment.marshal"
      ∨ S "sentiment.marshal" ∉ denied σ)
   ∧ (nodes σx !! S "sentiment.marshal.3" = nodes σ !! S "sentiment.marshal.3"
      ∨ ((S "sentiment.marshal.3" ∉ denied σ)
         ∧ (is_Some (nodes σ !! S "sentiment.marshal") →
            S "sentiment.marshal" ∉ denied σ)))).





End Invariant.


End CompareSession.

(** ** The manual replacement *)

Section ManualProps.
Import Sandbox Manual.
Context {rt : Runtime}.
Variable dir_size : Z.
Variable pkg : string.

Local Abbreviation S := (Slot.target_path (sentiment_dir pkg)).
Local Abbreviation BM := (fun f => Slot.target_path (sentiment_dir pkg) f +:+ ".backup_manual").

(** The file at [p] has more than 50000 bytes. *)
Local Abbreviation large σ :=
  (fun p => match (Adding.os_path_getsize dir_size p σ).1 with
            | Ret z => bool_decide (50000 < z)%Z
            | Raise _ => false
            end).

Lemma find_source_run fnames σ :
  find_source dir_size fnames σ = (Ret (List.find (large σ) fnames), σ).
Proof.
  induction fnames as [|fname fnames IH]; [done|].
  cbn [find_source List.find]. unfold Os.bind at 1, os_path_exists.
  unfold exists_in, Adding.os_path_getsize in *.
  destruct (nodes σ !! fname) as [[| |]|] eqn:E.
  - rewrite bool_decide_eq_true_2 by eauto. unfold Os.bind. rewrite E. simpl.
    by destruct (bool_decide (50000 < _)%Z).
  - rewrite bool_decide_eq_true_2 by eauto. unfold Os.bind. rewrite E. simpl.
    by destruct (bool_decide (50000 < _)%Z).
  - rewrite bool_decide_eq_true_2 by eauto. unfold Os.bind. rewrite E. simpl.
    by destruct (bool_decide (50000 < _)%Z).
  - rewrite bool_decide_eq_false_2; [done|]. by intros [? ?].
Qed.

Lemma manual_paths :
  S "sentiment.marshal" ≠ S "sentiment.marshal.3"
  ∧ BM "sentiment.marshal" ≠ BM "sentiment.marshal.3"
  ∧ (∀ f g, f ∈ SLOT_NAMES → g ∈ SLOT_NAMES → BM f ≠ S g)
  ∧ (∀ f g x, f ∈ SLOT_NAMES → g ∈ SLOT_NAMES → BM f ≠ S g +:+ String "/" x).
Proof.
  split_and!; [path_ne|path_ne| |].
  - intros f g [-> | ->]%slot_names_inv [-> | ->]%slot_names_inv; path_ne.
  - intros f g x [-> | ->]%slot_names_inv [-> | ->]%slot_names_inv; path_ne.
Qed.

Lemma backup_manual_one_run f σ n :
  nodes σ !! S f = Some n → n ≠ Dir →
  (nodes σ !! BM f = None → BM f ∉ denied σ) →
  ∃ σ1, backup_manual_one (S f) σ = (Ret None, σ1)
        ∧ denied σ1 = denied σ
        ∧ (∀ p, p ≠ BM f → nodes σ1 !! p = nodes σ !! p)
        ∧ (∀ p x, nodes σ !! p = Some x → nodes σ1 !! p = Some x)
        ∧ nodes σ1 !! BM f = match nodes σ !! BM f with
                             | Some b => Some b
                             | None => Some n
                             end.
Proof.
  intros Hn Hd Hw. unfold backup_manual_one, Os.bind, os_path_exists, Os.ret.
  destruct (nodes σ !! BM f) as [b|] eqn:Eb.
  - rewrite (exists_in_Some _ _ _ Eb). simpl. exists σ. by split_and!.
  - rewrite (exists_in_None _ _ Eb). simpl. unfold shutil_copy2.
    rewrite (copy_dest_file _ _ _ (isdir_in_None _ _ Eb)), Hn, (isdir_in_None _ _ Eb).
    assert (S f ≠ BM f) as Hne by apply not_eq_sym, app_ne_self.
    rewrite (bool_decide_eq_false_2 _ Hne), (bool_decide_eq_false_2 _ (Hw eq_refl)).
    assert (∀ p x, nodes σ !! p = Some x → p ≠ BM f) as Hex by (intros p x ? ->; congruence).
    destruct n as [b|d|]; [| |done].
    all: eexists; (split; [done|]); simpl; split_and!.
    all: try done.
    all: try (by rewrite lookup_insert_eq).
    all: try (intros p Hp; by rewrite lookup_insert_ne).
    all: intros p x Hp; rewrite lookup_insert_ne; [done|]; apply not_eq_sym; by eapply Hex.
Qed.

Lemma replace_manual_one_run src f σ n :
  nodes σ !! src = Some n → n ≠ Dir → src ≠ S f →
  nodes σ !! S f ≠ Some Dir → S f ∉ denied σ →
  replace_manual_one dir_size src (S f) σ
  = (Ret (Some tt), set_nodes (insert (S f) n) σ).
Proof.
  intros Hn Hd Hne Hfile Hw.
  assert (isdir_in σ (S f) = false) as Hdir.
  { unfold isdir_in. destruct (nodes σ !! S f) as [[]|]; done. }
  unfold replace_manual_one, try_except, Os.bind, shutil_copy2.
  rewrite (copy_dest_file _ _ _ Hdir), Hn, Hdir.
  rewrite (bool_decide_eq_false_2 _ Hne), (bool_decide_eq_false_2 _ Hw).
  unfold Adding.os_path_getsize.
  destruct n; try done; simpl; by rewrite lookup_insert_eq.
Qed.

(** The manual replacement installs the first candidate of more than
    50000 bytes, whatever it holds: with such a file, slot files that can
    be written and a [.backup_manual] path that can be written for each of
    them, it reports as many replacements as there are slot files; each
    slot file then holds the content of the candidate, and its
    [.backup_manual] holds what it held before the call if there was such a
    backup, and the former content of the slot otherwise.  Nothing else is
    written.  The candidate is not a slot file and the slots are no
    directories. *)
Theorem manual_replace_installs_first_large_file src n σ :
  List.find (large σ) possible_files = Some src →
  nodes σ !! src = Some n → n ≠ Dir →
  (∀ f, f ∈ SLOT_NAMES → nodes σ !! S f ≠ Some Dir) →
  (∃ f, f ∈ SLOT_NAMES ∧ is_Some (nodes σ !! S f)) →
  (∀ f, f ∈ SLOT_NAMES → is_Some (nodes σ !! S f) →
        src ≠ S f ∧ (S f ∉ denied σ) ∧ (BM f ∉ denied σ)) →
  ∃ σ',
    manual_replace_worker dir_size pkg σ
    = (Ret (Replaced (length (List.filter (fun f => exists_in σ (S f)) SLOT_NAMES))), σ')
    ∧ denied σ' = denied σ
    ∧ (∀ f, f ∈ SLOT_NAMES → is_Some (nodes σ !! S f) →
            nodes σ' !! S f = Some n
            ∧ nodes σ' !! BM f = match nodes σ !! BM f with
                                 | Some b => Some b
                                 | None => nodes σ !! S f
                                 end)
    ∧ (∀ p, (∀ f, f ∈ SLOT_NAMES → is_Some (nodes σ !! S f) → p ≠ S f ∧ p ≠ BM f) →
            nodes σ' !! p = nodes σ !! p).
Proof.
  intros Hfind Hsrc Hnd Hfile [f0 [Hf0 Hex0]] Hok.
  destruct manual_paths as (HS & HB & HBS & _).
  assert ("sentiment.marshal" ∈ SLOT_NAMES) as Hm by (unfold SLOT_NAMES; by left).
  assert ("sentiment.marshal.3" ∈ SLOT_NAMES) as Hm3
    by (unfold SLOT_NAMES; right; by left).
  unfold manual_replace_worker. rewrite find_source_run, Hfind.
  change (for_acc (find_target pkg) SLOT_NAMES [] σ)
    with (for_acc (find_target pkg) ["sentiment.marshal"; "sentiment.marshal.3"] [] σ).
  rewrite for_acc_two, !find_target_run.
  change (List.filter (fun f => exists_in σ (S f)) SLOT_NAMES)
    with (List.filter (fun f => exists_in σ (S f))
            ["sentiment.marshal"; "sentiment.marshal.3"]).
  cbn [List.filter].
  destruct (nodes σ !! S "sentiment.marshal") as [nm|] eqn:Em,
    (nodes σ !! S "sentiment.marshal.3") as [n3|] eqn:E3;
    rewrite ?(exists_in_Some _ _ _ Em), ?(exists_in_Some _ _ _ E3),
      ?(exists_in_None _ _ Em), ?(exists_in_None _ _ E3);
    cbv [option_list option_rect app];
    rewrite ?bool_decide_eq_false_2 by done.
  - (* both slots *)
    destruct (Hok _ Hm) as (Hsm & Hwm & Hbm); [by rewrite Em|].
    destruct (Hok _ Hm3) as (Hs3 & Hw3 & Hb3); [by rewrite E3|].
    rewrite for_acc_two.
    destruct (backup_manual_one_run "sentiment.marshal" σ nm)
      as (σ1 & -> & Hd1 & Ho1 & He1 & Hk1); [done|intros ->; exact (Hfile _ Hm Em)|done|].
    destruct (backup_manual_one_run "sentiment.marshal.3" σ1 n3)
      as (σ2 & -> & Hd2 & Ho2 & He2 & Hk2).
    { rewrite Ho1; [done|]. by apply not_eq_sym, HBS. }
    { intros ->. exact (Hfile _ Hm3 E3). }
    { intros _. by rewrite Hd1. }
    rewrite for_acc_two.
    rewrite (replace_manual_one_run src "sentiment.marshal" σ2 n); try done.
    2:{ by apply He2, He1. }
    2:{ rewrite Ho2, Ho1; [by apply Hfile|..]; by apply not_eq_sym, HBS. }
    2:{ by rewrite Hd2, Hd1. }
    rewrite (replace_manual_one_run src "sentiment.marshal.3" _ n); try done.
    2:{ simpl. rewrite lookup_insert_ne by (by apply not_eq_sym). by apply He2, He1. }
    2:{ simpl. rewrite lookup_insert_ne by done.
        rewrite Ho2, Ho1; [by apply Hfile|..]; by apply not_eq_sym, HBS. }
    2:{ simpl. by rewrite Hd2, Hd1. }
    simpl. eexists. split; [done|]. simpl. split_and!.
    + congruence.
    + intros f [-> | ->]%slot_names_inv _.
      * rewrite lookup_insert_ne by (by apply not_eq_sym). rewrite lookup_insert_eq.
        split; [done|]. rewrite !lookup_insert_ne by (apply not_eq_sym; by apply HBS).
        rewrite Ho2 by done. rewrite Hk1, Em. by destruct (nodes σ !! BM "sentiment.marshal").
      * rewrite lookup_insert_eq. split; [done|].
        rewrite !lookup_insert_ne by (apply not_eq_sym; by apply HBS).
        rewrite Hk2, Ho1 by (by apply not_eq_sym). rewrite E3.
        by destruct (nodes σ !! BM "sentiment.marshal.3").
    + intros p Hp.
      destruct (Hp _ Hm) as [? ?]; [by rewrite Em|].
      destruct (Hp _ Hm3) as [? ?]; [by rewrite E3|].
      rewrite !lookup_insert_ne by done. by rewrite Ho2, Ho1.
  - (* the legacy slot only *)
    destruct (Hok _ Hm) as (Hsm & Hwm & Hbm); [by rewrite Em|].
    rewrite for_acc_one.
    destruct (backup_manual_one_run "sentiment.marshal" σ nm)
      as (σ1 & -> & Hd1 & Ho1 & He1 & Hk1); [done|intros ->; exact (Hfile _ Hm Em)|done|].
    rewrite for_acc_one.
    rewrite (replace_manual_one_run src "sentiment.marshal" σ1 n); try done.
    2:{ by apply He1. }
    2:{ rewrite Ho1; [by apply Hfile|]. by apply not_eq_sym, HBS. }
    2:{ by rewrite Hd1. }
    simpl. eexists. split; [done|]. simpl. split_and!.
    + congruence.
    + intros f [-> | ->]%slot_names_inv [x Hx]; [|congruence].
      rewrite lookup_insert_eq. split; [done|].
      rewrite lookup_insert_ne by (apply not_eq_sym; by apply HBS). rewrite Hk1, Em.
      by destruct (nodes σ !! BM "sentiment.marshal").
    + intros p Hp. destruct (Hp _ Hm) as [? ?]; [by rewrite Em|].
      rewrite lookup_insert_ne by done. by rewrite Ho1.
  - (* the slot of Python 3 only *)
    destruct (Hok _ Hm3) as (Hs3 & Hw3 & Hb3); [by rewrite E3|].
    rewrite for_acc_one.
    destruct (backup_manual_one_run "sentiment.marshal.3" σ n3)
      as (σ1 & -> & Hd1 & Ho1 & He1 & Hk1); [done|intros ->; exact (Hfile _ Hm3 E3)|done|].
    rewrite for_acc_one.
    rewrite (replace_manual_one_run src "sentiment.marshal.3" σ1 n); try done.
    2:{ by apply He1. }
    2:{ rewrite Ho1; [by apply Hfile|]. by apply not_eq_sym, HBS. }
    2:{ by rewrite Hd1. }
    simpl. eexists. split; [done|]. simpl. split_and!.
    + congruence.
    + intros f [-> | ->]%slot_names_inv [x Hx]; [congruence|].
      rewrite lookup_insert_eq. split; [done|].
      rewrite lookup_insert_ne by (apply not_eq_sym; by apply HBS). rewrite Hk1, E3.
      by destruct (nodes σ !! BM "sentiment.marshal.3").
    + intros p Hp. destruct (Hp _ Hm3) as [? ?]; [by rewrite E3|].
      rewrite lookup_insert_ne by done. by rewrite Ho1.
  - (* no slot *)
    apply slot_names_inv in Hf0 as [-> | ->]; destruct Hex0; congruence.
Qed.

Lemma backup_manual_one_keeps f g b σ :
  f ∈ SLOT_NAMES → g ∈ SLOT_NAMES →
  nodes σ !! BM f = Some b →
  nodes (backup_manual_one (S g) σ).2 !! BM f = Some b.
Proof.
  intros Hf Hg Hb. unfold backup_manual_one, Os.bind, os_path_exists, Os.ret.
  destruct (exists_in σ (BM g)) eqn:Eg; simpl; [done|].
  apply exists_in_false in Eg.
  destruct (shutil_copy2_cases (S g) (BM g) σ) as [[e ->]|(n & _ & _ & _ & _ & _ & ->)];
    [done|].
  rewrite (copy_dest_file _ _ _ (isdir_in_None _ _ Eg)). simpl.
  rewrite lookup_insert_ne; [done|]. intros Heq. congruence.
Qed.

Lemma replace_manual_one_keeps src f g b σ :
  f ∈ SLOT_NAMES → g ∈ SLOT_NAMES →
  nodes σ !! BM f = Some b →
  nodes (replace_manual_one dir_size src (S g) σ).2 !! BM f = Some b.
Proof.
  intros Hf Hg Hb.
  destruct manual_paths as (_ & _ & HBS & HBSin).
  unfold replace_manual_one, try_except, Os.bind, Os.ret.
  destruct (shutil_copy2_cases src (S g) σ) as [[e ->]|(n & _ & _ & _ & _ & _ & ->)];
    [done|].
  assert (g ∈ BACKUP_NAMES) as Hg'.
  { apply slot_names_inv in Hg as [-> | ->]; [apply m2_name|apply m3_name]. }
  destruct (target_shape (sentiment_dir pkg) g Hg') as (c & r & Hshape & Hends).
  assert (nodes (set_nodes (insert (copy_dest σ src (S g)) n) σ) !! BM f = Some b) as Hkeep.
  { simpl. rewrite lookup_insert_ne; [done|].
    rewrite Hshape. destruct (copy_dest_suffix σ src (Slot.dir_prefix (sentiment_dir pkg)) c r Hends)
      as [-> | ->];
      rewrite <- Hshape; apply not_eq_sym; [by apply HBS|by apply HBSin]. }
  by destruct (Adding.os_path_getsize dir_size (S g) _) as [[z|e] σ'] eqn:E;
    unfold Adding.os_path_getsize in E; repeat case_match; simplify_eq.
Qed.

(** An existing [.backup_manual] is never overwritten: whatever the
    manual replacement does, the backup holds afterwards what it held
    before. *)
Theorem manual_backup_is_kept f b σ :
  f ∈ SLOT_NAMES →
  nodes σ !! BM f = Some b →
  nodes (manual_replace_worker dir_size pkg σ).2 !! BM f = Some b.
Proof.
  intros Hf Hb.
  assert ("sentiment.marshal" ∈ SLOT_NAMES) as Hm by (unfold SLOT_NAMES; by left).
  assert ("sentiment.marshal.3" ∈ SLOT_NAMES) as Hm3
    by (unfold SLOT_NAMES; right; by left).
  assert (∀ ts, (∀ t, t ∈ ts → ∃ g, g ∈ SLOT_NAMES ∧ t = S g) →
            ∀ σa, nodes σa !! BM f = Some b →
              nodes (for_acc backup_manual_one ts [] σa).2 !! BM f = Some b) as Hbk.
  { intros ts Hts σa Ha.
    apply (for_acc_ind (fun _ σx => nodes σx !! BM f = Some b) backup_manual_one ts);
      [| |done].
    - intros t acc σx o σy [g [Hg ->]]%Hts Hx Hstep.
      pose proof (backup_manual_one_keeps f g b σx Hf Hg Hx) as H. by rewrite Hstep in H.
    - intros t acc σx e σy [g [Hg ->]]%Hts Hx Hstep.
      pose proof (backup_manual_one_keeps f g b σx Hf Hg Hx) as H. by rewrite Hstep in H. }
  assert (∀ src ts, (∀ t, t ∈ ts → ∃ g, g ∈ SLOT_NAMES ∧ t = S g) →
            ∀ σa, nodes σa !! BM f = Some b →
              nodes (for_acc (replace_manual_one dir_size src) ts [] σa).2 !! BM f = Some b)
    as Hrp.
  { intros src ts Hts σa Ha.
    apply (for_acc_ind (fun _ σx => nodes σx !! BM f = Some b)
             (replace_manual_one dir_size src) ts); [| |done].
    - intros t acc σx o σy [g [Hg ->]]%Hts Hx Hstep.
      pose proof (replace_manual_one_keeps src f g b σx Hf Hg Hx) as H.
      by rewrite Hstep in H.
    - intros t acc σx e σy [g [Hg ->]]%Hts Hx Hstep.
      pose proof (replace_manual_one_keeps src f g b σx Hf Hg Hx) as H.
      by rewrite Hstep in H. }
  unfold manual_replace_worker. rewrite find_source_run.
  destruct (List.find (large σ) possible_files) as [src|]; [|done].
  change (for_acc (find_target pkg) SLOT_NAMES [] σ)
    with (for_acc (find_target pkg) ["sentiment.marshal"; "sentiment.marshal.3"] [] σ).
  rewrite for_acc_two, !find_target_run.
  set (ts := option_list (if exists_in σ (S "sentiment.marshal")
                          then Some (S "sentiment.marshal") else None)
             ++ option_list (if exists_in σ (S "sentiment.marshal.3")
                             then Some (S "sentiment.marshal.3") else None)).
  assert (∀ t, t ∈ ts → ∃ g, g ∈ SLOT_NAMES ∧ t = S g) as Hts.
  { intros t. unfold ts.
    destruct (exists_in σ (S "sentiment.marshal")), (exists_in σ (S "sentiment.marshal.3"));
      simpl; rewrite ?elem_of_cons, ?elem_of_nil; intros H;
      repeat (destruct H as [->|H]; [eauto|]); done. }
  destruct (bool_decide (ts = [])); [done|].
  specialize (Hbk ts Hts σ Hb).
  destruct (for_acc backup_manual_one ts [] σ) as [[acc [e|]] σ3]; [done|].
  specialize (Hrp src ts Hts σ3 Hbk).
  by destruct (for_acc (replace_manual_one dir_size src) ts [] σ3) as [[done_ ?] σ4].
Qed.

End ManualProps.

(** ** The statements on small states *)


Lemma deploy_succeeds_when_writable_witness :
  ∃ σ',
    safe_replace_snownlp_model "/work/x.marshal" (Some Demo.dir) true Demo.fresh_install
    = (Ret (mkReplaceResult true (Some Demo.dir) (get_effective_model_filenames true) None),
       σ').
Proof.
  apply (deploy_succeeds_when_writable "/work/x.marshal" Demo.dir true Demo.fresh_install
           (Blob Demo.model_x)).
  - done.
  - vm_compute. reflexivity.
  - vm_compute. reflexivity.
  - vm_compute. reflexivity.
  - intros f Hf. apply targets_backup_names, backup_names_inv in Hf as [-> | ->];
      (split; [vm_compute; discriminate|]);
      (split; [vm_compute; reflexivity|]); (split; [vm_compute; reflexivity|]);
      split_and!; unfold Demo.fresh_install, Demo.mk_fs; simpl; apply not_elem_of_empty.
Defined.

(** Another model in the working directory is not touched by a call. *)
Lemma deploy_touches_slot_paths_only_witness :
  nodes (safe_replace_snownlp_model "/work/x.marshal" (Some Demo.dir) true
           Demo.fresh_install).2 !! "/work/y.marshal"
  = nodes Demo.fresh_install !! "/work/y.marshal".
Proof.
  apply deploy_touches_slot_paths_only.
  intros f [-> | ->]%backup_names_inv; split_and!; vm_compute; discriminate.
Defined.



(** Renaming an entry keeps its path. *)
Lemma update_model_merges_fields_witness :
  ∃ self' σ' info',
    Catalog.update_model Demo.stale_manager "1" {[ "name" := JStr "renamed" ]}
      Demo.document_written = (Ret self', σ')
    ∧ Catalog.models self' !! "1" = Some info'
    ∧ info' !! "name" = Some (JStr "renamed")
    ∧ info' !! "path" = Some (JStr "/work/x.marshal").
Proof.
  destruct (update_model_merges_fields Demo.stale_manager "1" {[ "name" := JStr "renamed" ]}
              (Demo.entry_of "/work/x.marshal" "model x") Demo.document_written)
    as (self' & σ' & info' & Hrun & _ & Hm & Hkeys & _).
  - vm_compute. reflexivity.
  - exists self', σ', info'. split; [exact Hrun|]. split; [exact Hm|].
    split; rewrite Hkeys; vm_compute; reflexivity.
Defined.

Lemma get_model_list_twice_witness :
  Catalog.get_model_list
    (Catalog.mkModelManager "model_history.json"
       {[ "1" := Demo.entry_of "/work/x.marshal" "model x" ]})
    (Catalog.get_model_list Demo.stale_manager Demo.document_written).2
  = (Ret ({[ "1" := Demo.entry_of "/work/x.marshal" "model x" ]},
          Catalog.mkModelManager "model_history.json"
            {[ "1" := Demo.entry_of "/work/x.marshal" "model x" ]}),
     (Catalog.get_model_list Demo.stale_manager Demo.document_written).2).
Proof.
  apply (get_model_list_twice Demo.stale_manager Demo.document_written).
  vm_compute. reflexivity.
Defined.

Lemma get_model_list_raises_without_path_witness :
  Catalog.get_model_list Scenes.broken_manager Demo.document_written
  = (Raise (Exn KeyError "'path'"), Demo.document_written).
Proof.
  apply get_model_list_raises_without_path.
  - intros k e H. unfold Scenes.broken_manager in H. simpl in H.
    apply lookup_insert_Some in H as [[<- <-]|[_ H]]; [right; by eexists|].
    apply lookup_singleton_Some in H as [<- <-]. by left.
  - exists "9", {[ "name" := JStr "no path" ]}. split; vm_compute; reflexivity.
Defined.

Lemma restore_target_is_backed_up_file_witness :
  Sandbox.str_replace ".temp_backup" "" (Demo.slot3 +:+ ".temp_backup") = Demo.slot3.
Proof. apply restore_target_is_backed_up_file. vm_compute. reflexivity. Defined.

(** The candidate is put in both slots of an installation. *)
Lemma temp_replace_puts_candidate_witness :
  ∃ σ',
    Sandbox.temp_replace_model "/site/snownlp" "/work/x.marshal" Demo.fresh_install
    = (Ret true, σ')
    ∧ nodes σ' !! Demo.slot3 = Some (Blob Demo.model_x)
    ∧ nodes σ' !! Demo.slot2 = Some (Blob Demo.model_x).
Proof.
  assert ("sentiment.marshal.3" ∈ Sandbox.SLOT_NAMES) as Hm3
    by (unfold Sandbox.SLOT_NAMES; right; by left).
  assert ("sentiment.marshal" ∈ Sandbox.SLOT_NAMES) as Hm
    by (unfold Sandbox.SLOT_NAMES; by left).
  destruct (temp_replace_puts_candidate "/site/snownlp" "/work/x.marshal" Demo.fresh_install)
    as (ok & σ' & Hrun & _ & _ & _ & _ & Htrue).
  - intros f [-> | ->]%slot_names_inv; vm_compute; discriminate.
  - assert (ok = true) as ->.
    { apply (f_equal fst) in Hrun. vm_compute in Hrun. by injection Hrun as <-. }
    destruct (Htrue eq_refl) as (n & Hn & _ & _ & _ & Hall).
    assert (n = Blob Demo.model_x) as ->.
    { assert (nodes Demo.fresh_install !! "/work/x.marshal" = Some (Blob Demo.model_x)) as H
        by (vm_compute; reflexivity).
      congruence. }
    exists σ'. split; [exact Hrun|]. split.
    + refine (Hall "sentiment.marshal.3" Hm3 _). exists (Blob Demo.original).
      vm_compute. reflexivity.
    + refine (Hall "sentiment.marshal" Hm _). exists (Blob Demo.original).
      vm_compute. reflexivity.
Defined.

(** With a backup path that cannot be written the backup step gives up. *)
Lemma backup_current_model_outcomes_witness :
  ∃ σ', Sandbox.backup_current_model "/site/snownlp" Demo.temp_backup_blocked
        = (Ret None, σ').
Proof.
  destruct (backup_current_model_outcomes "/site/snownlp" Demo.temp_backup_blocked)
    as (o & σ' & Hrun & _ & _ & Hnone & _).
  - intros f [-> | ->]%slot_names_inv; vm_compute; discriminate.
  - intros f [-> | ->]%slot_names_inv; vm_compute; reflexivity.
  - exists σ'. rewrite Hrun. f_equal. f_equal. apply Hnone.
    exists "sentiment.marshal.3". split; [unfold Sandbox.SLOT_NAMES; right; by left|].
    split; [exists (Blob Demo.original); vm_compute; reflexivity|].
    apply (bool_decide_unpack _). vm_compute. exact I.
Defined.



(** A model of two bytes is filed under the second of the call. *)
Lemma add_model_files_entry_witness :
  ∃ self' σ' entry,
    Adding.add_model 4096 Scenes.clock Demo.stale_manager "/work/x.marshal" ∅
      Demo.document_written = (Ret ("1700000000", self'), σ')
    ∧ Catalog.models self' !! "1700000000" = Some entry
    ∧ entry !! "path" = Some (JStr "/work/x.marshal")
    ∧ entry !! "file_size" = Some (JNum (inject_Z 2)).
Proof.
  destruct (add_model_files_entry 4096 Scenes.clock Demo.stale_manager "/work/x.marshal" ∅
              Demo.document_written)
    as (self' & σ' & entry & Hrun & _ & Hm & _ & Hp & Hsz & _).
  - by left.
  - exists self', σ', entry. split; [exact Hrun|]. split; [exact Hm|].
    split; [exact Hp|]. etrans; [exact Hsz|]. vm_compute. reflexivity.
Defined.

Lemma add_then_delete_gives_catalogue_back_witness :
  ∃ self1 σ1 σ2,
    Adding.add_model 4096 Scenes.clock Demo.stale_manager "/work/y.marshal"
      {[ "id" := JStr "7" ]} Demo.document_written = (Ret ("7", self1), σ1)
    ∧ Catalog.delete_model self1 "7" σ1
      = (Ret (Some (JStr "/work/y.marshal"), Demo.stale_manager), σ2).
Proof.
  destruct (add_then_delete_gives_catalogue_back 4096 Scenes.clock Demo.stale_manager
              "/work/y.marshal" {[ "id" := JStr "7" ]} Demo.document_written)
    as (self1 & σ1 & σ2 & Hadd & Hdel).
  - right. exists "7". vm_compute. reflexivity.
  - vm_compute. reflexivity.
  - exists self1, σ1, σ2. split; [exact Hadd | exact Hdel].
Defined.

(** Two models added 0.8 s apart: the catalogue holds the second one under
    the id of both. *)
Lemma models_added_in_one_second_collide_witness :
  ∃ self1 σ1 self2 σ2 entry2,
    Adding.add_model 4096 Scenes.clock Demo.stale_manager "/work/x.marshal" ∅
      Demo.document_written = (Ret ("1700000000", self1), σ1)
    ∧ Adding.add_model 4096 Scenes.a_second_later self1 "/work/y.marshal" ∅ σ1
      = (Ret ("1700000000", self2), σ2)
    ∧ Catalog.models self2 !! "1700000000" = Some entry2
    ∧ entry2 !! "path" = Some (JStr "/work/y.marshal").
Proof.
  destruct (models_added_in_one_second_collide 4096 Scenes.clock Scenes.a_second_later
              Demo.stale_manager "/work/x.marshal" ∅ "/work/y.marshal" ∅
              Demo.document_written)
    as (self1 & σ1 & self2 & σ2 & entry2 & H1 & H2 & Hm & Hp & _).
  - reflexivity.
  - reflexivity.
  - reflexivity.
  - exists self1, σ1, self2, σ2, entry2. by split_and!.
Defined.

(** After training the small candidate is passed over, the large one is
    installed and the slot's content is kept beside it. *)
Lemma manual_replace_installs_first_large_file_witness :
  ∃ σ',
    Manual.manual_replace_worker 4096 "/site/snownlp" Scenes.after_training
    = (Ret (Manual.Replaced 1), σ')
    ∧ nodes σ' !! Demo.slot3 = Some (Blob Scenes.large_model)
    ∧ nodes σ' !! (Demo.slot3 +:+ ".backup_manual") = Some (Blob Demo.original).
Proof.
  destruct (manual_replace_installs_first_large_file 4096 "/site/snownlp"
              "custom_sentiment.model" (Blob Scenes.large_model) Scenes.after_training)
    as (σ' & Hrun & _ & Hall & _).
  - vm_compute. reflexivity.
  - unfold Scenes.after_training. generalize Scenes.large_model. intros b.
    vm_compute. reflexivity.
  - discriminate.
  - intros f [-> | ->]%slot_names_inv; vm_compute; discriminate.
  - exists "sentiment.marshal.3". split; [unfold Sandbox.SLOT_NAMES; right; by left|].
    exists (Blob Demo.original). vm_compute. reflexivity.
  - intros f [-> | ->]%slot_names_inv _;
      (split; [vm_compute; discriminate|]);
      split; intros H; apply (bool_decide_pack _) in H; vm_compute in H; exact H.
  - exists σ'. split; [exact Hrun|].
    destruct (Hall "sentiment.marshal.3") as [Hs Hb].
    + unfold Sandbox.SLOT_NAMES. right. by left.
    + exists (Blob Demo.original). vm_compute. reflexivity.
    + split; [exact Hs|]. etrans; [exact Hb|]. vm_compute. reflexivity.
Defined.

(** A second manual replacement leaves the backup of the first one. *)
Lemma manual_backup_is_kept_witness :
  nodes (Manual.manual_replace_worker 4096 "/site/snownlp" Scenes.replaced_before).2
    !! (Demo.slot3 +:+ ".backup_manual")
  = Some (Blob Demo.original).
Proof.
  apply (manual_backup_is_kept 4096 "/site/snownlp" "sentiment.marshal.3"
           (Blob Demo.original) Scenes.replaced_before).
  - unfold Sandbox.SLOT_NAMES. right. by left.
  - vm_compute. reflexivity.
Defined.
